(** * PyInvoice: the document assembler of [pyinvoice/templates.py]

    A shallow embedding of [SimpleInvoice] and of the part of Python's
    [decimal] module it relies on, followed by the properties of the
    rounding policy, of the sparse attribute tables, of the party-block
    merge, of the items summary and of the assembly order. *)

From Stdlib Require Import ZArith NArith QArith Qabs Qpower.
From Stdlib Require Import List String Ascii Bool Lia DecimalString DecimalN.
Import ListNotations.

Open Scope string_scope.
Open Scope list_scope.
Open Scope Z_scope.

(* ================================================================== *)
(** * Python's [decimal.Decimal], finite values, default context      *)
(* ================================================================== *)

(** [templates.py] computes every money figure with [decimal.Decimal]
    under the default context: 28 significant digits, ROUND_HALF_EVEN,
    [Emax = 999999], [Emin = -999999], with InvalidOperation,
    DivisionByZero and Overflow trapped (they raise).  A finite decimal
    is the triple (sign, coefficient, exponent) and denotes
    [(-1)^sign * coefficient * 10^exponent].  Only finite decimals are
    modelled: the data model of the invoice has no NaN or Infinity
    amounts.  A raised exception is [None]. *)

Module Dec.

Record Decimal : Type := mkDecimal {
  dsign  : bool;   (* [_sign]: true for negative, also of a zero *)
  dcoeff : N;      (* [_int]: the digits, as a number *)
  dexp   : Z       (* [_exp] *)
}.

Definition coeffZ (d : Decimal) : Z := Z.of_N (dcoeff d).

(** [_dec_from_triple(sign, str(coeff), exp)] *)
Definition triple (s : bool) (c : Z) (e : Z) : Decimal :=
  mkDecimal s (Z.to_N c) e.

Definition is_zero (d : Decimal) : bool := (coeffZ d =? 0).

(** [Decimal.__bool__]: a finite decimal is truthy unless it is a zero. *)
Definition truthy (d : Decimal) : bool := negb (is_zero d).

Definition prec : Z := 28.
Definition Emax : Z := 999999.
Definition Emin : Z := -999999.
Definition Etiny : Z := Emin - prec + 1.
Definition Etop : Z := Emax - prec + 1.

(** [len(self._int)]: the number of decimal digits, 1 for zero.  The
    fuel is the binary size, which bounds the decimal one. *)
Fixpoint ndigits_aux (fuel : nat) (c : Z) : Z :=
  match fuel with
  | O => 1
  | S f => if c <? 10 then 1 else 1 + ndigits_aux f (c / 10)
  end.

Definition ndigits (c : Z) : Z := ndigits_aux (Z.to_nat (Z.log2 c)) c.

(** [self.adjusted()] *)
Definition adjusted (d : Decimal) : Z := dexp d + ndigits (coeffZ d) - 1.

Inductive Rounding : Type := ROUND_HALF_UP | ROUND_HALF_EVEN.

(** Whether dropping the last [k] digits of [c] rounds the kept part up
    ([_round_half_up] / [_round_half_even] returning 1).  Half-up looks
    at the first dropped digit, which is 5 or more exactly when twice
    the dropped part reaches [10^k]. *)
Definition rounds_up (r : Rounding) (c k : Z) : bool :=
  let q := c / 10 ^ k in
  let rem := c mod 10 ^ k in
  match r with
  | ROUND_HALF_UP => 10 ^ k <=? 2 * rem
  | ROUND_HALF_EVEN =>
      (10 ^ k <? 2 * rem) || ((10 ^ k =? 2 * rem) && Z.odd q)
  end.

(** The coefficient that remains when the last [k > 0] digits go. *)
Definition round_coeff (r : Rounding) (c k : Z) : Z :=
  if rounds_up r c k then c / 10 ^ k + 1 else c / 10 ^ k.

(** [self._rescale(exp, rounding)] *)
Definition _rescale (d : Decimal) (exp : Z) (r : Rounding) : Decimal :=
  if is_zero d then triple (dsign d) 0 exp
  else if exp <=? dexp d
       then triple (dsign d) (coeffZ d * 10 ^ (dexp d - exp)) exp
       else triple (dsign d) (round_coeff r (coeffZ d) (exp - dexp d)) exp.

(** [self._fix(context)]: round to the context's precision and keep the
    exponent inside its limits; Overflow raises. *)
Definition _fix (d : Decimal) : option Decimal :=
  if is_zero d then
    Some (triple (dsign d) 0 (Z.min (Z.max (dexp d) Etiny) Emax))
  else
    let exp_min0 := ndigits (coeffZ d) + dexp d - prec in
    if Etop <? exp_min0 then None
    else
      let exp_min := Z.max exp_min0 Etiny in
      if dexp d <? exp_min then
        let k := exp_min - dexp d in
        let coeff := coeffZ d / 10 ^ k in
        if rounds_up ROUND_HALF_EVEN (coeffZ d) k then
          if prec <? ndigits (coeff + 1) then
            if Etop <? exp_min + 1 then None
            else Some (triple (dsign d) ((coeff + 1) / 10) (exp_min + 1))
          else Some (triple (dsign d) (coeff + 1) exp_min)
        else Some (triple (dsign d) coeff exp_min)
      else Some d.

(** [self.quantize(exp, rounding=...)] *)
Definition quantize (d exp : Decimal) (r : Rounding) : option Decimal :=
  if negb ((Etiny <=? dexp exp) && (dexp exp <=? Emax)) then None
  else if is_zero d then _fix (triple (dsign d) 0 (dexp exp))
  else if Emax <? adjusted d then None
  else if prec <? adjusted d - dexp exp + 1 then None
  else
    let ans := _rescale d (dexp exp) r in
    if Emax <? adjusted ans then None
    else if prec <? ndigits (coeffZ ans) then None
    else _fix ans.

(** The coefficient with its sign. *)
Definition signedZ (d : Decimal) : Z :=
  if dsign d then - coeffZ d else coeffZ d.

(** The signed coefficient of [d] rewritten with the exponent
    [m <= dexp d]: the number in units of [10^m]. *)
Definition aligned (m : Z) (d : Decimal) : Z :=
  signedZ d * 10 ^ (dexp d - m).

(** [self + other]: the exact sum at the smaller exponent, then [_fix].
    A zero sum of two zeros takes the smaller sign bit, any other zero
    sum is positive (the rounding mode is not ROUND_FLOOR). *)
Definition add (a b : Decimal) : option Decimal :=
  let m := Z.min (dexp a) (dexp b) in
  let v := aligned m a + aligned m b in
  let s := if v =? 0 then is_zero a && is_zero b && dsign a && dsign b
           else v <? 0 in
  _fix (triple s (Z.abs v) m).

(** [self * other] *)
Definition mul (a b : Decimal) : option Decimal :=
  _fix (triple (xorb (dsign a) (dsign b)) (coeffZ a * coeffZ b)
              (dexp a + dexp b)).

(** The loop of [__truediv__] that brings an exact quotient back to the
    ideal exponent: at most [fuel = ideal_exp - exp] turns. *)
Fixpoint strip_zeros (fuel : nat) (coeff exp : Z) : Z * Z :=
  match fuel with
  | O => (coeff, exp)
  | S f => if coeff mod 10 =? 0 then strip_zeros f (coeff / 10) (exp + 1)
           else (coeff, exp)
  end.

(** [self / other] *)
Definition div (a b : Decimal) : option Decimal :=
  let s := xorb (dsign a) (dsign b) in
  if is_zero b then None
  else if is_zero a then _fix (triple s 0 (dexp a - dexp b))
  else
    let shift := ndigits (coeffZ b) - ndigits (coeffZ a) + prec + 1 in
    let exp := dexp a - dexp b - shift in
    let num := if 0 <=? shift then coeffZ a * 10 ^ shift else coeffZ a in
    let den := if 0 <=? shift then coeffZ b else coeffZ b * 10 ^ (- shift) in
    let coeff := num / den in
    let remainder := num mod den in
    if negb (remainder =? 0) then
      _fix (triple s (if coeff mod 5 =? 0 then coeff + 1 else coeff) exp)
    else
      let '(coeff', exp') :=
        strip_zeros (Z.to_nat (dexp a - dexp b - exp)) coeff exp in
      _fix (triple s coeff' exp').

(** [Decimal(n)] for a Python int [n] *)
Definition of_int (n : Z) : Decimal := triple (n <? 0) (Z.abs n) 0.

(** Decimal digits of a natural number, as [str] prints them. *)
Definition digits_of (c : Z) : string :=
  NilEmpty.string_of_uint (N.to_uint (Z.to_N c)).

(** ['{0:.2f}'.format(d)]: rescaled to two places with the context's
    rounding, then sign, integer part, point and two digits. *)
Definition format_2f (d : Decimal) : string :=
  let d2 := _rescale d (-2) ROUND_HALF_EVEN in
  let c := coeffZ d2 in
  ((if dsign d2 then "-" else "") ++
   digits_of (c / 100) ++ "." ++
   digits_of (c mod 100 / 10) ++ digits_of (c mod 10))%string.

(** ["%+d" % n] *)
Definition signed_digits (n : Z) : string :=
  let sign := if n <? 0 then "-" else "+" in
  (sign ++ digits_of (Z.abs n))%string.

Fixpoint zeros (n : nat) : string :=
  match n with O => "" | S m => String "0" (zeros m) end.

(** [str(d)], the scientific string of [Decimal.__str__]: plain
    positional digits when the exponent is at most 0 and the number is
    not too small, one digit before the point and an [E] exponent
    otherwise. *)
Definition str (d : Decimal) : string :=
  let ds := digits_of (coeffZ d) in
  let len := ndigits (coeffZ d) in
  let leftdigits := dexp d + len in
  let dotplace :=
    if (dexp d <=? 0) && (-6 <? leftdigits) then leftdigits else 1 in
  let intpart :=
    if dotplace <=? 0 then "0"
    else if len <=? dotplace
         then (ds ++ zeros (Z.to_nat (dotplace - len)))%string
         else substring 0 (Z.to_nat dotplace) ds in
  let fracpart :=
    if dotplace <=? 0 then ("." ++ zeros (Z.to_nat (- dotplace)) ++ ds)%string
    else if len <=? dotplace then ""
         else ("." ++ substring (Z.to_nat dotplace)
                               (Z.to_nat (len - dotplace)) ds)%string in
  let exp :=
    if leftdigits =? dotplace then ""
    else ("E" ++ signed_digits (leftdigits - dotplace))%string in
  ((if dsign d then "-" else "") ++ intpart ++ fracpart ++ exp)%string.

(** A decimal that is not below zero: no sign, or a zero. *)
Definition nonneg (d : Decimal) : bool := negb (dsign d) || is_zero d.

(** What [_fix] leaves alone: at most [prec] digits and an exponent
    inside the context's limits. *)
Definition fixed (d : Decimal) : Prop :=
  ndigits (coeffZ d) <= prec /\ Etiny <= dexp d /\
  (is_zero d = true -> dexp d <= Emax) /\
  (is_zero d = false -> adjusted d <= Emax).

(** [10^e] as a rational, for any integer [e] *)
Definition pow10Q (e : Z) : Q := (inject_Z 10 ^ e)%Q.

(** The number a decimal denotes. *)
Definition to_Q (d : Decimal) : Q :=
  (inject_Z (signedZ d) * pow10Q (dexp d))%Q.

(** [r] is the multiple of [10^e] nearest to [x], a tie going away from
    zero: [r] is written with exponent [e], lies within half a step of
    [x], and on an exact tie is the one larger in magnitude. *)
Definition nearest_half_up (x r : Decimal) (e : Z) : Prop :=
  dexp r = e /\
  (Qabs (to_Q r - to_Q x) <= (1 # 2) * pow10Q e)%Q /\
  (Qabs (to_Q r - to_Q x) == (1 # 2) * pow10Q e ->
   Qabs (to_Q x) < Qabs (to_Q r))%Q.

(** The same, with both numbers counted in units of [10^m] for the
    smaller exponent [m], where they are integers and one step is
    [10^(e-m)]. *)
Definition nearest_in_units (x r : Decimal) (e : Z) : Prop :=
  let m := Z.min (dexp x) e in
  dexp r = e /\
  2 * Z.abs (aligned m r - aligned m x) <= 10 ^ (e - m) /\
  (2 * Z.abs (aligned m r - aligned m x) = 10 ^ (e - m) ->
   Z.abs (aligned m x) < Z.abs (aligned m r)).

(** [r] is an integer multiple of the step [p], as numbers. *)
Definition multiple_of (r p : Decimal) : Prop :=
  exists k : Z, (to_Q r == inject_Z k * to_Q p)%Q.

End Dec.

(* ================================================================== *)
(** * Python values, entities and table cells                         *)
(* ================================================================== *)

Record date : Type := mkDate { year : Z; month : Z; day : Z }.

Record datetime : Type := mkDatetime {
  dt_date : date; hour : Z; minute : Z; second : Z
}.

(** The values an entity attribute holds. *)
Inductive Value : Type :=
| VNone
| VStr (s : string)
| VInt (n : Z)
| VDate (d : date)
| VDatetime (d : datetime).

(** Python truthiness, as [if attr:] tests it. *)
Definition value_truthy (v : Value) : bool :=
  match v with
  | VNone => false
  | VStr s => negb (String.eqb s "")
  | VInt n => negb (n =? 0)
  | VDate _ | VDatetime _ => true
  end.

(** A number in at least [width] digits, zero-padded on the left. *)
Definition pad (width : nat) (n : Z) : string :=
  let ds := Dec.digits_of n in
  (Dec.zeros (width - String.length ds) ++ ds)%string.

(** [d.strftime('%Y-%m-%d')] as CPython on Linux prints it: the C
    library writes the year as a plain number, without zero padding,
    so a year below 1000 has fewer than four digits; the month and the
    day have two digits. *)
Definition strftime_date (d : date) : string :=
  (Dec.digits_of (year d) ++ "-" ++ pad 2 (month d) ++ "-" ++
   pad 2 (day d))%string.

(** [d.strftime('%Y-%m-%d %H:%M')] *)
Definition strftime_datetime (d : datetime) : string :=
  (strftime_date (dt_date d) ++ " " ++
   pad 2 (hour d) ++ ":" ++ pad 2 (minute d))%string.

(** Modelled from the spec: [pyinvoice/models.py] is not among the
    sources; the entities are flat attribute bags with the fields that
    [templates.py] reads from them. *)
Record InvoiceInfo : Type := mkInvoiceInfo {
  invoice_id : Value; invoice_datetime : Value; due_datetime : Value
}.

Record ServiceProviderInfo : Type := mkServiceProviderInfo {
  sp_name : Value; sp_street : Value; sp_city : Value; sp_state : Value;
  sp_country : Value; sp_post_code : Value; sp_vat_tax_number : Value
}.

Record ClientInfo : Type := mkClientInfo {
  ci_name : Value; ci_street : Value; ci_city : Value; ci_state : Value;
  ci_country : Value; ci_post_code : Value; ci_email : Value;
  ci_client_id : Value
}.

Record Item : Type := mkItem {
  item_name : string; item_description : string; item_units : Z;
  item_unit_price : Dec.Decimal; item_amount : Dec.Decimal
}.

Record Transaction : Type := mkTransaction {
  transaction_id : string; gateway : string;
  transaction_datetime : Value; transaction_amount : Dec.Decimal
}.

(** [getattr(instance, property_name)]; [None] is AttributeError. *)
Class HasAttr (T : Type) : Type := { getattr : T -> string -> option Value }.

#[export] Instance InvoiceInfo_HasAttr : HasAttr InvoiceInfo := {
  getattr i f :=
    if String.eqb f "invoice_id" then Some (invoice_id i)
    else if String.eqb f "invoice_datetime" then Some (invoice_datetime i)
    else if String.eqb f "due_datetime" then Some (due_datetime i)
    else None
}.

#[export] Instance ServiceProviderInfo_HasAttr : HasAttr ServiceProviderInfo := {
  getattr i f :=
    if String.eqb f "name" then Some (sp_name i)
    else if String.eqb f "street" then Some (sp_street i)
    else if String.eqb f "city" then Some (sp_city i)
    else if String.eqb f "state" then Some (sp_state i)
    else if String.eqb f "country" then Some (sp_country i)
    else if String.eqb f "post_code" then Some (sp_post_code i)
    else if String.eqb f "vat_tax_number" then Some (sp_vat_tax_number i)
    else None
}.

#[export] Instance ClientInfo_HasAttr : HasAttr ClientInfo := {
  getattr i f :=
    if String.eqb f "name" then Some (ci_name i)
    else if String.eqb f "street" then Some (ci_street i)
    else if String.eqb f "city" then Some (ci_city i)
    else if String.eqb f "state" then Some (ci_state i)
    else if String.eqb f "country" then Some (ci_country i)
    else if String.eqb f "post_code" then Some (ci_post_code i)
    else if String.eqb f "email" then Some (ci_email i)
    else if String.eqb f "client_id" then Some (ci_client_id i)
    else None
}.

(** What a caller may hand to the document: [isinstance] is a match on
    the constructor. *)
Inductive PyObject : Type :=
| ObjValue (v : Value)
| ObjItem (i : Item)
| ObjTransaction (t : Transaction)
| ObjInvoiceInfo (i : InvoiceInfo)
| ObjServiceProviderInfo (i : ServiceProviderInfo)
| ObjClientInfo (i : ClientInfo).

Inductive ParaStyle : Type :=
| Heading1
| RightHeading1
| TableParagraph
| BottomTip (alignment : option Z).

(** [reportlab.lib.enums] *)
Definition TA_CENTER : Z := 1.
Definition TA_RIGHT : Z := 2.

(** A table cell: a plain value, a [Paragraph], or the text
    ['{0:.2f}'.format(float(d))], whose binary floating-point digits
    are left uninterpreted. *)
Inductive Cell : Type :=
| CVal (v : Value)
| CPara (text : string) (style : ParaStyle)
| CFloat2f (d : Dec.Decimal).

Definition CStr (s : string) : Cell := CVal (VStr s).

Definition Row : Type := list Cell.

(** Grid-style directives with their cell coordinates (column, row). *)
Inductive StyleCmd : Type :=
| SPAN (start stop : Z * Z)
| ALIGN (start stop : Z * Z) (align : string)
| LINEBELOW (start stop : Z * Z) (width : Z) (color : string)
| LEFTPADDING (start stop : Z * Z) (padding : Z).

Record Image : Type := mkImage {
  filename : string; hAlign : string; vAlign : string
}.

(** The content blocks of the story: reportlab's [Paragraph], [Table],
    [Spacer] and [Image], and the [SimpleTable] and [TableWithHeader]
    of [pyinvoice.components], each kept as the constructor call. *)
Inductive Flowable : Type :=
| Paragraph (text : string) (style : ParaStyle)
| SimpleTable (data : list Row) (horizontal_align : string)
| TableWithHeader (data : list Row) (horizontal_align : string)
                  (style : option (list StyleCmd))
| Table (data : list Row) (style : list StyleCmd)
| Spacer (width height : Z)
| ImageBlock (img : Image).

(** The tax rate as the caller sets it: a Python int or a Decimal. *)
Inductive TaxRate : Type :=
| RateInt (n : Z)
| RateDecimal (d : Dec.Decimal).

(** ['{0}'.format(rate)], which is [str(rate)] *)
Definition rate_str (r : TaxRate) : string :=
  match r with
  | RateInt n =>
      let sign := if n <? 0 then "-" else "" in
      (sign ++ Dec.digits_of (Z.abs n))%string
  | RateDecimal d => Dec.str d
  end.

(** [Decimal(str(rate))]: the string of an int or of a finite Decimal
    denotes that number again. *)
Definition rate_decimal (r : TaxRate) : Dec.Decimal :=
  match r with
  | RateInt n => Dec.of_int n
  | RateDecimal d => d
  end.

(** A value of [_build_kwargs]: [PaidStamp(x, y)], in points. *)
Inductive Kwarg : Type := PaidStamp (x y : Z).

(** [reportlab.lib.units.inch], in points *)
Definition inch : Z := 72.

(** The document state of [SimpleInvoice].  [precision] holds the
    decimal that [Decimal(precision)] reads from the configured
    string. *)
Record SimpleInvoice : Type := mkSimpleInvoice {
  precision : Dec.Decimal;
  invoice_info : PyObject;
  service_provider_info : PyObject;
  client_info : PyObject;
  is_paid : bool;
  _items : list PyObject;
  _item_tax_rate : option TaxRate;
  _transactions : list PyObject;
  _story : list Flowable;
  _bottom_tip : option string;
  _bottom_tip_align : option Z;
  _logo : option Image;
  _build_kwargs : list (string * Kwarg)
}.

(** [SimpleInvoice.__init__]: the fields it sets; the page set-up goes
    to the rendering engine. *)
Definition init (precision : Dec.Decimal) : SimpleInvoice := {|
  precision := precision;
  invoice_info := ObjValue VNone;
  service_provider_info := ObjValue VNone;
  client_info := ObjValue VNone;
  is_paid := false;
  _items := [];
  _item_tax_rate := None;
  _transactions := [];
  _story := [];
  _bottom_tip := None;
  _bottom_tip_align := None;
  _logo := None;
  _build_kwargs := []
|}.

(** The default [precision='0.01'] *)
Definition default_precision : Dec.Decimal := Dec.triple false 1 (-2).

(* ================================================================== *)
(** * The builder monad: the document as state, exceptions as [None]  *)
(* ================================================================== *)

Definition Build (A : Type) : Type := SimpleInvoice -> option (A * SimpleInvoice).

Definition ret {A} (a : A) : Build A := fun self => Some (a, self).

Definition bind {A B} (m : Build A) (f : A -> Build B) : Build B :=
  fun self => match m self with
              | Some (a, self') => f a self'
              | None => None
              end.

(** A computation that may raise, run inside a builder. *)
Definition lift {A} (o : option A) : Build A :=
  fun self => match o with Some a => Some (a, self) | None => None end.

Definition gets {A} (f : SimpleInvoice -> A) : Build A :=
  fun self => Some (f self, self).

(** A method that reads the document and may raise. *)
Definition call {A} (f : SimpleInvoice -> option A) : Build A :=
  fun self => lift (f self) self.

Notation "x <- m ;; k" := (bind m (fun x => k))
  (at level 61, m at next level, right associativity).
Notation "m ;;; k" := (bind m (fun _ => k))
  (at level 61, right associativity).

Definition obind {A B} (o : option A) (f : A -> option B) : option B :=
  match o with Some a => f a | None => None end.

Definition set_story (story : list Flowable) (self : SimpleInvoice)
  : SimpleInvoice :=
  {| precision := precision self;
     invoice_info := invoice_info self;
     service_provider_info := service_provider_info self;
     client_info := client_info self;
     is_paid := is_paid self;
     _items := _items self;
     _item_tax_rate := _item_tax_rate self;
     _transactions := _transactions self;
     _story := story;
     _bottom_tip := _bottom_tip self;
     _bottom_tip_align := _bottom_tip_align self;
     _logo := _logo self;
     _build_kwargs := _build_kwargs self |}.

(** [self._story.append(block)] *)
Definition story_append (block : Flowable) : Build unit :=
  fun self => Some (tt, set_story (_story self ++ [block]) self).

(** [isinstance(obj, Item)] and [isinstance(obj, Transaction)] *)
Definition is_Item (obj : PyObject) : bool :=
  match obj with ObjItem _ => true | _ => false end.

Definition is_Transaction (obj : PyObject) : bool :=
  match obj with ObjTransaction _ => true | _ => false end.

(** [add_item]: no path of it raises, so it is a total function. *)
Definition add_item (item : PyObject) (self : SimpleInvoice) : SimpleInvoice :=
  if is_Item item then
      {| precision := precision self;
         invoice_info := invoice_info self;
         service_provider_info := service_provider_info self;
         client_info := client_info self;
         is_paid := is_paid self;
         _items := _items self ++ [item];
         _item_tax_rate := _item_tax_rate self;
         _transactions := _transactions self;
         _story := _story self;
         _bottom_tip := _bottom_tip self;
         _bottom_tip_align := _bottom_tip_align self;
         _logo := _logo self;
         _build_kwargs := _build_kwargs self |}
  else self.

Definition set_item_tax_rate (rate : option TaxRate) (self : SimpleInvoice)
  : SimpleInvoice :=
  {| precision := precision self;
     invoice_info := invoice_info self;
     service_provider_info := service_provider_info self;
     client_info := client_info self;
     is_paid := is_paid self;
     _items := _items self;
     _item_tax_rate := rate;
     _transactions := _transactions self;
     _story := _story self;
     _bottom_tip := _bottom_tip self;
     _bottom_tip_align := _bottom_tip_align self;
     _logo := _logo self;
     _build_kwargs := _build_kwargs self |}.

Definition add_transaction (t : PyObject) (self : SimpleInvoice)
  : SimpleInvoice :=
  if is_Transaction t then
      {| precision := precision self;
         invoice_info := invoice_info self;
         service_provider_info := service_provider_info self;
         client_info := client_info self;
         is_paid := is_paid self;
         _items := _items self;
         _item_tax_rate := _item_tax_rate self;
         _transactions := _transactions self ++ [t];
         _story := _story self;
         _bottom_tip := _bottom_tip self;
         _bottom_tip_align := _bottom_tip_align self;
         _logo := _logo self;
         _build_kwargs := _build_kwargs self |}
  else self.

Definition set_bottom_tip (text : option string) (align : Z)
  (self : SimpleInvoice) : SimpleInvoice :=
  {| precision := precision self;
     invoice_info := invoice_info self;
     service_provider_info := service_provider_info self;
     client_info := client_info self;
     is_paid := is_paid self;
     _items := _items self;
     _item_tax_rate := _item_tax_rate self;
     _transactions := _transactions self;
     _story := _story self;
     _bottom_tip := text;
     _bottom_tip_align := Some align;
     _logo := _logo self;
     _build_kwargs := _build_kwargs self |}.

Definition set_logo (l : option Image) (self : SimpleInvoice) : SimpleInvoice :=
  {| precision := precision self;
     invoice_info := invoice_info self;
     service_provider_info := service_provider_info self;
     client_info := client_info self;
     is_paid := is_paid self;
     _items := _items self;
     _item_tax_rate := _item_tax_rate self;
     _transactions := _transactions self;
     _story := _story self;
     _bottom_tip := _bottom_tip self;
     _bottom_tip_align := _bottom_tip_align self;
     _logo := l;
     _build_kwargs := _build_kwargs self |}.

(** Assignments to the public attributes of the document. *)
Definition set_invoice_info (value : PyObject) (self : SimpleInvoice)
  : SimpleInvoice :=
  {| precision := precision self;
     invoice_info := value;
     service_provider_info := service_provider_info self;
     client_info := client_info self;
     is_paid := is_paid self;
     _items := _items self;
     _item_tax_rate := _item_tax_rate self;
     _transactions := _transactions self;
     _story := _story self;
     _bottom_tip := _bottom_tip self;
     _bottom_tip_align := _bottom_tip_align self;
     _logo := _logo self;
     _build_kwargs := _build_kwargs self |}.

Definition set_service_provider_info (value : PyObject) (self : SimpleInvoice)
  : SimpleInvoice :=
  {| precision := precision self;
     invoice_info := invoice_info self;
     service_provider_info := value;
     client_info := client_info self;
     is_paid := is_paid self;
     _items := _items self;
     _item_tax_rate := _item_tax_rate self;
     _transactions := _transactions self;
     _story := _story self;
     _bottom_tip := _bottom_tip self;
     _bottom_tip_align := _bottom_tip_align self;
     _logo := _logo self;
     _build_kwargs := _build_kwargs self |}.

Definition set_client_info (value : PyObject) (self : SimpleInvoice)
  : SimpleInvoice :=
  {| precision := precision self;
     invoice_info := invoice_info self;
     service_provider_info := service_provider_info self;
     client_info := value;
     is_paid := is_paid self;
     _items := _items self;
     _item_tax_rate := _item_tax_rate self;
     _transactions := _transactions self;
     _story := _story self;
     _bottom_tip := _bottom_tip self;
     _bottom_tip_align := _bottom_tip_align self;
     _logo := _logo self;
     _build_kwargs := _build_kwargs self |}.

Definition set_is_paid (value : bool) (self : SimpleInvoice)
  : SimpleInvoice :=
  {| precision := precision self;
     invoice_info := invoice_info self;
     service_provider_info := service_provider_info self;
     client_info := client_info self;
     is_paid := value;
     _items := _items self;
     _item_tax_rate := _item_tax_rate self;
     _transactions := _transactions self;
     _story := _story self;
     _bottom_tip := _bottom_tip self;
     _bottom_tip_align := _bottom_tip_align self;
     _logo := _logo self;
     _build_kwargs := _build_kwargs self |}.

(** [dict[key] = value] on an association list *)
Fixpoint dict_set {V} (key : string) (value : V) (d : list (string * V))
  : list (string * V) :=
  match d with
  | [] => [(key, value)]
  | (k, v) :: rest =>
      if String.eqb k key then (k, value) :: rest
      else (k, v) :: dict_set key value rest
  end.

Fixpoint dict_get {V} (key : string) (d : list (string * V)) : option V :=
  match d with
  | [] => None
  | (k, v) :: rest => if String.eqb k key then Some v else dict_get key rest
  end.

Definition set_build_kwargs (kw : list (string * Kwarg)) (self : SimpleInvoice)
  : SimpleInvoice :=
  {| precision := precision self;
     invoice_info := invoice_info self;
     service_provider_info := service_provider_info self;
     client_info := client_info self;
     is_paid := is_paid self;
     _items := _items self;
     _item_tax_rate := _item_tax_rate self;
     _transactions := _transactions self;
     _story := _story self;
     _bottom_tip := _bottom_tip self;
     _bottom_tip_align := _bottom_tip_align self;
     _logo := _logo self;
     _build_kwargs := kw |}.

(* ================================================================== *)
(** * The section builders of [SimpleInvoice]                         *)
(* ================================================================== *)

Definition _format_value (value : Value) : Value :=
  match value with
  | VDatetime d => VStr (strftime_datetime d)
  | VDate d => VStr (strftime_date d)
  | _ => value
  end.

(** One turn of the loop of [_attribute_to_table_data]. *)
Definition attribute_row {T} `{HasAttr T} (instance : T)
  (data : option (list Row)) (p : string * string) : option (list Row) :=
  let '(property_name, verbose_name) := p in
  obind data (fun data =>
  obind (getattr instance property_name) (fun attr =>
    if value_truthy attr
    then Some (data ++ [[CStr (verbose_name ++ ":")%string;
                         CVal (_format_value attr)]])
    else Some data)).

Definition _attribute_to_table_data {T} `{HasAttr T} (instance : T)
  (attribute_verbose_name_list : list (string * string)) : option (list Row) :=
  fold_left (attribute_row instance) attribute_verbose_name_list (Some []).

Definition invoice_info_props : list (string * string) :=
  [("invoice_id", "Invoice id"); ("invoice_datetime", "Invoice date");
   ("due_datetime", "Invoice due date")].

Definition _invoice_info_data (self : SimpleInvoice) : option (list Row) :=
  match invoice_info self with
  | ObjInvoiceInfo i => _attribute_to_table_data i invoice_info_props
  | _ => Some []
  end.

Definition _build_invoice_info : Build unit :=
  invoice_info_data <- call _invoice_info_data ;;
  match invoice_info_data with
  | [] => ret tt
  | _ =>
      story_append (Paragraph "Invoice" RightHeading1) ;;;
      story_append (SimpleTable invoice_info_data "RIGHT")
  end.

Definition service_provider_props : list (string * string) :=
  [("name", "Name"); ("street", "Street"); ("city", "City");
   ("state", "State"); ("country", "Country"); ("post_code", "Post code");
   ("vat_tax_number", "Vat/Tax number")].

Definition _service_provider_data (self : SimpleInvoice) : option (list Row) :=
  match service_provider_info self with
  | ObjServiceProviderInfo i => _attribute_to_table_data i service_provider_props
  | _ => Some []
  end.

Definition _build_service_provider_info : Build unit :=
  service_provider_info_data <- call _service_provider_data ;;
  match service_provider_info_data with
  | [] => ret tt
  | _ =>
      story_append (Paragraph "Service Provider" RightHeading1) ;;;
      story_append (SimpleTable service_provider_info_data "RIGHT")
  end.

Definition client_props : list (string * string) :=
  [("name", "Name"); ("street", "Street"); ("city", "City");
   ("state", "State"); ("country", "Country"); ("post_code", "Post code");
   ("email", "Email"); ("client_id", "Client id")].

Definition _client_info_data (self : SimpleInvoice) : option (list Row) :=
  match client_info self with
  | ObjClientInfo i => _attribute_to_table_data i client_props
  | _ => Some []
  end.

Definition _build_client_info : Build unit :=
  client_info_data <- call _client_info_data ;;
  match client_info_data with
  | [] => ret tt
  | _ =>
      story_append (Paragraph "Client" Heading1) ;;;
      story_append (SimpleTable client_info_data "LEFT")
  end.

(** Python's [l * n] on lists *)
Definition list_mul {A} (l : list A) (n : nat) : list A :=
  List.concat (repeat l n).

Definition merge_header : Row :=
  [CPara "Service Provider" Heading1; CStr ""; CStr "";
   CPara "Client" Heading1; CStr ""].

Definition merge_style : list StyleCmd :=
  [SPAN (0, 0) (1, 0); SPAN (3, 0) (4, 0);
   LINEBELOW (0, 0) (1, 0) 1 "gray"; LINEBELOW (3, 0) (4, 0) 1 "gray";
   LEFTPADDING (0, 0) (-1, -1) 0].

(** The padding step of the merge: [client_info_data.extend(...)] or
    [service_provider_data.extend(...)], as the source writes them. *)
Definition pad_party_rows (service_provider_data client_info_data : list Row)
  : list Row * list Row :=
  let diff := Z.abs (Z.of_nat (List.length client_info_data)
                     - Z.of_nat (List.length service_provider_data)) in
  if 0 <? diff then
    if (List.length client_info_data <? List.length service_provider_data)%nat
    then
      (service_provider_data,
       client_info_data ++ list_mul [[CStr ""; CStr ""]] (Z.to_nat diff))
    else
      (service_provider_data ++ [list_mul [CStr ""; CStr ""] (Z.to_nat diff)],
       client_info_data)
  else (service_provider_data, client_info_data).

(** The loop over [zip(service_provider_data, client_info_data)]: the
    provider row gets one blank cell and the client row's cells. *)
Definition zip_party_rows (service_provider_data client_info_data : list Row)
  : list Row :=
  map (fun d => fst d ++ [CStr ""] ++ snd d)
      (combine service_provider_data client_info_data).

Definition _build_service_provider_and_client_info : Build unit :=
  fun self =>
    match service_provider_info self, client_info self with
    | ObjServiceProviderInfo _, ObjClientInfo _ =>
        (client_info_data <- call _client_info_data ;;
         service_provider_data <- call _service_provider_data ;;
         let '(service_provider_data, client_info_data) :=
           pad_party_rows service_provider_data client_info_data in
         story_append
           (Table (merge_header ::
                   zip_party_rows service_provider_data client_info_data)
                  merge_style)) self
    | _, _ =>
        (_build_service_provider_info ;;; _build_client_info) self
    end.

(** [getroundeddecimal]: [Decimal(nrtoround)] is the decimal itself,
    [Decimal(precision)] only lends its exponent to [quantize]. *)
Definition getroundeddecimal (nrtoround precision : Dec.Decimal)
  : option Dec.Decimal :=
  let d := nrtoround in
  let aftercomma := precision in
  Dec.quantize d aftercomma Dec.ROUND_HALF_UP.

(** The table row of one item. *)
Definition item_row (item : Item) : Row :=
  [CStr (item_name item);
   CPara (item_description item) TableParagraph;
   CVal (VInt (item_units item));
   CFloat2f (item_unit_price item);
   CStr (Dec.format_2f (item_amount item))].

(** One turn of the loop of [_item_raw_data_and_subtotal]. *)
Definition item_step (acc : option (list Row * Dec.Decimal)) (item : PyObject)
  : option (list Row * Dec.Decimal) :=
  obind acc (fun '(item_data, item_subtotal) =>
    match item with
    | ObjItem item =>
        obind (Dec.add item_subtotal (item_amount item)) (fun subtotal =>
          Some (item_data ++ [item_row item], subtotal))
    | _ => Some (item_data, item_subtotal)
    end).

(** [item_subtotal] starts as the int 0, which the first addition
    converts to [Decimal(0)]. *)
Definition _item_raw_data_and_subtotal (self : SimpleInvoice)
  : option (list Row * Dec.Decimal) :=
  fold_left item_step (_items self) (Some ([], Dec.of_int 0)).

Definition item_data_title : Row :=
  [CStr "Name"; CStr "Description"; CStr "Units"; CStr "Unit Price";
   CStr "Amount"].

Definition summary_row (label : string) (amount : Dec.Decimal) : Row :=
  [CStr label; CStr ""; CStr ""; CStr ""; CStr (Dec.format_2f amount)].

Definition _item_data_and_style : Build (list Row * list StyleCmd) :=
  raw <- call _item_raw_data_and_subtotal ;;
  let '(item_data, item_subtotal) := raw in
  let style := [] in
  match item_data with
  | [] => ret (item_data, style)
  | _ =>
    story_append (Paragraph "Detail" Heading1) ;;;
    let item_data := item_data_title :: item_data in
    let sum_start_y_index := Z.of_nat (List.length item_data) in
    let sum_end_x_index := -1 - 1 in
    let sum_start_x_index :=
      Z.of_nat (List.length item_data_title) - Z.abs sum_end_x_index in
    self_precision <- gets precision ;;
    rounditem_subtotal <- lift (getroundeddecimal item_subtotal self_precision) ;;
    let item_data := item_data ++ [summary_row "Subtotal" rounditem_subtotal] in
    let style := style ++
      [SPAN (0, sum_start_y_index) (sum_start_x_index, sum_start_y_index);
       ALIGN (0, sum_start_y_index) (sum_end_x_index, -1) "RIGHT"] in
    rate <- gets _item_tax_rate ;;
    taxed <-
      match rate with
      | Some rate =>
          fraction <- lift (Dec.div (rate_decimal rate) (Dec.of_int 100)) ;;
          tax_total <- lift (Dec.mul item_subtotal fraction) ;;
          roundtax_total <- lift (getroundeddecimal tax_total self_precision) ;;
          let item_data := item_data ++
            [summary_row ("Vat/Tax (" ++ rate_str rate ++ "%)")%string
                         roundtax_total] in
          let sum_start_y_index := sum_start_y_index + 1 in
          let style := style ++
            [SPAN (0, sum_start_y_index) (sum_start_x_index, sum_start_y_index);
             ALIGN (0, sum_start_y_index) (sum_end_x_index, -1) "RIGHT"] in
          ret (item_data, sum_start_y_index, style, Some tax_total)
      | None => ret (item_data, sum_start_y_index, style, None)
      end ;;
    let '(item_data, sum_start_y_index, style, tax_total) := taxed in
    total <- lift (Dec.add item_subtotal
                     match tax_total with
                     | Some t => if Dec.truthy t then t else Dec.of_int 0
                     | None => Dec.of_int 0
                     end) ;;
    roundtotal <- lift (getroundeddecimal total self_precision) ;;
    let item_data := item_data ++ [summary_row "Total" roundtotal] in
    let sum_start_y_index := sum_start_y_index + 1 in
    let style := style ++
      [SPAN (0, sum_start_y_index) (sum_start_x_index, sum_start_y_index);
       ALIGN (0, sum_start_y_index) (sum_end_x_index, -1) "RIGHT"] in
    ret (item_data, style)
  end.

Definition _build_items : Build unit :=
  r <- _item_data_and_style ;;
  let '(item_data, style) := r in
  match item_data with
  | [] => ret tt
  | _ => story_append (TableWithHeader item_data "LEFT" (Some style))
  end.

Definition transaction_title : Row :=
  [CStr "Transaction id"; CStr "Gateway"; CStr "Transaction date";
   CStr "Amount"].

(** The list comprehension of [_transactions_data] *)
Fixpoint transaction_rows (ts : list PyObject) : list Row :=
  match ts with
  | [] => []
  | ObjTransaction t :: rest =>
      [CStr (transaction_id t);
       CPara (gateway t) TableParagraph;
       CVal (_format_value (transaction_datetime t));
       CStr (Dec.format_2f (transaction_amount t))] :: transaction_rows rest
  | _ :: rest => transaction_rows rest
  end.

Definition _transactions_data (self : SimpleInvoice) : list Row :=
  let transaction_table_data := transaction_rows (_transactions self) in
  match transaction_table_data with
  | [] => transaction_table_data
  | _ => transaction_title :: transaction_table_data
  end.

Definition _build_transactions : Build unit :=
  transaction_table_data <- gets _transactions_data ;;
  match transaction_table_data with
  | [] => ret tt
  | _ =>
      story_append (Paragraph "Transaction" Heading1) ;;;
      story_append (TableWithHeader transaction_table_data "LEFT" None)
  end.

(** [if self._bottom_tip:] holds for a non-empty text. *)
Definition _build_bottom_tip : Build unit :=
  tip <- gets _bottom_tip ;;
  match tip with
  | Some text =>
      if String.eqb text "" then ret tt
      else
        align <- gets _bottom_tip_align ;;
        story_append (Spacer 5 5) ;;;
        story_append
          (Paragraph text (BottomTip align))
  | None => ret tt
  end.

(** The story holds the very image object whose alignment was set. *)
Definition _build_logo : Build unit :=
  l <- gets _logo ;;
  match l with
  | Some img =>
      let img := mkImage (filename img) "LEFT" "TOP" in
      (fun self => Some (tt, set_logo (Some img) self)) ;;;
      story_append (ImageBlock img)
  | None => ret tt
  end.

Definition _build_paid_stamp : Build unit :=
  fun self =>
    if is_paid self then
      Some (tt, set_build_kwargs
                  (dict_set "onFirstPage" (PaidStamp (3 * inch) (-2 * inch))
                            (_build_kwargs self)) self)
    else Some (tt, self).

(** [finish], up to the call [self.build(self._story, ...)]: the state
    it returns is the document at that call, whose [_story] and
    [_build_kwargs] are the arguments handed to the rendering engine.
    What the engine then does with the list it is handed (it consumes
    it) is not part of this model. *)
Definition finish : Build unit :=
  _build_logo ;;;
  _build_invoice_info ;;;
  _build_service_provider_and_client_info ;;;
  _build_items ;;;
  _build_transactions ;;;
  _build_bottom_tip ;;;
  _build_paid_stamp.


(* ================================================================== *)
(** * What each section contributes, as functions of the document     *)
(* ================================================================== *)

(** The rows of a sparse attribute table in the spec's words: one row
    [label:, formatted value] for every field whose value is truthy,
    in field order. *)
Definition sparse_rows (fields : list (string * Value)) : list Row :=
  map (fun f => [CStr (fst f ++ ":")%string; CVal (_format_value (snd f))])
      (filter (fun f => value_truthy (snd f)) fields).

(** [getattr] finds the values [vals] for the listed fields, none of
    them raising AttributeError. *)
Definition attributes_found {T : Type} `{HasAttr T} (instance : T)
  (props : list (string * string)) (vals : list Value) : Prop :=
  Forall2 (fun p v => getattr instance (fst p) = Some v) props vals.

Definition invoice_info_fields (i : InvoiceInfo) : list (string * Value) :=
  [("Invoice id", invoice_id i); ("Invoice date", invoice_datetime i);
   ("Invoice due date", due_datetime i)].

Definition service_provider_fields (i : ServiceProviderInfo)
  : list (string * Value) :=
  [("Name", sp_name i); ("Street", sp_street i); ("City", sp_city i);
   ("State", sp_state i); ("Country", sp_country i);
   ("Post code", sp_post_code i); ("Vat/Tax number", sp_vat_tax_number i)].

Definition client_fields (i : ClientInfo) : list (string * Value) :=
  [("Name", ci_name i); ("Street", ci_street i); ("City", ci_city i);
   ("State", ci_state i); ("Country", ci_country i);
   ("Post code", ci_post_code i); ("Email", ci_email i);
   ("Client id", ci_client_id i)].

Definition invoice_info_rows (self : SimpleInvoice) : list Row :=
  match invoice_info self with
  | ObjInvoiceInfo i => sparse_rows (invoice_info_fields i)
  | _ => []
  end.

Definition service_provider_rows (self : SimpleInvoice) : list Row :=
  match service_provider_info self with
  | ObjServiceProviderInfo i => sparse_rows (service_provider_fields i)
  | _ => []
  end.

Definition client_rows (self : SimpleInvoice) : list Row :=
  match client_info self with
  | ObjClientInfo i => sparse_rows (client_fields i)
  | _ => []
  end.

Definition headed_table (heading : string) (style : ParaStyle)
  (align : string) (rows : list Row) : list Flowable :=
  match rows with
  | [] => []
  | _ => [Paragraph heading style; SimpleTable rows align]
  end.

Definition aligned_logo (img : Image) : Image :=
  mkImage (filename img) "LEFT" "TOP".

Definition logo_blocks (self : SimpleInvoice) : list Flowable :=
  match _logo self with
  | Some img => [ImageBlock (aligned_logo img)]
  | None => []
  end.

Definition invoice_info_blocks (self : SimpleInvoice) : list Flowable :=
  headed_table "Invoice" RightHeading1 "RIGHT" (invoice_info_rows self).

Definition is_ServiceProviderInfo (obj : PyObject) : bool :=
  match obj with ObjServiceProviderInfo _ => true | _ => false end.

Definition is_ClientInfo (obj : PyObject) : bool :=
  match obj with ObjClientInfo _ => true | _ => false end.

Definition merged_table (self : SimpleInvoice) : Flowable :=
  let padded := pad_party_rows (service_provider_rows self) (client_rows self) in
  Table (merge_header :: zip_party_rows (fst padded) (snd padded)) merge_style.

Definition separate_party_blocks (self : SimpleInvoice) : list Flowable :=
  headed_table "Service Provider" RightHeading1 "RIGHT"
               (service_provider_rows self) ++
  headed_table "Client" Heading1 "LEFT" (client_rows self).

Definition party_blocks (self : SimpleInvoice) : list Flowable :=
  if is_ServiceProviderInfo (service_provider_info self)
     && is_ClientInfo (client_info self)
  then [merged_table self]
  else separate_party_blocks self.

(** The rows and style of the items table, whatever the story holds. *)
Definition items_table (self : SimpleInvoice)
  : option (list Row * list StyleCmd) :=
  option_map fst (_item_data_and_style self).

Definition items_table_blocks (table : list Row * list StyleCmd)
  : list Flowable :=
  match fst table with
  | [] => []
  | item_data => [Paragraph "Detail" Heading1;
                  TableWithHeader item_data "LEFT" (Some (snd table))]
  end.

Definition items_blocks (self : SimpleInvoice) : option (list Flowable) :=
  option_map items_table_blocks (items_table self).

Definition transactions_blocks (self : SimpleInvoice) : list Flowable :=
  match _transactions_data self with
  | [] => []
  | data => [Paragraph "Transaction" Heading1; TableWithHeader data "LEFT" None]
  end.

Definition bottom_tip_blocks (self : SimpleInvoice) : list Flowable :=
  match _bottom_tip self with
  | Some text =>
      if String.eqb text "" then []
      else [Spacer 5 5; Paragraph text (BottomTip (_bottom_tip_align self))]
  | None => []
  end.

Definition with_aligned_logo (self : SimpleInvoice) : SimpleInvoice :=
  match _logo self with
  | Some img => set_logo (Some (aligned_logo img)) self
  | None => self
  end.

Definition with_paid_stamp (self : SimpleInvoice) : SimpleInvoice :=
  if is_paid self
  then set_build_kwargs
         (dict_set "onFirstPage" (PaidStamp (3 * inch) (-2 * inch))
                   (_build_kwargs self)) self
  else self.


(** The story after [finish]: the sections in their fixed order. *)
Definition sections (self : SimpleInvoice) (items : list Flowable)
  : list Flowable :=
  logo_blocks self ++ invoice_info_blocks self ++ party_blocks self ++
  items ++ transactions_blocks self ++ bottom_tip_blocks self.

(** A builder that only appends [blocks] to the story. *)
Definition appends (b : Build unit) (blocks : SimpleInvoice -> list Flowable)
  : Prop :=
  forall self, b self = Some (tt, set_story (_story self ++ blocks self) self).

Definition is_InvoiceInfo (obj : PyObject) : bool :=
  match obj with ObjInvoiceInfo _ => true | _ => false end.

(** The heading or the table of the items or transactions section. *)
Definition is_items_or_transactions_block (b : Flowable) : bool :=
  match b with
  | Paragraph text Heading1 =>
      String.eqb text "Detail" || String.eqb text "Transaction"
  | TableWithHeader _ _ _ => true
  | _ => false
  end.

(** The running sum of [_item_raw_data_and_subtotal] over items alone. *)
Definition sum_amounts_from (acc : option Dec.Decimal) (items : list Item)
  : option Dec.Decimal :=
  fold_left (fun acc item =>
               obind acc (fun subtotal => Dec.add subtotal (item_amount item)))
            items acc.

Definition sum_amounts (items : list Item) : option Dec.Decimal :=
  sum_amounts_from (Some (Dec.of_int 0)) items.

(** [item_subtotal * (Decimal(str(rate)) / Decimal('100'))], unrounded *)
Definition raw_tax (rate : TaxRate) (item_subtotal : Dec.Decimal)
  : option Dec.Decimal :=
  obind (Dec.div (rate_decimal rate) (Dec.of_int 100))
        (Dec.mul item_subtotal).

(** The total as the source computes it: the raw subtotal plus the raw
    tax, rounded once. *)
Definition total_from_raw_sum (precision : Dec.Decimal) (rate : TaxRate)
  (item_subtotal : Dec.Decimal) : option Dec.Decimal :=
  obind (raw_tax rate item_subtotal) (fun tax_total =>
  obind (Dec.add item_subtotal
           (if Dec.truthy tax_total then tax_total else Dec.of_int 0))
        (fun total => getroundeddecimal total precision)).

(** The total in the spec's words: the rounded subtotal plus the
    rounded tax. *)
Definition total_from_rounded_parts (precision : Dec.Decimal) (rate : TaxRate)
  (item_subtotal : Dec.Decimal) : option Dec.Decimal :=
  obind (getroundeddecimal item_subtotal precision) (fun rounditem_subtotal =>
  obind (raw_tax rate item_subtotal) (fun tax_total =>
  obind (getroundeddecimal tax_total precision) (fun roundtax_total =>
    Dec.add rounditem_subtotal roundtax_total))).

(** The six style directives of the summary rows, the subtotal row
    being row [y] of the table. *)
Definition summary_style (y : Z) (taxed : bool) : list StyleCmd :=
  [SPAN (0, y) (3, y); ALIGN (0, y) (-2, -1) "RIGHT"] ++
  (if taxed
   then [SPAN (0, y + 1) (3, y + 1); ALIGN (0, y + 1) (-2, -1) "RIGHT";
         SPAN (0, y + 1 + 1) (3, y + 1 + 1);
         ALIGN (0, y + 1 + 1) (-2, -1) "RIGHT"]
   else [SPAN (0, y + 1) (3, y + 1); ALIGN (0, y + 1) (-2, -1) "RIGHT"]).

(** Exactly one of the two parties is set on the document. *)
Definition exactly_one_party (self : SimpleInvoice) : bool :=
  xorb (is_ServiceProviderInfo (service_provider_info self))
       (is_ClientInfo (client_info self)).

(* ================================================================== *)
(** * Sample documents                                                *)
(* ================================================================== *)

(** The positive decimal [c * 10^e], as [Decimal('...')] reads it. *)
Definition dec (c e : Z) : Dec.Decimal := Dec.triple false c e.

Definition sample_item (amount : Dec.Decimal) : PyObject :=
  ObjItem (mkItem "Item" "Description" 1 amount amount).

(** Amounts [10.00] and [20.005], tax rate [10], precision ['0.01'] *)
Definition summary_doc : SimpleInvoice :=
  set_item_tax_rate (Some (RateInt 10))
    (add_item (sample_item (dec 20005 (-3)))
       (add_item (sample_item (dec 1000 (-2))) (init default_precision))).

(** One amount [10.005], tax rate [100], precision ['0.01'] *)
Definition rounded_parts_doc : SimpleInvoice :=
  set_item_tax_rate (Some (RateInt 100))
    (add_item (sample_item (dec 10005 (-3))) (init default_precision)).

(** One amount [12.50], tax rate [0] *)
Definition zero_rate_doc : SimpleInvoice :=
  set_item_tax_rate (Some (RateInt 0))
    (add_item (sample_item (dec 1250 (-2))) (init default_precision)).

(** A provider with two populated fields and a client with five. *)
Definition two_row_provider : ServiceProviderInfo :=
  mkServiceProviderInfo (VStr "Acme") (VStr "1 Main St")
                        VNone VNone VNone VNone VNone.

Definition five_row_client : ClientInfo :=
  mkClientInfo (VStr "Bob") (VStr "2 Side St") (VStr "Town") (VStr "NY")
               (VStr "US") VNone VNone VNone.

Definition merge_doc : SimpleInvoice :=
  set_client_info (ObjClientInfo five_row_client)
    (set_service_provider_info (ObjServiceProviderInfo two_row_provider)
       (init default_precision)).

(** A provider with three of its seven fields populated. *)
Definition three_row_provider : ServiceProviderInfo :=
  mkServiceProviderInfo (VStr "Acme") VNone (VStr "Town") VNone VNone
                        (VStr "") (VStr "VAT-1").

Definition client_only_doc : SimpleInvoice :=
  set_client_info (ObjClientInfo five_row_client) (init default_precision).

Definition sample_datetime : datetime := mkDatetime (mkDate 2024 3 5) 9 7 30.

(* ================================================================== *)
(** * Notions for the properties of the remaining code                *)
(* ================================================================== *)

(** The [items] and [transactions] properties return [self._items[:]]
    and [self._transactions[:]]: a list equal to the stored one. *)
Definition items (self : SimpleInvoice) : list PyObject := _items self.

Definition transactions (self : SimpleInvoice) : list PyObject :=
  _transactions self.

(** The Items among the objects of a list, in list order. *)
Fixpoint items_of (objs : list PyObject) : list Item :=
  match objs with
  | [] => []
  | ObjItem item :: rest => item :: items_of rest
  | _ :: rest => items_of rest
  end.

(** The Transactions among the objects of a list, in list order. *)
Fixpoint transactions_of (objs : list PyObject) : list Transaction :=
  match objs with
  | [] => []
  | ObjTransaction t :: rest => t :: transactions_of rest
  | _ :: rest => transactions_of rest
  end.

(** The tuple the comprehension of [_transactions_data] builds for one
    transaction. *)
Definition transaction_row (t : Transaction) : Row :=
  [CStr (transaction_id t);
   CPara (gateway t) TableParagraph;
   CVal (_format_value (transaction_datetime t));
   CStr (Dec.format_2f (transaction_amount t))].

(** The sum of the amounts as rational numbers, with no rounding. *)
Definition exact_sum (items : list Item) : Q :=
  fold_right (fun item acc => (Dec.to_Q (item_amount item) + acc)%Q) 0%Q items.

(** The amounts counted in units of [10^m], in magnitude, added up. *)
Definition sum_of_magnitudes (m : Z) (items : list Item) : Z :=
  fold_right (fun item acc => Z.abs (Dec.aligned m (item_amount item)) + acc)
             0 items.

(** The amounts counted in units of [10^m], added up. *)
Definition sum_in_units (m : Z) (items : list Item) : Z :=
  fold_right (fun item acc => Dec.aligned m (item_amount item) + acc) 0 items.

(** Amounts that the context adds without rounding: all of them are
    whole numbers of the unit [10^m], a unit the context can hold and
    no coarser than 1, and their magnitudes together stay below
    [10^prec] units. *)
Definition amounts_fit (m : Z) (items : list Item) : bool :=
  (Dec.Etiny <=? m) && (m <=? 0) &&
  forallb (fun item => m <=? Dec.dexp (item_amount item)) items &&
  (sum_of_magnitudes m items <? 10 ^ Dec.prec).

(** The two directives of the summary row that is row [y] of the items
    table. *)
Definition summary_row_style (y : Z) : list StyleCmd :=
  [SPAN (0, y) (3, y); ALIGN (0, y) (-2, -1) "RIGHT"].

Definition is_summary_row (row : Row) : Prop :=
  exists label amount, row = summary_row label amount.

(** [-d], the decimal with the other sign *)
Definition dec_neg (d : Dec.Decimal) : Dec.Decimal :=
  Dec.mkDecimal (negb (Dec.dsign d)) (Dec.dcoeff d) (Dec.dexp d).

(** The documents a caller reaches through the methods of
    [SimpleInvoice] and assignments to its public attributes. *)
Inductive api_built : SimpleInvoice -> Prop :=
| built_init precision : api_built (init precision)
| built_add_item item self :
    api_built self -> api_built (add_item item self)
| built_add_transaction t self :
    api_built self -> api_built (add_transaction t self)
| built_set_item_tax_rate rate self :
    api_built self -> api_built (set_item_tax_rate rate self)
| built_set_bottom_tip text align self :
    api_built self -> api_built (set_bottom_tip text align self)
| built_set_invoice_info value self :
    api_built self -> api_built (set_invoice_info value self)
| built_set_service_provider_info value self :
    api_built self -> api_built (set_service_provider_info value self)
| built_set_client_info value self :
    api_built self -> api_built (set_client_info value self)
| built_set_is_paid value self :
    api_built self -> api_built (set_is_paid value self)
| built_logo img self :
    api_built self -> api_built (set_logo (Some img) self)
| built_finish self self' :
    api_built self -> finish self = Some (tt, self') -> api_built self'.

(** The directives of [k] summary rows, the first being row [y]. *)
Definition summary_rows_style (y : Z) (k : nat) : list StyleCmd :=
  flat_map (fun i => summary_row_style (y + Z.of_nat i)) (seq 0 k).

(** Round-half-up on whole numbers: [X] units of which [U] make one
    step, rounded to steps, a tie going away from zero. *)
Definition half_up_steps (X U : Z) : Z :=
  Z.sgn X * ((2 * Z.abs X + U) / (2 * U)).

(** A rounded result that the context holds: an exponent within its
    limits, at most [prec] digits and an adjusted exponent of at most
    [Emax]. *)
Definition result_fits (r : Dec.Decimal) : bool :=
  (Dec.Etiny <=? Dec.dexp r) && (Dec.dexp r <=? Dec.Emax) &&
  (Dec.ndigits (Dec.coeffZ r) <=? Dec.prec) &&
  (Dec.adjusted r <=? Dec.Emax).

(** The spec's formats ['YYYY-MM-DD'] and ['YYYY-MM-DD HH:MM'], written
    digit by digit. *)
Definition digit_char (n : Z) : ascii :=
  nth (Z.to_nat n)
      ["0"%char; "1"%char; "2"%char; "3"%char; "4"%char;
       "5"%char; "6"%char; "7"%char; "8"%char; "9"%char] "?"%char.

Definition two_digits (n : Z) : string :=
  String (digit_char (n / 10)) (String (digit_char (n mod 10)) "").

Definition four_digits (n : Z) : string :=
  String (digit_char (n / 1000))
         (String (digit_char (n / 100 mod 10)) (two_digits (n mod 100))).

Definition iso_date (d : date) : string :=
  (four_digits (year d) ++ "-" ++ two_digits (month d) ++ "-" ++
   two_digits (day d))%string.

Definition iso_minutes (d : datetime) : string :=
  (iso_date (dt_date d) ++ " " ++ two_digits (hour d) ++ ":" ++
   two_digits (minute d))%string.

Definition iso_value (v : Value) : Value :=
  match v with
  | VDatetime d => VStr (iso_minutes d)
  | VDate d => VStr (iso_date d)
  | _ => v
  end.

(** A date of Python's [date] type whose year has four digits, and a
    datetime on such a date. *)
Definition four_digit_date (d : date) : bool :=
  (1000 <=? year d) && (year d <=? 9999) &&
  (1 <=? month d) && (month d <=? 12) && (1 <=? day d) && (day d <=? 31).

Definition four_digit_datetime (d : datetime) : bool :=
  four_digit_date (dt_date d) &&
  (0 <=? hour d) && (hour d <=? 23) && (0 <=? minute d) && (minute d <=? 59).

Definition four_digit_years (v : Value) : bool :=
  match v with
  | VDate d => four_digit_date d
  | VDatetime d => four_digit_datetime d
  | _ => true
  end.

(** The rows of an attribute table in the spec's words: for every field
    with a truthy value, in field order, the label with a colon and the
    value, a datetime as 'YYYY-MM-DD HH:MM' and a date as
    'YYYY-MM-DD'. *)
Definition formatted_rows (fields : list (string * Value)) : list Row :=
  map (fun f => [CVal (VStr (fst f ++ ":")%string); CVal (iso_value (snd f))])
      (filter (fun f => value_truthy (snd f)) fields).

(** The labels of the fields with a truthy value, in field order. *)
Definition truthy_labels (fields : list (string * Value)) : list string :=
  map (fun f => (fst f ++ ":")%string)
      (filter (fun f => value_truthy (snd f)) fields).

(** The first cell of a row, as a text. *)
Definition row_label (row : Row) : string :=
  match row with
  | CVal (VStr s) :: _ => s
  | _ => ""
  end.

(** The merge of two party tables in the spec's words: row [i] holds
    the provider's row [i], a blank cell and the client's row [i], a
    side that has no row [i] giving two blank cells. *)
Definition blank_pair : Row := [CVal (VStr ""); CVal (VStr "")].

Definition merged_rows (service_provider_data client_info_data : list Row)
  : list Row :=
  map (fun i => nth i service_provider_data blank_pair ++
                [CVal (VStr "")] ++ nth i client_info_data blank_pair)
      (seq 0 (Nat.max (List.length service_provider_data)
                      (List.length client_info_data))).

(** A summary row of the items table, cell by cell. *)
Definition summary_cells (label amount_text : string) : Row :=
  [CVal (VStr label); CVal (VStr ""); CVal (VStr ""); CVal (VStr "");
   CVal (VStr amount_text)].

(** How a zero prints to two places. *)
Definition zero_text (negative : bool) : string :=
  if negative then "-0.00" else "0.00".

(** The build arguments [finish] hands over. *)
Definition kwargs_after_finish (self : SimpleInvoice) : list (string * Kwarg) :=
  if is_paid self
  then dict_set "onFirstPage" (PaidStamp 216 (-144)) (_build_kwargs self)
  else _build_kwargs self.

(** A document with every section: logo, invoice info, both parties,
    two items under a tax rate of 10, a transaction, a bottom tip and
    the paid flag. *)
Definition sample_invoice_info : InvoiceInfo :=
  mkInvoiceInfo (VInt 42) (VDatetime sample_datetime)
                (VDate (mkDate 2024 4 4)).

Definition sample_transaction : Transaction :=
  mkTransaction "T1" "Bank" (VDatetime sample_datetime) (dec 3301 (-2)).

Definition full_doc : SimpleInvoice :=
  set_is_paid true
    (set_logo (Some (mkImage "logo.png" "CENTER" "MIDDLE"))
       (set_bottom_tip (Some "Thank you") TA_CENTER
          (add_transaction (ObjTransaction sample_transaction)
             (set_invoice_info (ObjInvoiceInfo sample_invoice_info)
                (set_client_info
                   (ObjClientInfo
                      (mkClientInfo (VStr "Bob") VNone VNone VNone VNone
                                    VNone VNone VNone))
                   (set_service_provider_info
                      (ObjServiceProviderInfo two_row_provider)
                      summary_doc)))))).

(** Both parties set, neither with a populated field. *)
Definition empty_parties_doc : SimpleInvoice :=
  set_client_info
    (ObjClientInfo (mkClientInfo VNone VNone VNone VNone VNone VNone VNone
                                 VNone))
    (set_service_provider_info
       (ObjServiceProviderInfo
          (mkServiceProviderInfo VNone VNone VNone VNone VNone VNone VNone))
       (init default_precision)).

(** A client with no populated field, and no provider. *)
Definition empty_client_doc : SimpleInvoice :=
  set_client_info
    (ObjClientInfo (mkClientInfo VNone (VStr "") VNone VNone VNone VNone VNone
                                 VNone))
    (init default_precision).

(** One amount [-12.50], tax rate [0] *)
Definition negative_zero_rate_doc : SimpleInvoice :=
  set_item_tax_rate (Some (RateInt 0))
    (add_item (sample_item (Dec.triple true 1250 (-2)))
              (init default_precision)).

(** One amount [12.50], no tax rate *)
Definition untaxed_doc : SimpleInvoice :=
  add_item (sample_item (dec 1250 (-2))) (init default_precision).

(** An invoice due on 2 January 999 *)
Definition early_due_date : InvoiceInfo :=
  mkInvoiceInfo VNone VNone (VDate (mkDate 999 1 2)).

(* ================================================================== *)
(** * Proof tactics                                                   *)
(* ================================================================== *)

Ltac ctx := cbv [Dec.Etop Dec.Emax Dec.prec Dec.Etiny Dec.Emin] in *.

Ltac brefl := repeat match goal with
  | H : (_ <? _) = true |- _ => apply Z.ltb_lt in H
  | H : (_ <? _) = false |- _ => apply Z.ltb_ge in H
  | H : (_ <=? _) = true |- _ => apply Z.leb_le in H
  | H : (_ <=? _) = false |- _ => apply Z.leb_gt in H
  | H : (_ =? _) = true |- _ => apply Z.eqb_eq in H
  | H : (_ =? _) = false |- _ => apply Z.eqb_neq in H
  end.

Ltac case_if :=
  match goal with
  | |- context [if ?b then _ else _] => destruct b eqn:?; brefl
  end.

(* ================================================================== *)
(** * Decimal digits and powers of ten                                *)
(* ================================================================== *)

Module DecFacts.
Import Dec.

Lemma pow10_pos (k : Z) : 0 <= k -> 0 < 10 ^ k.
Proof. intros; apply Z.pow_pos_nonneg; lia. Qed.

Lemma pow10_succ (k : Z) : 0 <= k -> 10 ^ (k + 1) = 10 * 10 ^ k.
Proof. intros; rewrite Z.pow_add_r by lia; lia. Qed.

Lemma pow10_le (a b : Z) : 0 <= a <= b -> 10 ^ a <= 10 ^ b.
Proof. intros; apply Z.pow_le_mono_r; lia. Qed.

Lemma pow10_lt (a b : Z) : 0 <= a < b -> 10 ^ a < 10 ^ b.
Proof. intros; apply Z.pow_lt_mono_r; lia. Qed.

Lemma pow10_split (a b : Z) : 0 <= b <= a -> 10 ^ a = 10 ^ (a - b) * 10 ^ b.
Proof. intros; rewrite <- Z.pow_add_r by lia; f_equal; lia. Qed.

Lemma ndigits_aux_spec (fuel : nat) :
  forall c, 1 <= c < 2 ^ (Z.of_nat fuel + 1) ->
    1 <= ndigits_aux fuel c /\
    10 ^ (ndigits_aux fuel c - 1) <= c < 10 ^ ndigits_aux fuel c.
Proof.
  induction fuel as [|f IH]; intros c Hc.
  - change (2 ^ (Z.of_nat 0 + 1)) with 2 in Hc. simpl.
    change (10 ^ (1 - 1)) with 1. change (10 ^ 1) with 10. lia.
  - cbn [ndigits_aux]. destruct (Z.ltb_spec c 10) as [Hlt|Hge].
    + change (10 ^ (1 - 1)) with 1. change (10 ^ 1) with 10. lia.
    + assert (Hq : 1 <= c / 10 < 2 ^ (Z.of_nat f + 1)).
      { split.
        - apply Z.div_le_lower_bound; lia.
        - apply Z.div_lt_upper_bound; [lia|].
          replace (Z.of_nat (S f) + 1) with (Z.of_nat f + 1 + 1) in Hc by lia.
          rewrite (Z.pow_add_r 2 (Z.of_nat f + 1) 1) in Hc by lia.
          change (2 ^ 1) with 2 in Hc. lia. }
      destruct (IH _ Hq) as [H1 [H2 H3]].
      set (r := ndigits_aux f (c / 10)) in *.
      pose proof (Z.div_mod c 10 ltac:(lia)) as Hdm.
      pose proof (Z.mod_pos_bound c 10 ltac:(lia)) as Hm.
      replace (1 + r - 1) with (r - 1 + 1) by lia.
      replace (1 + r) with (r + 1) by lia.
      rewrite !pow10_succ by lia. lia.
Qed.

(** The digit count brackets a positive coefficient between two powers
    of ten. *)
Lemma ndigits_spec (c : Z) :
  1 <= c -> 1 <= ndigits c /\ 10 ^ (ndigits c - 1) <= c < 10 ^ ndigits c.
Proof.
  intros Hc. unfold ndigits. apply ndigits_aux_spec.
  rewrite Z2Nat.id by apply Z.log2_nonneg.
  pose proof (Z.log2_spec c ltac:(lia)) as H.
  replace (Z.log2 c + 1) with (Z.succ (Z.log2 c)) by lia. lia.
Qed.

Lemma ndigits_small (c : Z) : c < 10 -> ndigits c = 1.
Proof.
  intros Hc. unfold ndigits.
  destruct (Z.to_nat (Z.log2 c)); cbn [ndigits_aux]; [reflexivity|].
  destruct (Z.ltb_spec c 10); [reflexivity | lia].
Qed.

Lemma ndigits_pos (c : Z) : 1 <= ndigits c.
Proof.
  destruct (Z_lt_le_dec c 1) as [H|H].
  - rewrite ndigits_small by lia. lia.
  - apply ndigits_spec; assumption.
Qed.

(** The bracket determines the digit count. *)
Lemma ndigits_unique (c d : Z) :
  1 <= d -> 10 ^ (d - 1) <= c < 10 ^ d -> ndigits c = d.
Proof.
  intros Hd [Hlo Hhi].
  assert (Hc : 1 <= c) by (pose proof (pow10_pos (d - 1)); lia).
  destruct (ndigits_spec c Hc) as [Hn [Hnlo Hnhi]].
  destruct (Z.lt_trichotomy (ndigits c) d) as [H|[H|H]]; [|assumption|].
  - pose proof (pow10_le (ndigits c) (d - 1)). lia.
  - pose proof (pow10_le d (ndigits c - 1)). lia.
Qed.

Lemma ndigits_pow10 (c j : Z) :
  1 <= c -> 0 <= j -> ndigits (c * 10 ^ j) = ndigits c + j.
Proof.
  intros Hc Hj. destruct (ndigits_spec c Hc) as [Hn [Hlo Hhi]].
  pose proof (pow10_pos j Hj) as Hp.
  apply ndigits_unique; [lia|].
  replace (ndigits c + j - 1) with (ndigits c - 1 + j) by lia.
  rewrite !Z.pow_add_r by lia. nia.
Qed.

Lemma ndigits_le_iff (c d : Z) : 1 <= c -> 0 <= d -> (ndigits c <= d <-> c < 10 ^ d).
Proof.
  intros Hc Hd. destruct (ndigits_spec c Hc) as [Hn [Hlo Hhi]]. split; intros H.
  - pose proof (pow10_le (ndigits c) d). lia.
  - destruct (Z_le_gt_dec (ndigits c) d); [assumption|].
    pose proof (pow10_le d (ndigits c - 1)). lia.
Qed.

Lemma coeffZ_nonneg d : 0 <= coeffZ d.
Proof. unfold coeffZ; lia. Qed.

Lemma coeffZ_triple s c e : 0 <= c -> coeffZ (triple s c e) = c.
Proof. intros; unfold coeffZ, triple; simpl; lia. Qed.

Lemma triple_eta d : triple (dsign d) (coeffZ d) (dexp d) = d.
Proof. destruct d; unfold triple, coeffZ; simpl. f_equal. lia. Qed.

Lemma is_zero_false d : is_zero d = false <-> 1 <= coeffZ d.
Proof.
  unfold is_zero. pose proof (coeffZ_nonneg d).
  destruct (Z.eqb_spec (coeffZ d) 0); split; intros;
    try lia; try discriminate; reflexivity.
Qed.

Lemma is_zero_true d : is_zero d = true <-> coeffZ d = 0.
Proof. unfold is_zero. apply Z.eqb_eq. Qed.

Lemma round_coeff_nonneg r c k : 0 <= c -> 0 <= k -> 0 <= round_coeff r c k.
Proof.
  intros Hc Hk. unfold round_coeff.
  pose proof (pow10_pos k Hk).
  pose proof (Z.div_pos c (10 ^ k) Hc ltac:(lia)).
  destruct (rounds_up r c k); lia.
Qed.

(** Dropping [k] digits loses at most [k] digits of length, up to the carry. *)
Lemma round_coeff_bound r c k d :
  0 <= c -> 0 <= k -> 0 <= d -> c < 10 ^ (d + k) -> round_coeff r c k <= 10 ^ d.
Proof.
  intros Hc Hk Hd Hlt. unfold round_coeff.
  pose proof (pow10_pos k Hk).
  assert (c / 10 ^ k < 10 ^ d).
  { apply Z.div_lt_upper_bound; [lia|]. rewrite Z.pow_add_r in Hlt by lia. lia. }
  destruct (rounds_up r c k); lia.
Qed.

Lemma ndigits_le_pow c d : 0 <= d -> c <= 10 ^ d -> ndigits c <= d + 1.
Proof.
  intros Hd Hc. destruct (Z_lt_le_dec c 1).
  - rewrite ndigits_small by lia. lia.
  - apply ndigits_le_iff; [lia|lia|]. rewrite pow10_succ by lia.
    pose proof (pow10_pos d Hd). lia.
Qed.

Lemma fix_small d :
  ndigits (coeffZ d) <= prec -> Etiny <= dexp d ->
  (is_zero d = true -> dexp d <= Emax) ->
  (is_zero d = false -> adjusted d <= Emax) ->
  _fix d = Some d.
Proof.
  intros Hn He Hz Hnz. unfold _fix.
  destruct (is_zero d) eqn:Z0.
  - specialize (Hz eq_refl). apply is_zero_true in Z0.
    f_equal. destruct d as [s c e]. unfold triple, coeffZ in *. simpl in *.
    ctx. f_equal; lia.
  - specialize (Hnz eq_refl). unfold adjusted in Hnz. cbv zeta. ctx.
    case_if; [exfalso; lia|]. case_if; [exfalso; lia|]. reflexivity.
Qed.

Lemma rescale_exp x e rd : dexp (_rescale x e rd) = e.
Proof. unfold _rescale. repeat case_if; reflexivity. Qed.

Lemma rescale_sign x e rd : dsign (_rescale x e rd) = dsign x.
Proof. unfold _rescale. repeat case_if; reflexivity. Qed.

Lemma quantize_Some x p rd r :
  quantize x p rd = Some r ->
  r = _rescale x (dexp p) rd /\ Etiny <= dexp p <= Emax /\
  ndigits (coeffZ r) <= prec /\ (is_zero r = false -> adjusted r <= Emax) /\
  (is_zero x = false -> adjusted x <= Emax /\ adjusted x - dexp p + 1 <= prec).
Proof.
  unfold quantize.
  destruct (Z.leb_spec Etiny (dexp p)); [|discriminate].
  destruct (Z.leb_spec (dexp p) Emax); [|discriminate]. cbn [andb negb].
  destruct (is_zero x) eqn:Zx.
  - intros Hq.
    assert (Hr : _rescale x (dexp p) rd = triple (dsign x) 0 (dexp p)).
    { unfold _rescale. rewrite Zx. reflexivity. }
    rewrite fix_small in Hq.
    + inversion Hq; subst r. rewrite Hr.
      repeat split; try lia; try discriminate.
    + rewrite coeffZ_triple by lia. rewrite ndigits_small; unfold prec; lia.
    + simpl; lia.
    + simpl; lia.
    + intros Hc. apply is_zero_false in Hc. rewrite coeffZ_triple in Hc; lia.
  - repeat (case_if; [discriminate|]).
    intros Hq. pose proof (rescale_exp x (dexp p) rd) as He.
    rewrite fix_small in Hq by lia.
    inversion Hq; subst r. repeat split; lia.
Qed.

(** A quantized value quantizes to itself. *)
Lemma quantize_fixpoint x p rd r :
  quantize x p rd = Some r -> quantize r p rd = Some r.
Proof.
  intros H. destruct (quantize_Some _ _ _ _ H) as (Hr & Hp & Hn & Ha & _).
  assert (He : dexp r = dexp p) by (rewrite Hr; apply rescale_exp).
  unfold quantize.
  destruct (Z.leb_spec Etiny (dexp p)); [|lia].
  destruct (Z.leb_spec (dexp p) Emax); [|lia]. cbn [andb negb].
  assert (Hfix : _fix r = Some r).
  { apply fix_small; try lia; assumption. }
  destruct (is_zero r) eqn:Zr.
  - assert (Hrr : triple (dsign r) 0 (dexp p) = r).
    { apply is_zero_true in Zr. rewrite <- He.
      destruct r; unfold triple, coeffZ in *; simpl in *. f_equal; lia. }
    rewrite Hrr. assumption.
  - specialize (Ha eq_refl).
    assert (Hres : _rescale r (dexp p) rd = r).
    { unfold _rescale. rewrite Zr. rewrite <- He.
      rewrite Z.leb_refl, Z.sub_diag, Z.mul_1_r. apply triple_eta. }
    rewrite Hres.
    repeat case_if; try assumption; exfalso; unfold adjusted in *; lia.
Qed.

Lemma signedZ_triple s c e : 0 <= c -> signedZ (triple s c e) = if s then - c else c.
Proof. intros. unfold signedZ. rewrite coeffZ_triple by lia. reflexivity. Qed.

Lemma rescale_half_up_in_units x e :
  nearest_in_units x (_rescale x e ROUND_HALF_UP) e.
Proof.
  unfold nearest_in_units. cbv zeta. split; [apply rescale_exp|].
  pose proof (coeffZ_nonneg x) as Hc.
  unfold _rescale, aligned. destruct (is_zero x) eqn:Zx.
  - apply is_zero_true in Zx. cbn [dexp triple]. rewrite signedZ_triple by lia.
    unfold signedZ. rewrite Zx.
    assert (0 < 10 ^ (e - Z.min (dexp x) e)) by (apply pow10_pos; lia).
    destruct (dsign x); simpl; lia.
  - apply is_zero_false in Zx. destruct (Z.leb_spec e (dexp x)) as [Hle|Hgt].
    + rewrite Z.min_r by lia. cbn [dexp triple].
      assert (0 < 10 ^ (dexp x - e)) by (apply pow10_pos; lia).
      rewrite signedZ_triple by nia. rewrite Z.sub_diag. change (10 ^ 0) with 1.
      unfold signedZ. destruct (dsign x); lia.
    + rewrite Z.min_l by lia. cbn [dexp triple].
      set (k := e - dexp x). assert (Hk : 0 < k) by lia.
      pose proof (pow10_pos k ltac:(lia)) as Hp.
      rewrite signedZ_triple by (apply round_coeff_nonneg; lia).
      rewrite Z.sub_diag. change (10 ^ 0) with 1.
      unfold round_coeff, rounds_up, signedZ.
      pose proof (Z.div_mod (coeffZ x) (10 ^ k) ltac:(lia)) as Hdm.
      pose proof (Z.mod_pos_bound (coeffZ x) (10 ^ k) Hp) as Hm.
      set (q := coeffZ x / 10 ^ k) in *. set (rem := coeffZ x mod 10 ^ k) in *.
      destruct (Z.leb_spec (10 ^ k) (2 * rem)); destruct (dsign x); nia.
Qed.

Lemma pow10Q_pos e : (0 < pow10Q e)%Q.
Proof. unfold pow10Q. apply Qpower_0_lt. reflexivity. Qed.

Lemma pow10Q_split a b : (pow10Q (a + b) == pow10Q a * pow10Q b)%Q.
Proof. unfold pow10Q. apply Qpower_plus. discriminate. Qed.

Lemma pow10Q_nonneg_Z k : 0 <= k -> (pow10Q k == inject_Z (10 ^ k))%Q.
Proof. intros. unfold pow10Q. symmetry. apply Zpower_Qpower. assumption. Qed.

Lemma Qabs_inject_Z z : Qabs (inject_Z z) = inject_Z (Z.abs z).
Proof. reflexivity. Qed.

(** [aligned m d] is the value of [d] in units of [10^m]. *)
Lemma to_Q_aligned m d :
  m <= dexp d -> (to_Q d == inject_Z (aligned m d) * pow10Q m)%Q.
Proof.
  intros Hm. unfold to_Q, aligned. fold (pow10Q (dexp d)).
  replace (dexp d) with ((dexp d - m) + m) at 1 by lia.
  rewrite pow10Q_split, (pow10Q_nonneg_Z (dexp d - m)) by lia.
  rewrite inject_Z_mult. ring.
Qed.

(** Counting in units of [10^m] decides the distances between the
    numbers themselves. *)
Lemma nearest_in_units_half_up x r e :
  nearest_in_units x r e -> nearest_half_up x r e.
Proof.
  unfold nearest_in_units, nearest_half_up. cbv zeta.
  fold (pow10Q e). set (m := Z.min (dexp x) e).
  intros (He & Hle & Htie). split; [exact He|].
  assert (Hr : (to_Q r == inject_Z (aligned m r) * pow10Q m)%Q)
    by (apply to_Q_aligned; lia).
  assert (Hx : (to_Q x == inject_Z (aligned m x) * pow10Q m)%Q)
    by (apply to_Q_aligned; lia).
  assert (Hu : (pow10Q e == inject_Z (10 ^ (e - m)) * pow10Q m)%Q).
  { replace e with ((e - m) + m) at 1 by lia.
    rewrite pow10Q_split, (pow10Q_nonneg_Z (e - m)) by lia. reflexivity. }
  pose proof (pow10Q_pos m) as Hpos.
  set (ar := aligned m r) in *. set (ax := aligned m x) in *.
  set (u := 10 ^ (e - m)) in *.
  assert (Hd : (Qabs (to_Q r - to_Q x) == inject_Z (Z.abs (ar - ax)) * pow10Q m)%Q).
  { rewrite Hr, Hx.
    setoid_replace (inject_Z ar * pow10Q m - inject_Z ax * pow10Q m)%Q
      with (inject_Z (ar - ax) * pow10Q m)%Q
      by (unfold Z.sub; rewrite inject_Z_plus, inject_Z_opp; ring).
    rewrite Qabs_Qmult, (Qabs_pos (pow10Q m)) by (apply Qlt_le_weak; exact Hpos).
    rewrite Qabs_inject_Z. reflexivity. }
  split.
  - rewrite Hd, Hu.
    setoid_replace ((1 # 2) * (inject_Z u * pow10Q m))%Q
      with (((1 # 2) * inject_Z u) * pow10Q m)%Q by ring.
    apply Qmult_le_compat_r; [|apply Qlt_le_weak; exact Hpos].
    unfold Qle, Qmult, inject_Z; cbn [Qnum Qden Pos.mul].
    rewrite Z.mul_1_l. lia.
  - intros Heq. rewrite Hd, Hu in Heq.
    setoid_replace ((1 # 2) * (inject_Z u * pow10Q m))%Q
      with (((1 # 2) * inject_Z u) * pow10Q m)%Q in Heq by ring.
    apply Qmult_inj_r in Heq; [|intros H0; rewrite H0 in Hpos; discriminate].
    assert (Hz : 2 * Z.abs (ar - ax) = u).
    { unfold Qeq, Qmult, inject_Z in Heq; cbn [Qnum Qden Pos.mul] in Heq.
      rewrite Z.mul_1_l in Heq. lia. }
    specialize (Htie Hz).
    rewrite Hr, Hx, !Qabs_Qmult, (Qabs_pos (pow10Q m))
      by (apply Qlt_le_weak; exact Hpos).
    apply Qmult_lt_compat_r; [exact Hpos|].
    rewrite !Qabs_inject_Z. rewrite <- Zlt_Qlt. exact Htie.
Qed.

Lemma rescale_half_up_nearest x e :
  nearest_half_up x (_rescale x e ROUND_HALF_UP) e.
Proof. apply nearest_in_units_half_up, rescale_half_up_in_units. Qed.

(** A decimal is a multiple of ten to its exponent. *)
Lemma multiple_of_unit r : multiple_of r (triple false 1 (dexp r)).
Proof.
  exists (signedZ r). unfold to_Q. cbn [dexp triple].
  change (signedZ (triple false 1 (dexp r))) with 1. ring.
Qed.

Lemma quantize_succeeds x p rd :
  Etiny <= dexp p <= Emax ->
  (is_zero x = false -> adjusted x < Emax /\ adjusted x - dexp p + 1 < prec) ->
  quantize x p rd = Some (_rescale x (dexp p) rd).
Proof.
  intros Hp Hx. unfold quantize.
  destruct (Z.leb_spec Etiny (dexp p)); [|lia].
  destruct (Z.leb_spec (dexp p) Emax); [|lia]. cbn [andb negb].
  destruct (is_zero x) eqn:Zx.
  - unfold _rescale. rewrite Zx. apply fix_small; cbn [dexp triple]; try lia.
    + rewrite coeffZ_triple by lia. rewrite ndigits_small; unfold prec; lia.
    + intros Hc. apply is_zero_false in Hc. rewrite coeffZ_triple in Hc; lia.
  - destruct (Hx eq_refl) as [Ha Hd]. apply is_zero_false in Zx.
    assert (Hres : ndigits (coeffZ (_rescale x (dexp p) rd)) <= prec /\
                   adjusted (_rescale x (dexp p) rd) <= Emax).
    { unfold adjusted in *. rewrite rescale_exp. unfold _rescale.
      destruct (is_zero x) eqn:Zx'; [apply is_zero_true in Zx'; lia|].
      destruct (Z.leb_spec (dexp p) (dexp x)).
      - pose proof (pow10_pos (dexp x - dexp p) ltac:(lia)).
        rewrite coeffZ_triple by nia. rewrite ndigits_pow10 by lia. lia.
      - rewrite coeffZ_triple by (apply round_coeff_nonneg; lia).
        set (k := dexp p - dexp x) in *.
        destruct (ndigits_spec _ Zx) as (Hn1 & _ & Hn2).
        set (len := ndigits (coeffZ x)) in *.
        destruct (Z_le_gt_dec k len).
        + pose proof (round_coeff_bound rd (coeffZ x) k (len - k)
                        ltac:(lia) ltac:(lia) ltac:(lia)) as Hb.
          replace (len - k + k) with len in Hb by lia. specialize (Hb Hn2).
          pose proof (ndigits_le_pow _ (len - k) ltac:(lia) Hb). lia.
        + pose proof (round_coeff_bound rd (coeffZ x) k 0
                        ltac:(lia) ltac:(lia) ltac:(lia)) as Hb.
          assert (Hlt : coeffZ x < 10 ^ (0 + k)).
          { pose proof (pow10_le len (0 + k)). lia. }
          specialize (Hb Hlt).
          pose proof (ndigits_le_pow _ 0 ltac:(lia) Hb). ctx. lia. }
    destruct Hres as [Hn Hadj].
    repeat case_if; try (exfalso; lia).
    apply fix_small; try lia; rewrite rescale_exp; lia.
Qed.

Lemma fix_sign d r : _fix d = Some r -> dsign r = dsign d.
Proof.
  unfold _fix. repeat case_if; intros H; inversion H; reflexivity.
Qed.

Lemma fixed_zero s e : Etiny <= e <= Emax -> fixed (triple s 0 e).
Proof.
  intros He. unfold fixed. cbn [dexp triple]. rewrite coeffZ_triple by lia.
  rewrite ndigits_small by lia. unfold is_zero. rewrite coeffZ_triple by lia.
  ctx. repeat split; try lia; try discriminate.
Qed.

Lemma div_pow10_bound c k len :
  0 <= c < 10 ^ len -> 0 <= k -> 0 <= len -> c / 10 ^ k < 10 ^ Z.max (len - k) 0.
Proof.
  intros Hc Hk Hl. pose proof (pow10_pos k Hk).
  apply Z.div_lt_upper_bound; [lia|].
  rewrite <- Z.pow_add_r by lia.
  pose proof (pow10_le len (k + Z.max (len - k) 0)). lia.
Qed.

(** What [_fix] returns is within the context's limits. *)
Lemma fix_fixed d r : _fix d = Some r -> fixed r.
Proof.
  unfold _fix. destruct (is_zero d) eqn:Zd.
  - intros H; inversion H. apply fixed_zero. ctx. lia.
  - apply is_zero_false in Zd. destruct (ndigits_spec _ Zd) as (Hn1 & _ & Hn2).
    cbv zeta. set (len := ndigits (coeffZ d)) in *.
    case_if; [discriminate|].
    set (exp_min := Z.max (len + dexp d - prec) Etiny).
    case_if.
    + set (k := exp_min - dexp d). assert (Hk : 0 < k) by lia.
      pose proof (pow10_pos k ltac:(lia)) as Hp.
      pose proof (div_pow10_bound (coeffZ d) k len
                    ltac:(lia) ltac:(lia) ltac:(lia)) as Hq.
      pose proof (Z.div_pos (coeffZ d) (10 ^ k) ltac:(lia) Hp) as Hq0.
      set (q := coeffZ d / 10 ^ k) in *.
      assert (Hd : Z.max (len - k) 0 <= prec) by (unfold k, exp_min; ctx; lia).
      assert (Hq' : q < 10 ^ prec).
      { pose proof (pow10_le (Z.max (len - k) 0) prec). lia. }
      assert (Hem : Etiny <= exp_min <= Etop) by (unfold exp_min; ctx; lia).
      destruct (rounds_up ROUND_HALF_EVEN (coeffZ d) k).
      * case_if.
        -- case_if; [discriminate|]. intros H; inversion H.
           assert (Heq : q + 1 = 10 ^ prec).
           { destruct (Z_lt_le_dec (q + 1) (10 ^ prec)) as [Hlt|Hge]; [|lia].
             apply ndigits_le_iff in Hlt; ctx; lia. }
           rewrite Heq. change (10 ^ prec / 10) with (10 ^ 27).
           unfold fixed, adjusted, is_zero. cbn [dexp triple].
           rewrite coeffZ_triple by (vm_compute; discriminate).
           rewrite (ndigits_unique (10 ^ 27) 28)
             by (first [lia | vm_compute; split; [discriminate|reflexivity]]).
           ctx. repeat split; try lia; try discriminate.
        -- intros H; inversion H.
           unfold fixed, adjusted, is_zero. cbn [dexp triple].
           rewrite coeffZ_triple by lia. ctx. repeat split; try lia.
      * intros H; inversion H.
        unfold fixed, adjusted, is_zero. cbn [dexp triple].
        rewrite coeffZ_triple by lia.
        assert (ndigits q <= prec).
        { destruct (Z_lt_le_dec q 1).
          - rewrite ndigits_small by lia. ctx; lia.
          - apply ndigits_le_iff; ctx; lia. }
        ctx. repeat split; try lia.
    + intros H; inversion H; subst r.
      unfold fixed, adjusted. fold len. unfold exp_min in *. ctx.
      repeat split; lia.
Qed.

(** Trailing zeros that are all dropped never round up. *)
Lemma rounds_up_exact rd c j k :
  0 <= c -> 0 <= k <= j -> rounds_up rd (c * 10 ^ j) k = false.
Proof.
  intros Hc Hk. pose proof (pow10_pos k ltac:(lia)) as Hp.
  unfold rounds_up.
  rewrite (pow10_split j k) by lia. rewrite Z.mul_assoc.
  rewrite Z.mod_mul by lia.
  destruct rd; repeat case_if; cbn [orb andb]; try lia; reflexivity.
Qed.

Lemma div_exact c j k :
  0 <= k <= j -> c * 10 ^ j / 10 ^ k = c * 10 ^ (j - k).
Proof.
  intros Hk. pose proof (pow10_pos k ltac:(lia)) as Hp.
  rewrite (pow10_split j k) by lia. rewrite Z.mul_assoc.
  apply Z.div_mul. lia.
Qed.

Lemma round_coeff_exact rd c j k :
  0 <= c -> 0 <= k <= j -> round_coeff rd (c * 10 ^ j) k = c * 10 ^ (j - k).
Proof.
  intros Hc Hk. unfold round_coeff.
  rewrite rounds_up_exact by lia. apply div_exact; lia.
Qed.

(** Trailing zeros below the rounding position do not move it. *)
Lemma round_coeff_pad rd c j k :
  0 <= c -> 0 <= j -> 0 < k -> round_coeff rd (c * 10 ^ j) (k + j) = round_coeff rd c k.
Proof.
  intros Hc Hj Hk. pose proof (pow10_pos k ltac:(lia)) as Hp.
  pose proof (pow10_pos j ltac:(lia)) as Hp'.
  unfold round_coeff, rounds_up.
  rewrite (Z.pow_add_r 10 k j) by lia.
  rewrite Z.div_mul_cancel_r, Z.mul_mod_distr_r by lia.
  set (q := c / 10 ^ k). set (rem := c mod 10 ^ k).
  assert (E1 : (10 ^ k * 10 ^ j <=? 2 * (rem * 10 ^ j)) = (10 ^ k <=? 2 * rem)).
  { destruct (Z.leb_spec (10 ^ k) (2 * rem));
      destruct (Z.leb_spec (10 ^ k * 10 ^ j) (2 * (rem * 10 ^ j)));
      try reflexivity; nia. }
  assert (E2 : (10 ^ k * 10 ^ j <? 2 * (rem * 10 ^ j)) = (10 ^ k <? 2 * rem)).
  { destruct (Z.ltb_spec (10 ^ k) (2 * rem));
      destruct (Z.ltb_spec (10 ^ k * 10 ^ j) (2 * (rem * 10 ^ j)));
      try reflexivity; nia. }
  assert (E3 : (10 ^ k * 10 ^ j =? 2 * (rem * 10 ^ j)) = (10 ^ k =? 2 * rem)).
  { destruct (Z.eqb_spec (10 ^ k) (2 * rem));
      destruct (Z.eqb_spec (10 ^ k * 10 ^ j) (2 * (rem * 10 ^ j)));
      try reflexivity; nia. }
  destruct rd; rewrite ?E1, ?E2, ?E3; reflexivity.
Qed.

Lemma is_zero_triple s c e : 1 <= c -> is_zero (triple s c e) = false.
Proof. intros. apply is_zero_false. rewrite coeffZ_triple; lia. Qed.

Lemma rescale_pad s c e j t rd :
  1 <= c -> 0 <= j ->
  _rescale (triple s (c * 10 ^ j) (e - j)) t rd = _rescale (triple s c e) t rd.
Proof.
  intros Hc Hj. pose proof (pow10_pos j Hj) as Hp.
  unfold _rescale. rewrite !is_zero_triple by nia. cbn [dexp dsign triple].
  rewrite !coeffZ_triple by nia.
  destruct (Z.leb_spec t (e - j)); destruct (Z.leb_spec t e); try lia.
  - f_equal. rewrite <- Z.mul_assoc, <- Z.pow_add_r by lia. do 2 f_equal. lia.
  - f_equal. rewrite round_coeff_exact by lia. do 2 f_equal. lia.
  - f_equal. replace (t - (e - j)) with (t - e + j) by lia.
    apply round_coeff_pad; lia.
Qed.

Lemma adjusted_pad s c e j :
  1 <= c -> 0 <= j -> adjusted (triple s (c * 10 ^ j) (e - j)) = adjusted (triple s c e).
Proof.
  intros Hc Hj. pose proof (pow10_pos j Hj) as Hp. unfold adjusted.
  cbn [dexp triple]. rewrite !coeffZ_triple by nia. rewrite ndigits_pow10 by lia. lia.
Qed.

(** [quantize] sees the number, not how many zeros its coefficient ends in. *)
Lemma quantize_pad s c e j p rd :
  1 <= c -> 0 <= j ->
  quantize (triple s (c * 10 ^ j) (e - j)) p rd = quantize (triple s c e) p rd.
Proof.
  intros Hc Hj. pose proof (pow10_pos j Hj) as Hp. unfold quantize.
  rewrite !is_zero_triple by nia. rewrite adjusted_pad, rescale_pad by lia.
  reflexivity.
Qed.

Lemma fix_pad s c e j :
  1 <= c -> 0 <= j -> fixed (triple s c e) ->
  exists j', 0 <= j' /\
    _fix (triple s (c * 10 ^ j) (e - j)) = Some (triple s (c * 10 ^ j') (e - j')).
Proof.
  intros Hc Hj (Hn & He & _ & Ha). pose proof (pow10_pos j Hj) as Hp.
  specialize (Ha (is_zero_triple s c e Hc)). unfold adjusted in Ha.
  cbn [dexp triple] in *. rewrite coeffZ_triple in * by lia.
  unfold _fix. rewrite is_zero_triple by nia. cbn [dexp dsign triple].
  rewrite !coeffZ_triple by nia. rewrite ndigits_pow10 by lia.
  cbv zeta. case_if; [exfalso; ctx; lia|].
  set (exp_min := Z.max (ndigits c + j + (e - j) - prec) Etiny).
  assert (Hem : exp_min <= e) by (unfold exp_min; ctx; lia).
  case_if.
  - exists (e - exp_min). split; [lia|].
    rewrite rounds_up_exact, div_exact by lia.
    replace (j - (exp_min - (e - j))) with (e - exp_min) by lia.
    replace (e - (e - exp_min)) with exp_min by lia. reflexivity.
  - exists j. split; [lia|]. reflexivity.
Qed.

Lemma signedZ_abs d : Z.abs (signedZ d) = coeffZ d.
Proof. unfold signedZ. pose proof (coeffZ_nonneg d). destruct (dsign d); lia. Qed.

Lemma fix_zero s e :
  _fix (triple s 0 e) = Some (triple s 0 (Z.min (Z.max e Etiny) Emax)).
Proof. reflexivity. Qed.

Lemma quantize_zero s e p rd :
  quantize (triple s 0 e) p rd
  = if negb ((Etiny <=? dexp p) && (dexp p <=? Emax)) then None
    else _fix (triple s 0 (dexp p)).
Proof. reflexivity. Qed.

Lemma add_zero_quantize x p rd :
  fixed x -> dsign x = false \/ is_zero x = false ->
  exists t, add x (of_int 0) = Some t /\ quantize t p rd = quantize x p rd.
Proof.
  intros Hf Hs.
  set (m := Z.min (dexp x) 0).
  assert (Ha0 : aligned m (of_int 0) = 0) by (unfold aligned; reflexivity).
  pose proof (pow10_pos (dexp x - m) ltac:(lia)) as Hp.
  pose proof (coeffZ_nonneg x) as Hc.
  destruct (is_zero x) eqn:Zx.
  - destruct Hs as [Hs|Hs]; [|discriminate].
    pose proof Zx as Zx'. apply is_zero_true in Zx'.
    assert (Hv : aligned m x = 0)
      by (unfold aligned, signedZ; rewrite Zx'; destruct (dsign x); lia).
    unfold add. change (dexp (of_int 0)) with 0. fold m.
    rewrite Ha0, Z.add_0_r, Hv, Hs, Zx. cbn [Z.eqb Z.abs andb].
    change (is_zero (of_int 0) && false && dsign (of_int 0)) with false.
    rewrite fix_zero. eexists; split; [reflexivity|].
    rewrite quantize_zero. unfold quantize. rewrite Zx, Hs. reflexivity.
  - pose proof Zx as Zx'. apply is_zero_false in Zx'.
    assert (Hv : Z.abs (aligned m x) = coeffZ x * 10 ^ (dexp x - m)).
    { unfold aligned. rewrite Z.abs_mul, signedZ_abs.
      rewrite (Z.abs_eq (10 ^ _)); lia. }
    assert (Hsg : (if aligned m x =? 0
                   then is_zero x && is_zero (of_int 0) && dsign x
                        && dsign (of_int 0)
                   else aligned m x <? 0) = dsign x).
    { unfold aligned, signedZ.
      destruct (dsign x); repeat case_if; try reflexivity; nia. }
    unfold add. change (dexp (of_int 0)) with 0. fold m.
    rewrite Ha0, Z.add_0_r, Hsg, Hv.
    replace (triple (dsign x) (coeffZ x * 10 ^ (dexp x - m)) m)
      with (triple (dsign x) (coeffZ x * 10 ^ (dexp x - m))
                   (dexp x - (dexp x - m))) by (f_equal; lia).
    rewrite <- (triple_eta x) in Hf.
    destruct (fix_pad (dsign x) (coeffZ x) (dexp x) (dexp x - m) Zx'
                ltac:(lia) Hf) as (j' & Hj' & Hfix).
    rewrite Hfix. eexists; split; [reflexivity|].
    rewrite quantize_pad by lia. rewrite triple_eta. reflexivity.
Qed.

(** Adding a non-negative amount to a non-negative total never yields a
    negative sign, not even on a zero. *)
Lemma add_sign_nonneg a b r :
  dsign a = false -> nonneg b = true -> add a b = Some r -> dsign r = false.
Proof.
  intros Ha Hb H. unfold add in H. apply fix_sign in H. rewrite H.
  cbn [dsign triple]. set (m := Z.min (dexp a) (dexp b)).
  pose proof (pow10_pos (dexp a - m) ltac:(lia)).
  pose proof (pow10_pos (dexp b - m) ltac:(lia)).
  pose proof (coeffZ_nonneg a). pose proof (coeffZ_nonneg b).
  assert (0 <= aligned m a) by (unfold aligned, signedZ; rewrite Ha; nia).
  assert (0 <= aligned m b).
  { unfold aligned, signedZ. unfold nonneg in Hb.
    destruct (dsign b); cbn [negb orb] in Hb;
      [apply is_zero_true in Hb; rewrite Hb|]; nia. }
  rewrite Ha. case_if; [rewrite !andb_false_r; reflexivity|].
  apply Z.ltb_ge. lia.
Qed.

Lemma add_fixed a b r : add a b = Some r -> fixed r.
Proof. apply fix_fixed. Qed.

Lemma mul_by_zero x :
  exists t, mul x (triple false 0 0) = Some t /\ is_zero t = true /\ dsign t = dsign x.
Proof.
  unfold mul. change (coeffZ (triple false 0 0)) with 0. rewrite Z.mul_0_r.
  rewrite fix_zero.
  eexists; split; [reflexivity|]. split; [reflexivity|].
  cbn [dsign triple]. apply xorb_false_r.
Qed.

Lemma quantize_of_zero t p rd :
  is_zero t = true -> Etiny <= dexp p <= Emax ->
  quantize t p rd = Some (triple (dsign t) 0 (dexp p)).
Proof.
  intros Ht Hp. rewrite quantize_succeeds by (try lia; rewrite Ht; discriminate).
  unfold _rescale. rewrite Ht. reflexivity.
Qed.

End DecFacts.

(* ================================================================== *)
(** * The builders append their sections                              *)
(* ================================================================== *)

Lemma set_story_id self : set_story (_story self) self = self.
Proof. destruct self; reflexivity. Qed.

Section AttributeTable.
Context {T : Type} `{HasAttr T} (instance : T).

Lemma attribute_fold props :
  forall vals acc,
    attributes_found instance props vals ->
    fold_left (attribute_row instance) props (Some acc)
    = Some (acc ++ sparse_rows (combine (map snd props) vals)).
Proof.
  induction props as [|[property_name verbose_name] props IH];
    intros vals acc HF; inversion HF as [|p v ps vs Hget HF']; subst.
  - simpl. unfold sparse_rows; simpl. now rewrite app_nil_r.
  - cbn [fold_left map combine]. cbn [fst] in Hget.
    unfold attribute_row at 2. cbn [obind]. rewrite Hget. cbn [obind].
    unfold sparse_rows. cbn [filter snd fst].
    destruct (value_truthy v).
    + rewrite (IH vs _ HF'). cbn [map fst snd]. rewrite <- app_assoc.
      reflexivity.
    + apply (IH vs _ HF').
Qed.

Lemma attribute_table_sparse props vals :
  attributes_found instance props vals ->
  _attribute_to_table_data instance props
  = Some (sparse_rows (combine (map snd props) vals)).
Proof.
  intros HF. unfold _attribute_to_table_data.
  now rewrite (attribute_fold _ _ [] HF).
Qed.

End AttributeTable.

Lemma invoice_info_data_rows self :
  _invoice_info_data self = Some (invoice_info_rows self).
Proof.
  unfold _invoice_info_data, invoice_info_rows.
  destruct (invoice_info self) as [| | |i| |]; try reflexivity.
  apply (attribute_table_sparse i invoice_info_props
           [invoice_id i; invoice_datetime i; due_datetime i]).
  repeat constructor.
Qed.

Lemma service_provider_data_rows self :
  _service_provider_data self = Some (service_provider_rows self).
Proof.
  unfold _service_provider_data, service_provider_rows.
  destruct (service_provider_info self) as [| | | |i|]; try reflexivity.
  apply (attribute_table_sparse i service_provider_props
           [sp_name i; sp_street i; sp_city i; sp_state i; sp_country i;
            sp_post_code i; sp_vat_tax_number i]).
  repeat constructor.
Qed.

Lemma client_info_data_rows self :
  _client_info_data self = Some (client_rows self).
Proof.
  unfold _client_info_data, client_rows.
  destruct (client_info self) as [| | | | |i]; try reflexivity.
  apply (attribute_table_sparse i client_props
           [ci_name i; ci_street i; ci_city i; ci_state i; ci_country i;
            ci_post_code i; ci_email i; ci_client_id i]).
  repeat constructor.
Qed.

Lemma headed_table_appends heading style align rows self :
  match rows with
  | [] => ret tt
  | _ => story_append (Paragraph heading style) ;;;
         story_append (SimpleTable rows align)
  end self
  = Some (tt, set_story (_story self ++ headed_table heading style align rows) self).
Proof.
  destruct rows.
  - unfold ret, headed_table. now rewrite app_nil_r, set_story_id.
  - unfold bind, story_append, headed_table. cbn. now rewrite <- app_assoc.
Qed.

Lemma build_invoice_info_appends : appends _build_invoice_info invoice_info_blocks.
Proof.
  intros self. unfold _build_invoice_info, bind at 1, call, lift.
  rewrite invoice_info_data_rows. apply headed_table_appends.
Qed.

Lemma build_service_provider_info_appends :
  appends _build_service_provider_info
    (fun self => headed_table "Service Provider" RightHeading1 "RIGHT"
                              (service_provider_rows self)).
Proof.
  intros self. unfold _build_service_provider_info, bind at 1, call, lift.
  rewrite service_provider_data_rows. apply headed_table_appends.
Qed.

Lemma build_client_info_appends :
  appends _build_client_info
    (fun self => headed_table "Client" Heading1 "LEFT" (client_rows self)).
Proof.
  intros self. unfold _build_client_info, bind at 1, call, lift.
  rewrite client_info_data_rows. apply headed_table_appends.
Qed.

Lemma build_party_appends :
  appends _build_service_provider_and_client_info party_blocks.
Proof.
  intros self. unfold _build_service_provider_and_client_info, party_blocks.
  assert (Hsep : (_build_service_provider_info ;;; _build_client_info) self
                 = Some (tt, set_story (_story self ++ separate_party_blocks self) self)).
  { unfold bind. rewrite build_service_provider_info_appends.
    rewrite build_client_info_appends. cbn. unfold separate_party_blocks.
    now rewrite <- app_assoc. }
  destruct (service_provider_info self) eqn:Hs; try exact Hsep.
  destruct (client_info self) eqn:Hc; try exact Hsep.
  cbn [is_ServiceProviderInfo is_ClientInfo andb].
  unfold bind, call, lift. rewrite client_info_data_rows, service_provider_data_rows.
  unfold merged_table.
  destruct (pad_party_rows (service_provider_rows self) (client_rows self)).
  reflexivity.
Qed.

Lemma build_transactions_appends : appends _build_transactions transactions_blocks.
Proof.
  intros self. unfold _build_transactions, bind at 1, gets, transactions_blocks.
  destruct (_transactions_data self).
  - unfold ret. now rewrite app_nil_r, set_story_id.
  - unfold bind, story_append. cbn. now rewrite <- app_assoc.
Qed.

Lemma build_bottom_tip_appends : appends _build_bottom_tip bottom_tip_blocks.
Proof.
  intros self. unfold _build_bottom_tip, bind at 1, gets, bottom_tip_blocks.
  destruct (_bottom_tip self) as [text|].
  - destruct (String.eqb text "").
    + unfold ret. now rewrite app_nil_r, set_story_id.
    + unfold bind, gets, story_append. cbn. now rewrite <- app_assoc.
  - unfold ret. now rewrite app_nil_r, set_story_id.
Qed.

Lemma build_logo_eq self :
  _build_logo self
  = Some (tt, set_story (_story self ++ logo_blocks self) (with_aligned_logo self)).
Proof.
  unfold _build_logo, bind at 1, gets, logo_blocks, with_aligned_logo.
  destruct (_logo self).
  - reflexivity.
  - unfold ret. now rewrite app_nil_r, set_story_id.
Qed.

Ltac items_steps self item_subtotal pre :=
  cbn [precision _item_tax_rate set_story _story app fst snd]; pre;
  destruct (getroundeddecimal item_subtotal (precision self)); [|reflexivity];
  cbn [precision _item_tax_rate set_story _story app fst snd]; pre;
  destruct (_item_tax_rate self) as [rate|];
  [ destruct (Dec.div (rate_decimal rate) (Dec.of_int 100)) as [fraction|];
      [|reflexivity];
    destruct (Dec.mul item_subtotal fraction) as [tax_total|]; [|reflexivity];
    pre;
    destruct (getroundeddecimal tax_total (precision self)); [|reflexivity];
    destruct (Dec.add item_subtotal
                (if Dec.truthy tax_total then tax_total else Dec.of_int 0))
      as [total|]; [|reflexivity];
    pre;
    destruct (getroundeddecimal total (precision self)); reflexivity
  | destruct (Dec.add item_subtotal (Dec.of_int 0)) as [total|]; [|reflexivity];
    pre;
    destruct (getroundeddecimal total (precision self)); reflexivity ].

(** [_item_data_and_style] changes the document only by the heading it
    appends for a non-empty table. *)
Lemma item_data_and_style_eq self :
  _item_data_and_style self
  = match items_table self with
    | Some table =>
        Some (table,
              set_story (_story self ++
                         match fst table with
                         | [] => []
                         | _ => [Paragraph "Detail" Heading1]
                         end) self)
    | None => None
    end.
Proof.
  unfold items_table, _item_data_and_style, bind, call, lift, gets, ret,
    story_append.
  destruct (_item_raw_data_and_subtotal self) as [[item_data item_subtotal]|];
    [|reflexivity].
  destruct item_data as [|row item_data].
  - cbn. now rewrite app_nil_r, set_story_id.
  - items_steps self item_subtotal idtac.
Qed.

(** The items table reads the items, the tax rate and the precision. *)
Lemma items_table_frame a b :
  _items a = _items b -> _item_tax_rate a = _item_tax_rate b ->
  precision a = precision b -> items_table a = items_table b.
Proof.
  intros Hi Hr Hp.
  unfold items_table, _item_data_and_style, bind, call, lift, gets, ret,
    story_append, _item_raw_data_and_subtotal.
  rewrite Hi.
  destruct (fold_left item_step (_items b) (Some ([], Dec.of_int 0)))
    as [[item_data item_subtotal]|]; [|reflexivity].
  destruct item_data as [|row item_data]; [reflexivity|].
  items_steps b item_subtotal ltac:(rewrite ?Hp, ?Hr).
Qed.

Lemma build_items_eq self :
  _build_items self
  = match items_blocks self with
    | Some blocks => Some (tt, set_story (_story self ++ blocks) self)
    | None => None
    end.
Proof.
  unfold items_blocks, _build_items, bind.
  rewrite (item_data_and_style_eq self).
  destruct (items_table self) as [[item_data style]|]; [|reflexivity].
  cbn [option_map]. unfold items_table_blocks. cbn [fst snd].
  destruct item_data.
  - unfold ret. cbn. now rewrite !app_nil_r, set_story_id.
  - unfold story_append. cbn. now rewrite <- app_assoc.
Qed.

Lemma items_blocks_empty self : _items self = [] -> items_blocks self = Some [].
Proof.
  intros H. unfold items_blocks, items_table, _item_data_and_style, bind, call,
    lift, _item_raw_data_and_subtotal.
  rewrite H. reflexivity.
Qed.

Lemma set_story_set_story s1 s2 self :
  set_story s2 (set_story s1 self) = set_story s2 self.
Proof. reflexivity. Qed.

Lemma invoice_info_blocks_frame s self :
  invoice_info_blocks (set_story s (with_aligned_logo self))
  = invoice_info_blocks self.
Proof. unfold with_aligned_logo. destruct (_logo self); reflexivity. Qed.

Lemma party_blocks_frame s self :
  party_blocks (set_story s (with_aligned_logo self)) = party_blocks self.
Proof. unfold with_aligned_logo. destruct (_logo self); reflexivity. Qed.

Lemma items_blocks_frame s self :
  items_blocks (set_story s (with_aligned_logo self)) = items_blocks self.
Proof.
  unfold items_blocks. f_equal.
  apply items_table_frame; unfold with_aligned_logo;
    destruct (_logo self); reflexivity.
Qed.

Lemma transactions_blocks_frame s self :
  transactions_blocks (set_story s (with_aligned_logo self))
  = transactions_blocks self.
Proof. unfold with_aligned_logo. destruct (_logo self); reflexivity. Qed.

Lemma bottom_tip_blocks_frame s self :
  bottom_tip_blocks (set_story s (with_aligned_logo self))
  = bottom_tip_blocks self.
Proof. unfold with_aligned_logo. destruct (_logo self); reflexivity. Qed.

Lemma finish_eq self :
  finish self
  = match items_blocks self with
    | Some items =>
        Some (tt, with_paid_stamp
                    (set_story (_story self ++ sections self items)
                               (with_aligned_logo self)))
    | None => None
    end.
Proof.
  unfold finish, bind. rewrite build_logo_eq.
  rewrite build_invoice_info_appends, set_story_set_story,
    invoice_info_blocks_frame.
  rewrite build_party_appends, set_story_set_story, party_blocks_frame.
  rewrite build_items_eq, items_blocks_frame.
  destruct (items_blocks self) as [items|]; [|reflexivity].
  rewrite set_story_set_story.
  rewrite build_transactions_appends, set_story_set_story,
    transactions_blocks_frame.
  rewrite build_bottom_tip_appends, set_story_set_story,
    bottom_tip_blocks_frame.
  cbn [_story set_story]. unfold _build_paid_stamp, with_paid_stamp, sections.
  rewrite <- !app_assoc.
  match goal with |- context [is_paid ?s] => destruct (is_paid s) end;
    reflexivity.
Qed.

(* ================================================================== *)
(** * When [quantize] returns                                         *)
(* ================================================================== *)

Module DecExact.
Import Dec DecFacts.

Lemma round_coeff_lower rd c k : c / 10 ^ k <= round_coeff rd c k.
Proof. unfold round_coeff. destruct (rounds_up rd c k); lia. Qed.

(** The rescaled coefficient has at least the digits of the value that
    stand above the new exponent. *)
Lemma rescale_digits_lower x e rd :
  is_zero x = false ->
  adjusted x - e + 1 <= ndigits (coeffZ (_rescale x e rd)).
Proof.
  intros Hz. unfold _rescale. rewrite Hz.
  apply is_zero_false in Hz. unfold adjusted.
  destruct (Z.leb_spec e (dexp x)) as [Hle|Hgt].
  - pose proof (pow10_pos (dexp x - e) ltac:(lia)) as HP.
    rewrite coeffZ_triple by nia. rewrite ndigits_pow10 by lia. lia.
  - pose proof (round_coeff_nonneg rd (coeffZ x) (e - dexp x)
                  ltac:(lia) ltac:(lia)) as Hnn.
    rewrite coeffZ_triple by exact Hnn.
    set (k := e - dexp x). set (c := coeffZ x) in *.
    set (d := ndigits c - k).
    replace (dexp x + ndigits c - 1 - e + 1) with d by (unfold d, k; lia).
    pose proof (ndigits_pos (round_coeff rd c k)) as Hpos.
    destruct (Z.le_gt_cases d 1) as [Hd|Hd]; [lia|].
    destruct (ndigits_spec c Hz) as [_ [Hlow _]]. fold c in Hlow.
    assert (Hq : 10 ^ (d - 1) <= c / 10 ^ k).
    { apply Z.div_le_lower_bound; [apply pow10_pos; unfold k; lia|].
      rewrite <- Z.pow_add_r by (unfold k; lia).
      replace (k + (d - 1)) with (ndigits c - 1) by (unfold d; lia).
      exact Hlow. }
    pose proof (round_coeff_lower rd c k) as Hrc.
    pose proof (pow10_pos (d - 1) ltac:(lia)) as HP.
    destruct (Z.le_gt_cases d (ndigits (round_coeff rd c k))) as [H|H];
      [exact H|].
    assert (Hle : ndigits (round_coeff rd c k) <= d - 1) by lia.
    apply ndigits_le_iff in Hle; lia.
Qed.

Lemma rescale_zero x e rd :
  is_zero x = true -> _rescale x e rd = triple (dsign x) 0 e.
Proof. intros Hz. unfold _rescale. now rewrite Hz. Qed.

(** A result that fits is returned. *)
Lemma fits_quantize x p rd :
  Etiny <= dexp p <= Emax ->
  ndigits (coeffZ (_rescale x (dexp p) rd)) <= prec ->
  adjusted (_rescale x (dexp p) rd) <= Emax ->
  quantize x p rd = Some (_rescale x (dexp p) rd).
Proof.
  intros Hp Hd Ha. destruct (is_zero x) eqn:Hz.
  - rewrite (quantize_of_zero x p rd Hz Hp). now rewrite rescale_zero.
  - pose proof (rescale_digits_lower x (dexp p) rd Hz) as Hlow.
    assert (Hadj : adjusted x <= Emax).
    { unfold adjusted in Ha. rewrite rescale_exp in Ha.
      unfold adjusted in *. lia. }
    unfold quantize. rewrite Hz.
    replace ((Etiny <=? dexp p) && (dexp p <=? Emax)) with true
      by (symmetry; apply andb_true_intro; split; apply Z.leb_le; lia).
    cbn [negb].
    rewrite (proj2 (Z.ltb_ge Emax (adjusted x))) by exact Hadj.
    rewrite (proj2 (Z.ltb_ge prec (adjusted x - dexp p + 1))) by lia.
    cbv zeta.
    rewrite (proj2 (Z.ltb_ge Emax (adjusted (_rescale x (dexp p) rd))))
      by exact Ha.
    rewrite (proj2 (Z.ltb_ge prec (ndigits (coeffZ (_rescale x (dexp p) rd)))))
      by exact Hd.
    apply fix_small.
    + exact Hd.
    + rewrite rescale_exp. lia.
    + intros _. rewrite rescale_exp. lia.
    + intros _. exact Ha.
Qed.

Lemma result_fits_spec r :
  result_fits r = true <->
  Etiny <= dexp r <= Emax /\ ndigits (coeffZ r) <= prec /\ adjusted r <= Emax.
Proof.
  unfold result_fits. rewrite !andb_true_iff, !Z.leb_le. tauto.
Qed.

(** [quantize] returns the rescaled value exactly when it fits. *)
Lemma quantize_exact x p rd :
  quantize x p rd
  = if result_fits (_rescale x (dexp p) rd)
    then Some (_rescale x (dexp p) rd) else None.
Proof.
  destruct (result_fits (_rescale x (dexp p) rd)) eqn:Hfit.
  - apply result_fits_spec in Hfit. rewrite rescale_exp in Hfit.
    destruct Hfit as (Hp & Hd & Ha). now apply fits_quantize.
  - destruct (quantize x p rd) as [r|] eqn:Hq; [|reflexivity].
    exfalso.
    destruct (quantize_Some x p rd r Hq) as (Hr & Hp & Hd & Ha & _).
    assert (Hfit' : result_fits r = true).
    { assert (He : dexp r = dexp p) by (rewrite Hr; apply rescale_exp).
      apply result_fits_spec. rewrite He.
      split; [exact Hp|]. split; [exact Hd|].
      destruct (is_zero r) eqn:Hz; [|exact (Ha eq_refl)].
      apply is_zero_true in Hz. unfold adjusted. rewrite Hz, He.
      change (ndigits 0) with 1. lia. }
    rewrite Hr in Hfit'. rewrite Hfit' in Hfit. discriminate Hfit.
Qed.

End DecExact.

(* ================================================================== *)
(** * The rounding policy                                             *)
(* ================================================================== *)

(** Whatever [getroundeddecimal] returns has the exponent of the
    precision and is nearest to its argument, ties away from zero. *)
Lemma getroundeddecimal_Some_nearest x p r :
  getroundeddecimal x p = Some r -> Dec.nearest_half_up x r (Dec.dexp p).
Proof.
  intros H. apply DecFacts.quantize_Some in H. destruct H as [-> _].
  apply DecFacts.rescale_half_up_nearest.
Qed.

(** C3, as amended: for every finite decimal value and precision, let
    [r] be the multiple of ten to the precision's exponent (not of the
    precision's value) that is nearest to the value, an exact tie going
    away from zero (round-half-up, not banker's rounding), written with
    the exponent of the precision and the sign of the value.
    [getroundeddecimal] returns [r] when [r] fits the context: the
    exponent within its limits, at most 28 digits, an adjusted exponent
    of at most [Emax]; in every other case it raises (InvalidOperation).
    So round(1.005, 0.01) = 1.01 and round(1.004, 0.01) = 1.00, a value
    of 28 digits is still rounded, and one that rounds up to 29 digits
    is refused. *)
Theorem getroundeddecimal_nearest_half_up (x p : Dec.Decimal) :
  (exists r,
     Dec.dexp r = Dec.dexp p /\ Dec.dsign r = Dec.dsign x /\
     Dec.multiple_of r (Dec.triple false 1 (Dec.dexp p)) /\
     Dec.nearest_half_up x r (Dec.dexp p) /\
     getroundeddecimal x p = if result_fits r then Some r else None) /\
  getroundeddecimal (dec 1005 (-3)) (dec 1 (-2)) = Some (dec 101 (-2)) /\
  getroundeddecimal (dec 1004 (-3)) (dec 1 (-2)) = Some (dec 100 (-2)) /\
  getroundeddecimal (dec 12345678901234567890123456785 (-3)) (dec 1 (-2))
  = Some (dec 1234567890123456789012345679 (-2)) /\
  getroundeddecimal (dec 99999999999999999999999999995 (-3)) (dec 1 (-2))
  = None.
Proof.
  split; [|repeat split; vm_compute; reflexivity].
  exists (Dec._rescale x (Dec.dexp p) Dec.ROUND_HALF_UP).
  split; [apply DecFacts.rescale_exp|].
  split; [apply DecFacts.rescale_sign|].
  split.
  { rewrite <- (DecFacts.rescale_exp x (Dec.dexp p) Dec.ROUND_HALF_UP) at 2.
    apply DecFacts.multiple_of_unit. }
  split; [apply DecFacts.rescale_half_up_nearest|].
  apply DecExact.quantize_exact.
Qed.

(** C3 as stated fails: with the step 0.05 the value 1.03 comes back as
    1.03, which is no multiple of 0.05; only the exponent of the step
    is used. *)
Lemma getroundeddecimal_not_multiple_of_step :
  getroundeddecimal (dec 103 (-2)) (dec 5 (-2)) = Some (dec 103 (-2)) /\
  ~ Dec.multiple_of (dec 103 (-2)) (dec 5 (-2)).
Proof.
  split; [reflexivity|].
  unfold Dec.multiple_of. intros [k Hk].
  change (Dec.to_Q (dec 103 (-2))) with (103 # 100)%Q in Hk.
  change (Dec.to_Q (dec 5 (-2))) with (5 # 100)%Q in Hk.
  unfold Qeq, Qmult, inject_Z in Hk. cbn [Qnum Qden Pos.mul] in Hk. lia.
Qed.

(** A value with more than 28 digits above the step is refused:
    [quantize] raises InvalidOperation. *)
Lemma getroundeddecimal_too_many_digits :
  getroundeddecimal (dec 1 30) (dec 1 (-2)) = None.
Proof. reflexivity. Qed.

(** C4: rounding at step 0.01 is idempotent: rounding the rounded value
    again returns it unchanged, and a value that cannot be rounded
    fails both ways. *)
Theorem getroundeddecimal_idempotent (x : Dec.Decimal) :
  obind (getroundeddecimal x (dec 1 (-2)))
        (fun r => getroundeddecimal r (dec 1 (-2)))
  = getroundeddecimal x (dec 1 (-2)).
Proof.
  destruct (getroundeddecimal x (dec 1 (-2))) as [r|] eqn:E; cbn [obind].
  - apply DecFacts.quantize_fixpoint in E. exact E.
  - reflexivity.
Qed.

Example getroundeddecimal_twice :
  getroundeddecimal (dec 1005 (-3)) (dec 1 (-2)) = Some (dec 101 (-2)) /\
  getroundeddecimal (dec 101 (-2)) (dec 1 (-2)) = Some (dec 101 (-2)).
Proof. split; reflexivity. Qed.

(* ================================================================== *)
(** * The items table and its summary rows                            *)
(* ================================================================== *)

Lemma item_step_None items : fold_left item_step items None = None.
Proof. induction items; [reflexivity | assumption]. Qed.

Lemma sum_amounts_from_None items : sum_amounts_from None items = None.
Proof. unfold sum_amounts_from. induction items; [reflexivity | assumption]. Qed.

(** Over a list of items the loop collects their rows and sums their
    amounts. *)
Lemma raw_data_of_items items :
  forall item_data item_subtotal,
    fold_left item_step (map ObjItem items) (Some (item_data, item_subtotal))
    = obind (sum_amounts_from (Some item_subtotal) items)
            (fun subtotal => Some (item_data ++ map item_row items, subtotal)).
Proof.
  induction items as [|item items IH]; intros item_data item_subtotal.
  - cbn. now rewrite app_nil_r.
  - cbn [map fold_left]. unfold sum_amounts_from. cbn [fold_left].
    unfold item_step at 2. cbn [obind].
    destruct (Dec.add item_subtotal (item_amount item)) as [subtotal|];
      cbn [obind].
    + rewrite IH. unfold sum_amounts_from. rewrite <- app_assoc. reflexivity.
    + rewrite item_step_None.
      pose proof (sum_amounts_from_None items) as HN.
      unfold sum_amounts_from in HN. rewrite HN. reflexivity.
Qed.

(** The items table of a document whose items are [items], with a tax
    rate: title, item rows, then subtotal, tax and total. *)
Lemma items_table_taxed self items rate :
  _items self = map ObjItem items -> items <> [] ->
  _item_tax_rate self = Some rate ->
  items_table self
  = obind (sum_amounts items) (fun sub =>
    obind (getroundeddecimal sub (precision self)) (fun rounditem_subtotal =>
    obind (raw_tax rate sub) (fun tax_total =>
    obind (getroundeddecimal tax_total (precision self)) (fun roundtax_total =>
    obind (total_from_raw_sum (precision self) rate sub) (fun roundtotal =>
      Some (item_data_title :: map item_row items ++
              [summary_row "Subtotal" rounditem_subtotal;
               summary_row ("Vat/Tax (" ++ rate_str rate ++ "%)")%string
                           roundtax_total;
               summary_row "Total" roundtotal],
            summary_style (Z.of_nat (List.length items) + 1) true)))))).
Proof.
  intros Hitems Hne Hrate.
  unfold items_table, _item_data_and_style, bind, call, lift, gets, ret,
    story_append, _item_raw_data_and_subtotal.
  rewrite Hitems, raw_data_of_items. fold (sum_amounts items).
  destruct (sum_amounts items) as [sub|]; [|reflexivity]. cbn [obind app].
  destruct items as [|item items]; [contradiction|].
  cbn [map]. cbn [precision _item_tax_rate set_story _story app fst snd].
  destruct (getroundeddecimal sub (precision self)) as [rs|]; [|reflexivity].
  cbn [precision _item_tax_rate set_story _story app fst snd obind].
  rewrite Hrate. unfold total_from_raw_sum, raw_tax.
  destruct (Dec.div (rate_decimal rate) (Dec.of_int 100)) as [fraction|];
    [|reflexivity]. cbn [obind].
  destruct (Dec.mul sub fraction) as [tax_total|]; [|reflexivity].
  cbn [obind].
  destruct (getroundeddecimal tax_total (precision self)) as [rt|];
    [|reflexivity]. cbn [obind].
  destruct (Dec.add sub (if Dec.truthy tax_total then tax_total else Dec.of_int 0))
    as [total|]; [|reflexivity]. cbn [obind].
  destruct (getroundeddecimal total (precision self)) as [rtot|];
    [|reflexivity]. cbn [obind option_map fst].
  f_equal. f_equal.
  - rewrite <- !app_assoc. cbn [app]. rewrite <- !app_assoc. reflexivity.
  - unfold summary_style. cbn [List.length app].
    replace (Z.of_nat (S (S (List.length (map item_row items)))))
      with (Z.of_nat (S (List.length items)) + 1)
      by (rewrite length_map; lia).
    reflexivity.
Qed.

(** C1, as amended: for every document with a non-empty item list and a
    tax rate, the items table is the title row, the item rows and three
    summary rows, and the Total row prints, to two places, the
    round-half-up rounding of the raw sum: the unrounded subtotal plus
    the unrounded tax (a tax of zero counting as Decimal 0), rounded
    once to the configured precision.  The rounded subtotal and the
    rounded tax only feed their own rows.  The table exists exactly
    when the sums and the three roundings succeed.  For amounts 10.00
    and 20.005 and rate 10 the rows print 30.01, 3.00 and 33.01. *)
Theorem total_rounds_the_raw_sum (self : SimpleInvoice) (items : list Item)
  (rate : TaxRate)
  (Hitems : _items self = map ObjItem items) (Hne : items <> [])
  (Hrate : _item_tax_rate self = Some rate) :
  option_map fst (_item_data_and_style self)
  = obind (sum_amounts items) (fun item_subtotal =>
    obind (getroundeddecimal item_subtotal (precision self))
          (fun rounditem_subtotal =>
    obind (raw_tax rate item_subtotal) (fun tax_total =>
    obind (getroundeddecimal tax_total (precision self)) (fun roundtax_total =>
    obind (total_from_raw_sum (precision self) rate item_subtotal)
          (fun roundtotal =>
      Some (item_data_title :: map item_row items ++
              [summary_row "Subtotal" rounditem_subtotal;
               summary_row ("Vat/Tax (" ++ rate_str rate ++ "%)")%string
                           roundtax_total;
               summary_row "Total" roundtotal],
            summary_style (Z.of_nat (List.length items) + 1) true)))))) /\
  option_map (fun r => skipn 3 (fst (fst r))) (_item_data_and_style summary_doc)
  = Some [[CStr "Subtotal"; CStr ""; CStr ""; CStr ""; CStr "30.01"];
          [CStr "Vat/Tax (10%)"; CStr ""; CStr ""; CStr ""; CStr "3.00"];
          [CStr "Total"; CStr ""; CStr ""; CStr ""; CStr "33.01"]].
Proof.
  split; [|vm_compute; reflexivity].
  exact (items_table_taxed self items rate Hitems Hne Hrate).
Qed.

Lemma total_rounds_the_raw_sum_witness :
  option_map fst (_item_data_and_style rounded_parts_doc)
  = Some ([item_data_title;
           item_row (mkItem "Item" "Description" 1 (dec 10005 (-3))
                            (dec 10005 (-3)));
           [CStr "Subtotal"; CStr ""; CStr ""; CStr ""; CStr "10.01"];
           [CStr "Vat/Tax (100%)"; CStr ""; CStr ""; CStr ""; CStr "10.01"];
           [CStr "Total"; CStr ""; CStr ""; CStr ""; CStr "20.01"]],
          summary_style 2 true).
Proof.
  rewrite (proj1 (total_rounds_the_raw_sum rounded_parts_doc
                    [mkItem "Item" "Description" 1 (dec 10005 (-3))
                            (dec 10005 (-3))]
                    (RateInt 100) eq_refl ltac:(discriminate) eq_refl)).
  vm_compute. reflexivity.
Defined.

(** C1 as stated fails: for the single amount 10.005 at rate 100 the
    Total row prints 20.01, the rounding of the raw sum 20.010, while
    the rounded subtotal 10.01 plus the rounded tax 10.01 is 20.02. *)
Lemma total_not_from_rounded_parts :
  option_map (fun r => last (fst (fst r)) [])
             (_item_data_and_style rounded_parts_doc)
  = Some [CStr "Total"; CStr ""; CStr ""; CStr ""; CStr "20.01"] /\
  option_map Dec.format_2f
             (total_from_rounded_parts default_precision (RateInt 100)
                                       (dec 10005 (-3)))
  = Some "20.02" /\
  getroundeddecimal (dec 10005 (-3)) default_precision = Some (dec 1001 (-2)) /\
  obind (raw_tax (RateInt 100) (dec 10005 (-3)))
        (fun tax_total => getroundeddecimal tax_total default_precision)
  = Some (dec 1001 (-2)).
Proof. repeat split; vm_compute; reflexivity. Qed.

(** A subtotal that went through at least one addition is within the
    context's limits. *)
Lemma sum_amounts_from_fixed items :
  forall acc sub,
    sum_amounts_from (Some acc) items = Some sub ->
    (items = [] /\ sub = acc) \/ Dec.fixed sub.
Proof.
  induction items as [|item items IH]; intros acc sub H.
  - left. split; [reflexivity|]. cbn in H. now injection H as <-.
  - right. unfold sum_amounts_from in H. cbn [fold_left obind] in H.
    destruct (Dec.add acc (item_amount item)) as [acc'|] eqn:Ha.
    + destruct (IH acc' sub H) as [[_ ->]|Hf]; [|exact Hf].
      exact (DecFacts.add_fixed _ _ _ Ha).
    + pose proof (sum_amounts_from_None items) as HN.
      unfold sum_amounts_from in HN. rewrite HN in H. discriminate.
Qed.

(** Non-negative amounts sum to a total without a minus sign. *)
Lemma sum_amounts_from_sign items :
  forall acc sub,
    Dec.dsign acc = false ->
    forallb (fun item => Dec.nonneg (item_amount item)) items = true ->
    sum_amounts_from (Some acc) items = Some sub ->
    Dec.dsign sub = false.
Proof.
  induction items as [|item items IH]; intros acc sub Hacc Hnn H.
  - cbn in H. now injection H as <-.
  - cbn [forallb] in Hnn. apply andb_prop in Hnn. destruct Hnn as [Hi Hnn].
    unfold sum_amounts_from in H. cbn [fold_left obind] in H.
    destruct (Dec.add acc (item_amount item)) as [acc'|] eqn:Ha.
    + apply (IH acc' sub); try assumption.
      exact (DecFacts.add_sign_nonneg _ _ _ Hacc Hi Ha).
    + pose proof (sum_amounts_from_None items) as HN.
      unfold sum_amounts_from in HN. rewrite HN in H. discriminate.
Qed.

Lemma format_2f_zero e : Dec.format_2f (Dec.triple false 0 e) = "0.00".
Proof. reflexivity. Qed.

Lemma add_zero_to_zero x :
  Dec.is_zero x = true ->
  exists t, Dec.add x (Dec.of_int 0) = Some t /\
            Dec.is_zero t = true /\ Dec.dsign t = false.
Proof.
  intros Hz. unfold Dec.add. change (Dec.dexp (Dec.of_int 0)) with 0.
  set (m := Z.min (Dec.dexp x) 0).
  assert (Hx : Dec.aligned m x = 0).
  { apply DecFacts.is_zero_true in Hz. unfold Dec.aligned, Dec.signedZ.
    rewrite Hz. destruct (Dec.dsign x); lia. }
  assert (H0 : Dec.aligned m (Dec.of_int 0) = 0) by reflexivity.
  rewrite Hx, H0. cbn [Z.add Z.eqb Z.abs].
  change (Dec.dsign (Dec.of_int 0)) with false. rewrite !andb_false_r.
  rewrite DecFacts.fix_zero. eexists. split; [reflexivity|].
  split; reflexivity.
Qed.

Lemma format_2f_of_zero t :
  Dec.is_zero t = true -> Dec.format_2f t = zero_text (Dec.dsign t).
Proof.
  intros Hz. unfold Dec.format_2f, Dec._rescale. rewrite Hz.
  destruct (Dec.dsign t); reflexivity.
Qed.

(** Adding [Decimal('0')] to a subtotal and rounding gives the rounded
    subtotal, except that a negative zero becomes a positive one. *)
Lemma plus_zero_rounds sub p rs :
  Dec.fixed sub -> getroundeddecimal sub p = Some rs ->
  exists total,
    Dec.add sub (Dec.of_int 0) = Some total /\
    getroundeddecimal total p
    = Some (if Dec.is_zero sub && Dec.dsign sub
            then Dec.triple false 0 (Dec.dexp p) else rs).
Proof.
  intros Hfixed Hround.
  destruct (DecFacts.quantize_Some _ _ _ _ Hround) as (_ & Hp & _).
  destruct (Dec.is_zero sub) eqn:Zs; [destruct (Dec.dsign sub) eqn:Ss|];
    cbn [andb].
  - destruct (add_zero_to_zero sub Zs) as (t & Hadd & Zt & St).
    exists t. split; [exact Hadd|]. unfold getroundeddecimal.
    rewrite (DecFacts.quantize_of_zero _ _ _ Zt Hp), St. reflexivity.
  - destruct (DecFacts.add_zero_quantize sub p Dec.ROUND_HALF_UP Hfixed
                (or_introl Ss)) as (total & Hadd & Hq).
    exists total. split; [exact Hadd|]. unfold getroundeddecimal in *.
    now rewrite Hq.
  - destruct (DecFacts.add_zero_quantize sub p Dec.ROUND_HALF_UP Hfixed
                (or_intror Zs)) as (total & Hadd & Hq).
    exists total. split; [exact Hadd|]. unfold getroundeddecimal in *.
    now rewrite Hq.
Qed.

(** The raw tax of a zero rate is a zero with the sign of the subtotal
    times the sign of the rate. *)
Lemma zero_rate_tax rate sub :
  Dec.is_zero (rate_decimal rate) = true ->
  exists tax_total,
    raw_tax rate sub = Some tax_total /\ Dec.is_zero tax_total = true /\
    Dec.dsign tax_total = xorb (Dec.dsign sub) (Dec.dsign (rate_decimal rate)).
Proof.
  intros Hz. unfold raw_tax, Dec.div. rewrite Hz.
  change (Dec.is_zero (Dec.of_int 100)) with false. cbv iota.
  change (Dec.dsign (Dec.of_int 100)) with false. rewrite xorb_false_r.
  rewrite DecFacts.fix_zero. cbn [obind]. unfold Dec.mul.
  rewrite (DecFacts.coeffZ_triple _ 0) by lia. rewrite Z.mul_0_r.
  rewrite DecFacts.fix_zero. eexists. split; [reflexivity|].
  split; reflexivity.
Qed.

(** C10, as amended: for every document with a non-empty item list and
    a tax rate that is zero (the int 0 or a Decimal zero), whenever the
    subtotal can be summed and rounded, the items table is produced
    with three summary rows: Subtotal, a tax row 'Vat/Tax (<rate>%)'
    (the test is [is not None], so a rate of 0 still counts; the int 0
    gives 'Vat/Tax (0%)') and Total.  The tax row prints a zero: '0.00',
    and '-0.00' when the subtotal is negative (or, for a Decimal rate,
    when the signs of subtotal and rate differ).  The Total row prints
    the rounded subtotal, the tax adding nothing; only a subtotal that
    is a negative zero comes out as a positive zero. *)
Theorem zero_rate_keeps_the_tax_row (self : SimpleInvoice) (items : list Item)
  (rate : TaxRate) (item_subtotal rounditem_subtotal : Dec.Decimal)
  (Hitems : _items self = map ObjItem items) (Hne : items <> [])
  (Hrate : _item_tax_rate self = Some rate)
  (Hzero : Dec.is_zero (rate_decimal rate) = true)
  (Hsum : sum_amounts items = Some item_subtotal)
  (Hround : getroundeddecimal item_subtotal (precision self)
            = Some rounditem_subtotal) :
  option_map fst (_item_data_and_style self)
  = Some (item_data_title :: map item_row items ++
            [summary_cells "Subtotal" (Dec.format_2f rounditem_subtotal);
             summary_cells
               ("Vat/Tax (" ++ rate_str rate ++ "%)")%string
               (zero_text (xorb (Dec.dsign item_subtotal)
                                (Dec.dsign (rate_decimal rate))));
             summary_cells "Total"
               (Dec.format_2f
                  (if Dec.is_zero item_subtotal && Dec.dsign item_subtotal
                   then Dec.triple false 0 (Dec.dexp (precision self))
                   else rounditem_subtotal))],
          summary_style (Z.of_nat (List.length items) + 1) true) /\
  rate_str (RateInt 0) = "0" /\
  Dec.dsign (rate_decimal (RateInt 0)) = false.
Proof.
  split; [|split; reflexivity].
  pose proof (items_table_taxed self items rate Hitems Hne Hrate) as Ht.
  unfold items_table in Ht. rewrite Ht. clear Ht.
  rewrite Hsum. cbn [obind]. rewrite Hround. cbn [obind].
  assert (Hfixed : Dec.fixed item_subtotal).
  { destruct (sum_amounts_from_fixed items (Dec.of_int 0) _ Hsum)
      as [[-> _]|Hf]; [contradiction | exact Hf]. }
  destruct (zero_rate_tax rate item_subtotal Hzero) as (tax & Htax & Hz & Hs).
  destruct (DecFacts.quantize_Some _ _ _ _ Hround) as (_ & Hp & _).
  destruct (plus_zero_rounds _ _ _ Hfixed Hround) as (total & Hadd & Hrt).
  rewrite Htax. cbn [obind]. unfold getroundeddecimal at 1.
  rewrite (DecFacts.quantize_of_zero _ _ _ Hz Hp). cbn [obind].
  unfold total_from_raw_sum. rewrite Htax. cbn [obind].
  unfold Dec.truthy. rewrite Hz. cbn [negb].
  rewrite Hadd. cbn [obind]. rewrite Hrt. cbn [obind].
  unfold summary_row, summary_cells, CStr.
  rewrite (format_2f_of_zero (Dec.triple (Dec.dsign tax) 0 _)) by reflexivity.
  cbn [Dec.triple Dec.dsign]. rewrite Hs. reflexivity.
Qed.

Lemma zero_rate_keeps_the_tax_row_witness :
  option_map (fun r => skipn 2 (fst (fst r))) (_item_data_and_style zero_rate_doc)
  = Some [[CVal (VStr "Subtotal"); CVal (VStr ""); CVal (VStr "");
           CVal (VStr ""); CVal (VStr "12.50")];
          [CVal (VStr "Vat/Tax (0%)"); CVal (VStr ""); CVal (VStr "");
           CVal (VStr ""); CVal (VStr "0.00")];
          [CVal (VStr "Total"); CVal (VStr ""); CVal (VStr "");
           CVal (VStr ""); CVal (VStr "12.50")]].
Proof.
  pose proof (proj1 (zero_rate_keeps_the_tax_row zero_rate_doc
                       [mkItem "Item" "Description" 1 (dec 1250 (-2))
                               (dec 1250 (-2))]
                       (RateInt 0) (dec 1250 (-2)) (dec 1250 (-2))
                       eq_refl ltac:(discriminate) eq_refl eq_refl eq_refl
                       eq_refl)) as Htable.
  destruct (_item_data_and_style zero_rate_doc) as [[table self']|];
    [|discriminate Htable].
  cbn [option_map fst] in *. injection Htable as ->. vm_compute. reflexivity.
Defined.

(** C10 as stated fails under a negative subtotal: for the single
    amount -12.50 at rate 0 the tax row prints '-0.00', not '0.00'. *)
Lemma negative_subtotal_prints_minus_zero :
  option_map (fun r => skipn 2 (fst (fst r)))
             (_item_data_and_style negative_zero_rate_doc)
  = Some [[CVal (VStr "Subtotal"); CVal (VStr ""); CVal (VStr "");
           CVal (VStr ""); CVal (VStr "-12.50")];
          [CVal (VStr "Vat/Tax (0%)"); CVal (VStr ""); CVal (VStr "");
           CVal (VStr ""); CVal (VStr "-0.00")];
          [CVal (VStr "Total"); CVal (VStr ""); CVal (VStr "");
           CVal (VStr ""); CVal (VStr "-12.50")]].
Proof. vm_compute. reflexivity. Qed.

(* ================================================================== *)
(** * Adding items and transactions                                   *)
(* ================================================================== *)

(** C7: for every argument that is not an Item, [add_item] leaves the
    document, and so its item list, unchanged; for every argument that
    is not a Transaction, [add_transaction] does the same to the
    transaction list.  Both are total functions: no error is raised. *)
Theorem wrong_kind_additions_are_dropped (self : SimpleInvoice)
  (item t : PyObject)
  (Hitem : is_Item item = false) (Ht : is_Transaction t = false) :
  add_item item self = self /\
  _items (add_item item self) = _items self /\
  add_transaction t self = self /\
  _transactions (add_transaction t self) = _transactions self.
Proof.
  unfold add_item, add_transaction. rewrite Hitem, Ht. repeat split.
Qed.

Lemma wrong_kind_additions_are_dropped_witness :
  _items (add_item (ObjTransaction (mkTransaction "T1" "Bank" VNone (dec 5 0)))
                   summary_doc)
  = _items summary_doc /\
  _transactions (add_transaction (ObjValue (VStr "not a transaction"))
                                 summary_doc)
  = _transactions summary_doc.
Proof.
  destruct (wrong_kind_additions_are_dropped summary_doc
              (ObjTransaction (mkTransaction "T1" "Bank" VNone (dec 5 0)))
              (ObjValue (VStr "not a transaction")) eq_refl eq_refl)
    as (_ & Hi & _ & Ht).
  exact (conj Hi Ht).
Defined.

(* ================================================================== *)
(** * Sparse attribute tables                                         *)
(* ================================================================== *)

(** A property checked on every number of a range holds on the range. *)
Lemma forallb_range (P : Z -> bool) (lo len : Z) :
  forallb P (map (fun k => lo + Z.of_nat k) (seq 0 (Z.to_nat len))) = true ->
  forall n, lo <= n < lo + len -> P n = true.
Proof.
  intros Hall n Hn. rewrite forallb_forall in Hall. apply Hall.
  apply in_map_iff. exists (Z.to_nat (n - lo)). split; [lia|].
  apply in_seq. lia.
Qed.

Lemma pad_two_digits n : 0 <= n <= 99 -> pad 2 n = two_digits n.
Proof.
  intros Hn. apply String.eqb_eq.
  apply (forallb_range (fun n => String.eqb (pad 2 n) (two_digits n)) 0 100);
    [vm_compute; reflexivity | lia].
Qed.

Lemma digits_of_four_digits n :
  1000 <= n <= 9999 -> Dec.digits_of n = four_digits n.
Proof.
  intros Hn. apply String.eqb_eq.
  apply (forallb_range
           (fun n => String.eqb (Dec.digits_of n) (four_digits n)) 1000 9000);
    [vm_compute; reflexivity | lia].
Qed.

Lemma strftime_date_iso d :
  four_digit_date d = true -> strftime_date d = iso_date d.
Proof.
  unfold four_digit_date. rewrite !andb_true_iff, !Z.leb_le.
  intros [[[[[H1 H2] H3] H4] H5] H6]. unfold strftime_date, iso_date.
  rewrite digits_of_four_digits, !pad_two_digits by lia. reflexivity.
Qed.

Lemma strftime_datetime_iso d :
  four_digit_datetime d = true -> strftime_datetime d = iso_minutes d.
Proof.
  unfold four_digit_datetime. rewrite !andb_true_iff, !Z.leb_le.
  intros [[[[Hd H1] H2] H3] H4]. unfold strftime_datetime, iso_minutes.
  rewrite strftime_date_iso, !pad_two_digits by (try lia; exact Hd).
  reflexivity.
Qed.

Lemma format_value_iso v :
  four_digit_years v = true -> _format_value v = iso_value v.
Proof.
  destruct v as [| | |d|d]; cbn [four_digit_years _format_value iso_value];
    intros Hv; try reflexivity.
  - now rewrite strftime_date_iso.
  - now rewrite strftime_datetime_iso.
Qed.

Lemma sparse_rows_formatted fields :
  forallb four_digit_years (map snd fields) = true ->
  sparse_rows fields = formatted_rows fields.
Proof.
  intros Hall. unfold sparse_rows, formatted_rows. apply map_ext_in.
  intros f Hin. apply filter_In in Hin. destruct Hin as [Hin _].
  rewrite forallb_forall in Hall.
  rewrite (format_value_iso (snd f)); [reflexivity|].
  apply Hall. apply in_map. exact Hin.
Qed.

Lemma sparse_rows_labels fields :
  map row_label (sparse_rows fields) = truthy_labels fields.
Proof.
  unfold sparse_rows, truthy_labels. rewrite map_map. reflexivity.
Qed.

Lemma combine_snd {A B} (l : list A) (l' : list B) :
  List.length l = List.length l' -> map snd (combine l l') = l'.
Proof.
  revert l'. induction l as [|a l IH]; intros [|b l'] Hlen;
    try discriminate Hlen; [reflexivity|].
  cbn [combine map snd]. f_equal. apply IH. now injection Hlen.
Qed.

(** C5, as amended: for every entity instance and every ordered list of
    (field, label) pairs naming attributes of the instance, the
    attribute-table builder returns one row for each field whose value
    is truthy, in field order, and no row for a falsy field; the row is
    ['<label>:', value] with a text or a number as it is, and, for the
    years that have four digits (1000 to 9999), a datetime as
    'YYYY-MM-DD HH:MM' and a date as 'YYYY-MM-DD'.  For an earlier year
    the rows and labels are the same, but the year is printed without
    zero padding. *)
Theorem attribute_table_is_sparse {T : Type} `{HasAttr T} (instance : T)
  (attribute_verbose_name_list : list (string * string)) (vals : list Value)
  (Hattrs : attributes_found instance attribute_verbose_name_list vals) :
  exists data,
    _attribute_to_table_data instance attribute_verbose_name_list = Some data /\
    map row_label data
    = truthy_labels (combine (map snd attribute_verbose_name_list) vals) /\
    Forall (fun row : Row => List.length row = 2%nat) data /\
    (forallb four_digit_years vals = true ->
     data = formatted_rows (combine (map snd attribute_verbose_name_list) vals)).
Proof.
  exists (sparse_rows (combine (map snd attribute_verbose_name_list) vals)).
  split; [apply attribute_table_sparse; exact Hattrs|].
  split; [apply sparse_rows_labels|].
  split.
  { unfold sparse_rows. apply Forall_forall. intros row Hin.
    apply in_map_iff in Hin. destruct Hin as (f & <- & _). reflexivity. }
  intros Hyears. apply sparse_rows_formatted.
  rewrite combine_snd; [exact Hyears|].
  rewrite length_map. exact (Forall2_length Hattrs).
Qed.

Lemma attribute_table_is_sparse_witness :
  _attribute_to_table_data sample_invoice_info
    [("invoice_id", "Invoice id"); ("invoice_datetime", "Invoice date");
     ("due_datetime", "Invoice due date")]
  = Some [[CVal (VStr "Invoice id:"); CVal (VInt 42)];
          [CVal (VStr "Invoice date:"); CVal (VStr "2024-03-05 09:07")];
          [CVal (VStr "Invoice due date:"); CVal (VStr "2024-04-04")]] /\
  _attribute_to_table_data three_row_provider service_provider_props
  = Some [[CVal (VStr "Name:"); CVal (VStr "Acme")];
          [CVal (VStr "City:"); CVal (VStr "Town")];
          [CVal (VStr "Vat/Tax number:"); CVal (VStr "VAT-1")]].
Proof.
  split.
  - destruct (attribute_table_is_sparse sample_invoice_info
                [("invoice_id", "Invoice id");
                 ("invoice_datetime", "Invoice date");
                 ("due_datetime", "Invoice due date")]
                [VInt 42; VDatetime sample_datetime; VDate (mkDate 2024 4 4)]
                ltac:(repeat constructor))
      as (data & -> & _ & _ & Hrows).
    rewrite (Hrows eq_refl). vm_compute. reflexivity.
  - destruct (attribute_table_is_sparse three_row_provider
                service_provider_props
                [VStr "Acme"; VNone; VStr "Town"; VNone; VNone; VStr "";
                 VStr "VAT-1"]
                ltac:(repeat constructor))
      as (data & -> & _ & _ & Hrows).
    rewrite (Hrows eq_refl). vm_compute. reflexivity.
Defined.

(** C5 as stated fails for a year below 1000: the due date 2 January
    999 is inserted as '999-01-02', nine characters, where 'YYYY-MM-DD'
    is '0999-01-02'. *)
Lemma early_year_is_not_padded :
  _attribute_to_table_data early_due_date invoice_info_props
  = Some [[CVal (VStr "Invoice due date:"); CVal (VStr "999-01-02")]] /\
  iso_value (VDate (mkDate 999 1 2)) = VStr "0999-01-02" /\
  _format_value (VDate (mkDate 999 1 2)) <> iso_value (VDate (mkDate 999 1 2)).
Proof.
  split; [vm_compute; reflexivity|]. split; [vm_compute; reflexivity|].
  vm_compute. discriminate.
Qed.

(* ================================================================== *)
(** * The party block                                                 *)
(* ================================================================== *)

Lemma list_mul_singleton_length {A} (x : A) n :
  List.length (list_mul [x] n) = n.
Proof.
  unfold list_mul. induction n as [|n IH]; [reflexivity|].
  cbn [repeat List.concat app List.length]. now rewrite IH.
Qed.

Lemma zip_party_rows_length s c :
  List.length (zip_party_rows s c) = Nat.min (List.length s) (List.length c).
Proof. unfold zip_party_rows. now rewrite length_map, length_combine. Qed.

(** With the client side shorter or equal, the merge has [max m n]
    data rows. *)
Lemma merge_rows_client_shorter s c :
  (List.length c <= List.length s)%nat ->
  List.length (zip_party_rows (fst (pad_party_rows s c)) (snd (pad_party_rows s c)))
  = Nat.max (List.length s) (List.length c).
Proof.
  intros Hle. unfold pad_party_rows.
  destruct (Z.ltb_spec 0 (Z.abs (Z.of_nat (List.length c)
                                 - Z.of_nat (List.length s))));
    [destruct (Nat.ltb_spec (List.length c) (List.length s))|];
    cbn [fst snd]; rewrite zip_party_rows_length;
    rewrite ?length_app, ?list_mul_singleton_length; lia.
Qed.

(** With the provider side shorter, it gains a single row, whatever the
    difference: the zip stops after [m + 1] rows. *)
Lemma merge_rows_provider_shorter s c :
  (List.length s < List.length c)%nat ->
  List.length (zip_party_rows (fst (pad_party_rows s c)) (snd (pad_party_rows s c)))
  = S (List.length s).
Proof.
  intros Hlt. unfold pad_party_rows.
  destruct (Z.ltb_spec 0 (Z.abs (Z.of_nat (List.length c)
                                 - Z.of_nat (List.length s))));
    [destruct (Nat.ltb_spec (List.length c) (List.length s))|];
    cbn [fst snd]; rewrite zip_party_rows_length;
    rewrite ?length_app; cbn [List.length]; lia.
Qed.

Lemma sparse_rows_two_cells fields :
  Forall (fun row : Row => List.length row = 2%nat) (sparse_rows fields).
Proof.
  unfold sparse_rows. apply Forall_forall. intros row Hin.
  apply in_map_iff in Hin. destruct Hin as (f & <- & _). reflexivity.
Qed.

Lemma list_mul_singleton_Forall {A} (P : A -> Prop) x n :
  P x -> Forall P (list_mul [x] n).
Proof.
  intros Hx. unfold list_mul. induction n as [|n IH]; cbn; constructor; assumption.
Qed.

Lemma zip_party_rows_five_cells s c :
  Forall (fun row : Row => List.length row = 2%nat) s ->
  Forall (fun row : Row => List.length row = 2%nat) c ->
  Forall (fun row : Row => List.length row = 5%nat) (zip_party_rows s c).
Proof.
  intros Hs. revert c. induction Hs as [|srow s Hrow Hs IH]; intros c Hc.
  - constructor.
  - destruct Hc as [|crow c Hcrow Hc]; [constructor|].
    unfold zip_party_rows. cbn [combine map fst snd]. constructor.
    + rewrite !length_app. cbn [List.length]. lia.
    + apply IH. assumption.
Qed.

(** With the client side shorter or equal, every merged data row has
    its five cells. *)
Lemma merge_rows_client_shorter_five_cells self :
  (List.length (client_rows self) <= List.length (service_provider_rows self))%nat ->
  Forall (fun row : Row => List.length row = 5%nat)
         (zip_party_rows
            (fst (pad_party_rows (service_provider_rows self) (client_rows self)))
            (snd (pad_party_rows (service_provider_rows self) (client_rows self)))).
Proof.
  intros Hle.
  assert (Hs : Forall (fun row : Row => List.length row = 2%nat)
                      (service_provider_rows self)).
  { unfold service_provider_rows. destruct (service_provider_info self);
      try constructor. apply sparse_rows_two_cells. }
  assert (Hc : Forall (fun row : Row => List.length row = 2%nat)
                      (client_rows self)).
  { unfold client_rows. destruct (client_info self);
      try constructor. apply sparse_rows_two_cells. }
  unfold pad_party_rows.
  destruct (Z.ltb_spec 0 (Z.abs (Z.of_nat (List.length (client_rows self))
                                 - Z.of_nat (List.length (service_provider_rows self)))));
    [destruct (Nat.ltb_spec (List.length (client_rows self))
                            (List.length (service_provider_rows self)))|];
    cbn [fst snd]; try lia.
  - apply zip_party_rows_five_cells; [assumption|].
    apply Forall_app. split; [assumption|].
    apply list_mul_singleton_Forall. reflexivity.
  - apply zip_party_rows_five_cells; assumption.
Qed.

(** C2 at a provider with 2 rows and a client with 5: the merged table
    has 1 header row and 3 data rows, not 5; the third data row holds
    the 6 blanks of the single padding row, a separator and the
    client's third row, and the client's last two rows are lost. *)
Theorem merge_pads_provider_with_one_row :
  option_map (fun r => _story (snd r))
             (_build_service_provider_and_client_info merge_doc)
  = Some [Table
            [merge_header;
             [CStr "Name:"; CStr "Acme"; CStr ""; CStr "Name:"; CStr "Bob"];
             [CStr "Street:"; CStr "1 Main St"; CStr "";
              CStr "Street:"; CStr "2 Side St"];
             [CStr ""; CStr ""; CStr ""; CStr ""; CStr ""; CStr "";
              CStr ""; CStr "City:"; CStr "Town"]]
            merge_style] /\
  List.length (service_provider_rows merge_doc) = 2%nat /\
  List.length (client_rows merge_doc) = 5%nat.
Proof. repeat split; vm_compute; reflexivity. Qed.

Lemma sparse_rows_no_blank fields : ~ In [CStr ""; CStr ""] (sparse_rows fields).
Proof.
  unfold sparse_rows. intros Hin. apply in_map_iff in Hin.
  destruct Hin as (f & Heq & _). injection Heq as Hlabel _.
  destruct (fst f); discriminate.
Qed.

(** C9, as amended: for every document in which exactly one of
    ServiceProviderInfo and ClientInfo is present and that entity has
    at least one populated field, the party step appends to the story
    exactly two blocks, the heading and one table of the entity's own
    rows: for a client 'Client' and a left-aligned table, for a
    provider 'Service Provider' and a right-aligned one.  The rows are
    the labelled rows of the populated fields and nothing else: no
    merged table, no blank padding row.  An entity with no populated
    field appends nothing. *)
Theorem single_party_is_rendered_alone (self : SimpleInvoice)
  (Hone : exactly_one_party self = true)
  (Hpopulated : client_rows self ++ service_provider_rows self <> []) :
  option_map (fun r => _story (snd r))
             (_build_service_provider_and_client_info self)
  = Some (_story self ++
          if is_ClientInfo (client_info self)
          then [Paragraph "Client" Heading1;
                SimpleTable (client_rows self) "LEFT"]
          else [Paragraph "Service Provider" RightHeading1;
                SimpleTable (service_provider_rows self) "RIGHT"]) /\
  (forall i, client_info self = ObjClientInfo i ->
             map row_label (client_rows self) = truthy_labels (client_fields i)) /\
  (forall i, service_provider_info self = ObjServiceProviderInfo i ->
             map row_label (service_provider_rows self)
             = truthy_labels (service_provider_fields i)) /\
  ~ In [CVal (VStr ""); CVal (VStr "")] (client_rows self) /\
  ~ In [CVal (VStr ""); CVal (VStr "")] (service_provider_rows self).
Proof.
  unfold exactly_one_party in Hone. split; [|split; [|split; [|split]]].
  - rewrite build_party_appends. cbn [option_map snd set_story _story].
    f_equal. f_equal. revert Hpopulated.
    unfold party_blocks, separate_party_blocks, service_provider_rows,
      client_rows.
    destruct (service_provider_info self); destruct (client_info self);
      try discriminate Hone; cbn [is_ServiceProviderInfo is_ClientInfo andb];
      cbn [app]; rewrite ?app_nil_r; intros Hrows; unfold headed_table;
      cbn [app];
      match goal with
      | |- context [sparse_rows ?f] => destruct (sparse_rows f)
      end; try contradiction; reflexivity.
  - intros i Hi. unfold client_rows. rewrite Hi. apply sparse_rows_labels.
  - intros i Hi. unfold service_provider_rows. rewrite Hi.
    apply sparse_rows_labels.
  - unfold client_rows. destruct (client_info self);
      try (intros []); apply sparse_rows_no_blank.
  - unfold service_provider_rows. destruct (service_provider_info self);
      try (intros []); apply sparse_rows_no_blank.
Qed.

Lemma single_party_is_rendered_alone_witness :
  option_map (fun r => _story (snd r))
             (_build_service_provider_and_client_info client_only_doc)
  = Some [Paragraph "Client" Heading1;
          SimpleTable
            [[CVal (VStr "Name:"); CVal (VStr "Bob")];
             [CVal (VStr "Street:"); CVal (VStr "2 Side St")];
             [CVal (VStr "City:"); CVal (VStr "Town")];
             [CVal (VStr "State:"); CVal (VStr "NY")];
             [CVal (VStr "Country:"); CVal (VStr "US")]] "LEFT"].
Proof.
  exact (proj1 (single_party_is_rendered_alone client_only_doc eq_refl
                  ltac:(discriminate))).
Defined.

(** C9 as stated fails for an entity with no populated field: a client
    whose fields are all None or empty, with no provider, gets no
    headed table; the party step appends nothing. *)
Lemma empty_party_renders_nothing :
  exactly_one_party empty_client_doc = true /\
  option_map (fun r => _story (snd r))
             (_build_service_provider_and_client_info empty_client_doc)
  = Some [].
Proof. split; vm_compute; reflexivity. Qed.

(* ================================================================== *)
(** * The assembly pass                                               *)
(* ================================================================== *)

Lemma dict_get_set {V} key (value : V) d :
  dict_get key (dict_set key value d) = Some value.
Proof.
  induction d as [|[k v] d IH]; cbn [dict_set dict_get].
  - now rewrite String.eqb_refl.
  - destruct (String.eqb k key) eqn:E; cbn [dict_get]; rewrite E;
      [reflexivity | exact IH].
Qed.

Lemma story_with_paid_stamp self : _story (with_paid_stamp self) = _story self.
Proof. unfold with_paid_stamp. destruct (is_paid self); reflexivity. Qed.

Lemma transactions_blocks_empty self :
  _transactions self = [] -> transactions_blocks self = [].
Proof.
  intros H. unfold transactions_blocks, _transactions_data. now rewrite H.
Qed.

Lemma headed_table_not_items heading style align rows :
  (style = Heading1 -> heading = "Client") ->
  forallb (fun b => negb (is_items_or_transactions_block b))
          (headed_table heading style align rows) = true.
Proof.
  intros Hh. unfold headed_table. destruct rows; [reflexivity|].
  cbn [forallb is_items_or_transactions_block].
  destruct style; try reflexivity. rewrite (Hh eq_refl). reflexivity.
Qed.

(** C6: for every document with an empty item list and an empty
    transaction list, [finish] succeeds and none of the blocks it
    appends is the 'Detail' heading, the 'Transaction' heading or a
    headed table of items or transactions: both sections are omitted,
    heading included. *)
Theorem empty_sections_are_omitted (self : SimpleInvoice)
  (Hitems : _items self = []) (Htrans : _transactions self = []) :
  exists self' blocks,
    finish self = Some (tt, self') /\
    _story self' = _story self ++ blocks /\
    forallb (fun b => negb (is_items_or_transactions_block b)) blocks = true.
Proof.
  rewrite finish_eq, (items_blocks_empty self Hitems).
  eexists. exists (sections self []). split; [reflexivity|].
  split; [rewrite story_with_paid_stamp; reflexivity|].
  unfold sections. rewrite (transactions_blocks_empty self Htrans).
  rewrite !forallb_app. repeat (apply andb_true_intro; split).
  - unfold logo_blocks. destruct (_logo self); reflexivity.
  - apply headed_table_not_items. discriminate.
  - unfold party_blocks, separate_party_blocks.
    destruct (_ && _); [reflexivity|].
    rewrite forallb_app. apply andb_true_intro.
    split; apply headed_table_not_items; [discriminate|reflexivity].
  - reflexivity.
  - reflexivity.
  - unfold bottom_tip_blocks. destruct (_bottom_tip self) as [text|];
      [destruct (String.eqb text "")|]; reflexivity.
Qed.

Lemma empty_sections_are_omitted_witness :
  exists self' blocks,
    finish client_only_doc = Some (tt, self') /\
    _story self' = _story client_only_doc ++ blocks /\
    forallb (fun b => negb (is_items_or_transactions_block b)) blocks = true.
Proof.
  exact (empty_sections_are_omitted client_only_doc eq_refl eq_refl).
Defined.

(* ================================================================== *)
(** * The item loop over arbitrary contents                           *)
(* ================================================================== *)

Lemma item_step_skips acc obj :
  is_Item obj = false -> item_step acc obj = acc.
Proof.
  intros H. destruct acc as [[item_data item_subtotal]|]; [|reflexivity].
  destruct obj; try discriminate H; reflexivity.
Qed.

Lemma raw_data_skips objs :
  forall acc,
    fold_left item_step objs acc
    = fold_left item_step (map ObjItem (items_of objs)) acc.
Proof.
  induction objs as [|obj objs IH]; intros acc; [reflexivity|].
  cbn [fold_left]. destruct (is_Item obj) eqn:E.
  - destruct obj; try discriminate E. cbn [items_of map fold_left]. apply IH.
  - rewrite (item_step_skips acc obj E).
    destruct obj; try discriminate E; cbn [items_of]; apply IH.
Qed.

Lemma raw_data_and_subtotal_eq self :
  _item_raw_data_and_subtotal self
  = obind (sum_amounts (items_of (_items self)))
          (fun sub => Some (map item_row (items_of (_items self)), sub)).
Proof.
  unfold _item_raw_data_and_subtotal.
  rewrite raw_data_skips, raw_data_of_items. reflexivity.
Qed.

(** X1: objects of the item list that are not Items add neither a row
    nor an amount; the loop returns one row per Item, in list order,
    and the running sum of their amounts from 0, and raises exactly
    when one of the additions does. *)
Theorem item_loop_skips_other_objects (self : SimpleInvoice) :
  _item_raw_data_and_subtotal self
  = obind (sum_amounts (items_of (items self)))
          (fun item_subtotal =>
             Some (map item_row (items_of (items self)), item_subtotal)).
Proof. apply raw_data_and_subtotal_eq. Qed.
(* ================================================================== *)
(** * Sums that the context does not round                            *)
(* ================================================================== *)

Module DecSums.
Import Dec DecFacts.

Lemma aligned_shift m m' d :
  m <= m' <= dexp d -> aligned m d = aligned m' d * 10 ^ (m' - m).
Proof.
  intros H. unfold aligned.
  rewrite (pow10_split (dexp d - m) (m' - m)) by lia.
  replace (dexp d - m - (m' - m)) with (dexp d - m') by lia. lia.
Qed.

(** An addition whose exact result has at most [prec] digits, at an
    exponent the context holds, is exact. *)
Lemma add_exact a b m :
  Etiny <= m -> m <= dexp a <= 0 -> m <= dexp b ->
  Z.abs (aligned m a + aligned m b) < 10 ^ prec ->
  exists r, add a b = Some r /\ m <= dexp r <= 0 /\
            aligned m r = aligned m a + aligned m b.
Proof.
  intros Hm Ha Hb Hfit. unfold add. cbv zeta.
  set (m' := Z.min (dexp a) (dexp b)).
  set (v := aligned m' a + aligned m' b).
  set (s := if v =? 0 then is_zero a && is_zero b && dsign a && dsign b
            else v <? 0).
  assert (Hm' : m <= m' <= 0) by (unfold m'; lia).
  assert (Hv : aligned m a + aligned m b = v * 10 ^ (m' - m)).
  { rewrite (aligned_shift m m' a), (aligned_shift m m' b) by (unfold m'; lia).
    unfold v. lia. }
  assert (Hp : 1 <= 10 ^ (m' - m)) by (pose proof (pow10_pos (m' - m)); lia).
  assert (Hsmall : Z.abs v < 10 ^ prec).
  { rewrite Hv, Z.abs_mul, (Z.abs_eq (10 ^ (m' - m))) in Hfit by lia. nia. }
  assert (Hc : coeffZ (triple s (Z.abs v) m') = Z.abs v)
    by (apply coeffZ_triple; lia).
  assert (Hd : ndigits (Z.abs v) <= prec).
  { destruct (Z.eq_dec v 0) as [Hz|Hz].
    - rewrite Hz. cbn. unfold prec. lia.
    - apply ndigits_le_iff; [lia | unfold prec; lia | exact Hsmall]. }
  exists (triple s (Z.abs v) m'). split; [|split].
  - apply fix_small.
    + rewrite Hc. exact Hd.
    + cbn [triple dexp]. lia.
    + intros _. cbn [triple dexp]. unfold Emax. lia.
    + intros _. unfold adjusted. rewrite Hc. cbn [triple dexp].
      unfold Emax, prec in *. lia.
  - cbn [triple dexp]. lia.
  - rewrite Hv. unfold aligned at 1. cbn [triple dexp]. f_equal.
    rewrite signedZ_triple by lia. unfold s.
    destruct (Z.eqb_spec v 0) as [Hz|Hz].
    + destruct (_ && _); lia.
    + destruct (Z.ltb_spec v 0); lia.
Qed.

End DecSums.


Lemma sum_amounts_from_cons acc item items :
  sum_amounts_from (Some acc) (item :: items)
  = sum_amounts_from (Dec.add acc (item_amount item)) items.
Proof. reflexivity. Qed.

(** While the magnitudes fit, the running sum is the exact sum, in
    units of [10^m]. *)
Lemma sum_amounts_from_exact m items :
  forall acc,
    Dec.Etiny <= m -> m <= Dec.dexp acc <= 0 ->
    forallb (fun item => m <=? Dec.dexp (item_amount item)) items = true ->
    Z.abs (Dec.aligned m acc) + sum_of_magnitudes m items < 10 ^ Dec.prec ->
    exists sub,
      sum_amounts_from (Some acc) items = Some sub /\
      m <= Dec.dexp sub <= 0 /\
      Dec.aligned m sub = Dec.aligned m acc + sum_in_units m items.
Proof.
  induction items as [|item items IH]; intros acc Hm Hacc Hexp Hfit.
  - exists acc. cbn [sum_in_units fold_right]. repeat split; lia.
  - cbn [forallb] in Hexp. apply andb_prop in Hexp. destruct Hexp as [Hi Hexp].
    apply Z.leb_le in Hi. cbn [sum_of_magnitudes fold_right] in Hfit.
    fold (sum_of_magnitudes m items) in Hfit.
    assert (Hsum : 0 <= sum_of_magnitudes m items).
    { clear. induction items as [|i items IH]; cbn [sum_of_magnitudes fold_right];
        [lia|]. fold (sum_of_magnitudes m items). lia. }
    destruct (DecSums.add_exact acc (item_amount item) m Hm Hacc Hi)
      as (acc' & Hadd & Hacc' & Hval); [lia|].
    rewrite sum_amounts_from_cons, Hadd.
    destruct (IH acc' Hm Hacc' Hexp) as (sub & Hsub & Hd & Hv); [lia|].
    exists sub. split; [exact Hsub|]. split; [exact Hd|].
    rewrite Hv, Hval. cbn [sum_in_units fold_right].
    fold (sum_in_units m items). lia.
Qed.

Lemma exact_sum_in_units m items :
  forallb (fun item => m <=? Dec.dexp (item_amount item)) items = true ->
  (exact_sum items == inject_Z (sum_in_units m items) * Dec.pow10Q m)%Q.
Proof.
  induction items as [|item items IH]; intros Hexp.
  - cbn [exact_sum sum_in_units fold_right]. ring.
  - cbn [forallb] in Hexp. apply andb_prop in Hexp. destruct Hexp as [Hi Hexp].
    apply Z.leb_le in Hi. cbn [exact_sum sum_in_units fold_right].
    fold (exact_sum items). fold (sum_in_units m items).
    rewrite (IH Hexp), (DecFacts.to_Q_aligned m _ Hi), inject_Z_plus. ring.
Qed.

Lemma amounts_fit_spec m items :
  amounts_fit m items = true ->
  Dec.Etiny <= m <= 0 /\
  forallb (fun item => m <=? Dec.dexp (item_amount item)) items = true /\
  sum_of_magnitudes m items < 10 ^ Dec.prec.
Proof.
  unfold amounts_fit. intros H.
  apply andb_prop in H. destruct H as [H H4].
  apply andb_prop in H. destruct H as [H H3].
  apply andb_prop in H. destruct H as [H1 H2].
  apply Z.leb_le in H1. apply Z.leb_le in H2. apply Z.ltb_lt in H4.
  repeat split; assumption.
Qed.

Lemma sum_amounts_exact m items :
  amounts_fit m items = true ->
  exists sub, sum_amounts items = Some sub /\
              (Dec.to_Q sub == exact_sum items)%Q.
Proof.
  intros Hfit. destruct (amounts_fit_spec m _ Hfit) as (Hm & Hexp & Hmag).
  assert (H0 : Dec.aligned m (Dec.of_int 0) = 0) by reflexivity.
  destruct (sum_amounts_from_exact m items (Dec.of_int 0))
    as (sub & Hsub & Hd & Hv);
    [lia | change (Dec.dexp (Dec.of_int 0)) with 0; lia | exact Hexp
    | rewrite H0; cbn [Z.abs]; lia | ].
  exists sub. split; [exact Hsub|].
  rewrite (exact_sum_in_units m _ Hexp).
  rewrite (DecFacts.to_Q_aligned m sub) by lia. rewrite Hv, H0.
  cbn [Z.add]. reflexivity.
Qed.

(** X2: when every Item amount is a whole number of the unit [10^m]
    (a unit the context holds, no coarser than 1) and the magnitudes of
    the amounts add up to less than [10^28] units, the loop does not
    raise and its subtotal is the exact sum of the amounts: no rounding
    error builds up in the running Decimal sum. *)
Theorem subtotal_is_the_exact_sum (self : SimpleInvoice) (m : Z)
  (Hfit : amounts_fit m (items_of (items self)) = true) :
  exists item_subtotal,
    _item_raw_data_and_subtotal self
    = Some (map item_row (items_of (items self)), item_subtotal) /\
    (Dec.to_Q item_subtotal == exact_sum (items_of (items self)))%Q.
Proof.
  unfold items in *.
  destruct (sum_amounts_exact m _ Hfit) as (sub & Hsub & Hq).
  exists sub. split; [|exact Hq].
  rewrite raw_data_and_subtotal_eq, Hsub. reflexivity.
Qed.

Lemma subtotal_is_the_exact_sum_witness :
  exists item_subtotal,
    _item_raw_data_and_subtotal summary_doc
    = Some (map item_row (items_of (items summary_doc)), item_subtotal) /\
    (Dec.to_Q item_subtotal == exact_sum (items_of (items summary_doc)))%Q.
Proof.
  apply (subtotal_is_the_exact_sum summary_doc (-3)).
  vm_compute. reflexivity.
Defined.

(* ================================================================== *)
(** * What [finish] leaves alone                                      *)
(* ================================================================== *)

Lemma finish_state self self' :
  finish self = Some (tt, self') ->
  exists blocks,
    items_blocks self = Some blocks /\
    self' = with_paid_stamp
              (set_story (_story self ++ sections self blocks)
                         (with_aligned_logo self)).
Proof.
  rewrite finish_eq. destruct (items_blocks self) as [blocks|]; [|discriminate].
  intros H. injection H as <-. exists blocks. split; reflexivity.
Qed.

Lemma finish_keeps_inputs self self' :
  finish self = Some (tt, self') ->
  precision self' = precision self /\
  invoice_info self' = invoice_info self /\
  service_provider_info self' = service_provider_info self /\
  client_info self' = client_info self /\
  is_paid self' = is_paid self /\
  _items self' = _items self /\
  _item_tax_rate self' = _item_tax_rate self /\
  _transactions self' = _transactions self /\
  _bottom_tip self' = _bottom_tip self /\
  _bottom_tip_align self' = _bottom_tip_align self /\
  _logo self' = option_map aligned_logo (_logo self).
Proof.
  intros H. destruct (finish_state self self' H) as (blocks & _ & ->).
  unfold with_paid_stamp, with_aligned_logo.
  destruct (_logo self) as [img|] eqn:Hl;
    cbn [set_story set_logo is_paid];
    destruct (is_paid self) eqn:Hp; cbn; rewrite ?Hl, ?Hp;
    repeat split; reflexivity.
Qed.

(* ================================================================== *)
(** * The item and transaction lists                                  *)
(* ================================================================== *)

Lemma items_of_app a b : items_of (a ++ b) = items_of a ++ items_of b.
Proof.
  induction a as [|obj a IH]; [reflexivity|].
  destruct obj; cbn [app items_of]; rewrite IH; reflexivity.
Qed.

Lemma transactions_of_app a b :
  transactions_of (a ++ b) = transactions_of a ++ transactions_of b.
Proof.
  induction a as [|obj a IH]; [reflexivity|].
  destruct obj; cbn [app transactions_of]; rewrite IH; reflexivity.
Qed.

Lemma only_items_spec objs :
  forallb is_Item objs = true -> map ObjItem (items_of objs) = objs.
Proof.
  induction objs as [|obj objs IH]; [reflexivity|].
  cbn [forallb]. intros H. apply andb_prop in H. destruct H as [Ho H].
  destruct obj; try discriminate Ho. cbn [items_of map]. now rewrite IH.
Qed.

Lemma only_transactions_spec objs :
  forallb is_Transaction objs = true ->
  map ObjTransaction (transactions_of objs) = objs.
Proof.
  induction objs as [|obj objs IH]; [reflexivity|].
  cbn [forallb]. intros H. apply andb_prop in H. destruct H as [Ho H].
  destruct obj; try discriminate Ho. cbn [transactions_of map]. now rewrite IH.
Qed.

Lemma add_item_items obj self :
  _items (add_item obj self) = _items self ++ map ObjItem (items_of [obj]) /\
  _transactions (add_item obj self) = _transactions self.
Proof.
  unfold add_item. destruct obj; cbn; rewrite ?app_nil_r; split; reflexivity.
Qed.

Lemma add_transaction_transactions t self :
  _transactions (add_transaction t self)
  = _transactions self ++ map ObjTransaction (transactions_of [t]) /\
  _items (add_transaction t self) = _items self.
Proof.
  unfold add_transaction. destruct t; cbn; rewrite ?app_nil_r; split; reflexivity.
Qed.

(** X3: a document reached through the methods and public attributes
    holds only Items in its item list and only Transactions in its
    transaction list, whatever objects were handed to [add_item] and
    [add_transaction]; so the loops that build the tables skip
    nothing. *)
Theorem api_keeps_the_lists_well_kinded (self : SimpleInvoice)
  (Hbuilt : api_built self) :
  forallb is_Item (items self) = true /\
  forallb is_Transaction (transactions self) = true /\
  map ObjItem (items_of (items self)) = items self /\
  map ObjTransaction (transactions_of (transactions self)) = transactions self.
Proof.
  assert (H : forallb is_Item (items self) = true /\
              forallb is_Transaction (transactions self) = true).
  { unfold items, transactions.
    induction Hbuilt as [p | obj self Hb IH | t self Hb IH | | | | | | | |
                         self self' Hb IH Hf]; try exact IHHbuilt.
    - split; reflexivity.
    - destruct IH as [IHi IHt].
      destruct (add_item_items obj self) as [-> ->]. split; [|exact IHt].
      rewrite forallb_app, IHi. destruct obj; reflexivity.
    - destruct IH as [IHi IHt].
      destruct (add_transaction_transactions t self) as [-> ->].
      split; [exact IHi|].
      rewrite forallb_app, IHt. destruct t; reflexivity.
    - destruct (finish_keeps_inputs self self' Hf)
        as (_ & _ & _ & _ & _ & -> & _ & -> & _). exact IH. }
  destruct H as [Hi Ht]. split; [exact Hi|]. split; [exact Ht|].
  split; [apply only_items_spec | apply only_transactions_spec]; assumption.
Qed.

Lemma api_keeps_the_lists_well_kinded_witness :
  forallb is_Item (items summary_doc) = true /\
  forallb is_Transaction (transactions summary_doc) = true /\
  map ObjItem (items_of (items summary_doc)) = items summary_doc /\
  map ObjTransaction (transactions_of (transactions summary_doc))
  = transactions summary_doc.
Proof.
  apply (api_keeps_the_lists_well_kinded summary_doc).
  unfold summary_doc. repeat constructor.
Defined.

(** X4: objects handed to [add_item] one after the other leave, after
    the items already stored, exactly the Items among them in call
    order; [add_transaction] does the same for the Transactions, and
    neither touches the other list. *)
Theorem additions_keep_call_order (objs : list PyObject)
  (self : SimpleInvoice) :
  items (fold_left (fun s obj => add_item obj s) objs self)
  = items self ++ map ObjItem (items_of objs) /\
  transactions (fold_left (fun s obj => add_item obj s) objs self)
  = transactions self /\
  transactions (fold_left (fun s obj => add_transaction obj s) objs self)
  = transactions self ++ map ObjTransaction (transactions_of objs) /\
  items (fold_left (fun s obj => add_transaction obj s) objs self)
  = items self.
Proof.
  unfold items, transactions. revert self.
  induction objs as [|obj objs IH]; intros self.
  - cbn. rewrite !app_nil_r. repeat split.
  - cbn [fold_left].
    destruct (IH (add_item obj self)) as (Hi & Ht & _).
    destruct (IH (add_transaction obj self)) as (_ & _ & Hti & Hit).
    rewrite Hi, Ht, Hti, Hit.
    destruct (add_item_items obj self) as [-> ->].
    destruct (add_transaction_transactions obj self) as [-> ->].
    rewrite <- !app_assoc, <- !map_app.
    change (obj :: objs) with ([obj] ++ objs).
    rewrite items_of_app, transactions_of_app. repeat split.
Qed.

(* ================================================================== *)
(** * The transactions table                                          *)
(* ================================================================== *)

Lemma transaction_rows_eq objs :
  transaction_rows objs = map transaction_row (transactions_of objs).
Proof.
  induction objs as [|obj objs IH]; [reflexivity|].
  destruct obj; cbn [transaction_rows transactions_of map]; rewrite IH;
    reflexivity.
Qed.

(** X5: the transactions table is empty when the list holds no
    Transaction (no lone title row), and otherwise is the title row
    followed by one row per Transaction, in list order, objects of
    another kind being passed over; every row has four cells. *)
Theorem transactions_table_rows (self : SimpleInvoice) :
  _transactions_data self
  = match transactions_of (transactions self) with
    | [] => []
    | ts => transaction_title :: map transaction_row ts
    end /\
  Forall (fun row : Row => List.length row = 4%nat) (_transactions_data self) /\
  List.length (_transactions_data self)
  = match transactions_of (transactions self) with
    | [] => 0%nat
    | ts => S (List.length ts)
    end.
Proof.
  unfold _transactions_data, transactions. rewrite transaction_rows_eq.
  destruct (transactions_of (_transactions self)) as [|t ts]; cbn [map].
  - repeat split. constructor.
  - split; [reflexivity|]. split.
    + constructor; [reflexivity|]. constructor; [reflexivity|].
      apply Forall_forall. intros row Hin. apply in_map_iff in Hin.
      destruct Hin as (t' & <- & _). reflexivity.
    + cbn [List.length]. now rewrite length_map.
Qed.

(* ================================================================== *)
(** * The items table of any document                                 *)
(* ================================================================== *)

(** The items table of a document, with or without a tax rate and
    whatever its item list holds. *)
Lemma items_table_eq self :
  items_table self
  = match items_of (_items self) with
    | [] => Some ([], [])
    | its =>
      obind (sum_amounts its) (fun sub =>
      obind (getroundeddecimal sub (precision self)) (fun rounditem_subtotal =>
      match _item_tax_rate self with
      | Some rate =>
        obind (raw_tax rate sub) (fun tax_total =>
        obind (getroundeddecimal tax_total (precision self))
              (fun roundtax_total =>
        obind (total_from_raw_sum (precision self) rate sub) (fun roundtotal =>
          Some (item_data_title :: map item_row its ++
                  [summary_row "Subtotal" rounditem_subtotal;
                   summary_row ("Vat/Tax (" ++ rate_str rate ++ "%)")%string
                               roundtax_total;
                   summary_row "Total" roundtotal],
                summary_style (Z.of_nat (List.length its) + 1) true))))
      | None =>
        obind (Dec.add sub (Dec.of_int 0)) (fun total =>
        obind (getroundeddecimal total (precision self)) (fun roundtotal =>
          Some (item_data_title :: map item_row its ++
                  [summary_row "Subtotal" rounditem_subtotal;
                   summary_row "Total" roundtotal],
                summary_style (Z.of_nat (List.length its) + 1) false)))
      end))
    end.
Proof.
  unfold items_table, _item_data_and_style, bind, call, lift, gets, ret,
    story_append.
  rewrite raw_data_and_subtotal_eq.
  destruct (items_of (_items self)) as [|item items] eqn:Hits;
    [reflexivity|].
  destruct (sum_amounts (item :: items)) as [sub|]; [|reflexivity].
  cbn [obind map].
  cbn [precision _item_tax_rate set_story _story app fst snd].
  destruct (getroundeddecimal sub (precision self)) as [rs|]; [|reflexivity].
  cbn [precision _item_tax_rate set_story _story app fst snd obind].
  assert (Hlen : Z.of_nat (S (S (List.length (map item_row items))))
                 = Z.of_nat (S (List.length items)) + 1)
    by (rewrite length_map; lia).
  destruct (_item_tax_rate self) as [rate|].
  - unfold total_from_raw_sum, raw_tax.
    destruct (Dec.div (rate_decimal rate) (Dec.of_int 100)) as [fraction|];
      [|reflexivity]. cbn [obind].
    destruct (Dec.mul sub fraction) as [tax_total|]; [|reflexivity].
    cbn [obind].
    destruct (getroundeddecimal tax_total (precision self)) as [rt|];
      [|reflexivity]. cbn [obind].
    destruct (Dec.add sub (if Dec.truthy tax_total then tax_total
                           else Dec.of_int 0))
      as [total|]; [|reflexivity]. cbn [obind].
    destruct (getroundeddecimal total (precision self)) as [rtot|];
      [|reflexivity]. cbn [obind option_map fst].
    f_equal. f_equal.
    + rewrite <- ?app_assoc. cbn [app]. rewrite <- ?app_assoc. reflexivity.
    + unfold summary_style. cbn [List.length app]. rewrite Hlen. reflexivity.
  - destruct (Dec.add sub (Dec.of_int 0)) as [total|]; [|reflexivity].
    cbn [obind].
    destruct (getroundeddecimal total (precision self)) as [rtot|];
      [|reflexivity]. cbn [obind option_map fst].
    f_equal. f_equal.
    + rewrite <- ?app_assoc. cbn [app]. rewrite <- ?app_assoc. reflexivity.
    + unfold summary_style. cbn [List.length app]. rewrite Hlen. reflexivity.
Qed.

Lemma summary_style_rows y taxed :
  summary_style y taxed = summary_rows_style y (if taxed then 3 else 2).
Proof.
  unfold summary_style, summary_rows_style, summary_row_style.
  destruct taxed; cbn [seq flat_map app Z.of_nat];
    replace (y + 0) with y by lia;
    replace (y + Z.pos (Pos.of_succ_nat 0)) with (y + 1) by lia;
    replace (y + Z.pos (Pos.of_succ_nat 1)) with (y + 1 + 1) by lia;
    reflexivity.
Qed.

(** A non-empty items table is the title row, one row per Item and the
    summary rows, with the directives of exactly these summary rows. *)
Lemma items_table_shape self data style :
  items_table self = Some (data, style) -> data <> [] ->
  exists summary,
    data = item_data_title :: map item_row (items_of (_items self)) ++ summary /\
    Forall is_summary_row summary /\
    List.length summary
    = (match _item_tax_rate self with Some _ => 3 | None => 2 end)%nat /\
    style = summary_rows_style
              (Z.of_nat (List.length (items_of (_items self))) + 1)
              (List.length summary).
Proof.
  rewrite items_table_eq. intros H Hne. revert H.
  destruct (items_of (_items self)) as [|item items]; cbv beta iota zeta;
    [intros H; injection H as <- _; contradiction|].
  destruct (sum_amounts (item :: items)) as [sub|]; cbn [obind];
    [|intros Hn; discriminate Hn].
  destruct (getroundeddecimal sub (precision self)) as [rs|]; cbn [obind];
    [|intros Hn; discriminate Hn].
  destruct (_item_tax_rate self) as [rate|].
  - destruct (raw_tax rate sub) as [tax|]; cbn [obind]; [|intros Hn; discriminate Hn].
    destruct (getroundeddecimal tax (precision self)) as [rt|]; cbn [obind];
      [|intros Hn; discriminate Hn].
    destruct (total_from_raw_sum (precision self) rate sub) as [rtot|];
      cbn [obind]; [|intros Hn; discriminate Hn].
    intros H. injection H as <- <-. eexists. split; [reflexivity|].
    split; [|split; [reflexivity|apply (summary_style_rows _ true)]].
    repeat constructor; eexists; eexists; reflexivity.
  - destruct (Dec.add sub (Dec.of_int 0)) as [total|]; cbn [obind];
      [|intros Hn; discriminate Hn].
    destruct (getroundeddecimal total (precision self)) as [rtot|];
      cbn [obind]; [|intros Hn; discriminate Hn].
    intros H. injection H as <- <-. eexists. split; [reflexivity|].
    split; [|split; [reflexivity|apply (summary_style_rows _ false)]].
    repeat constructor; eexists; eexists; reflexivity.
Qed.

(** X6: every row of the items table, the title row, the item rows and
    the summary rows alike, has five cells. *)
Theorem items_table_rows_have_five_cells (self : SimpleInvoice)
  (data : list Row) (style : list StyleCmd)
  (Htable : items_table self = Some (data, style)) :
  Forall (fun row : Row => List.length row = 5%nat) data.
Proof.
  destruct data as [|row data]; [constructor|].
  destruct (items_table_shape self _ _ Htable) as (summary & -> & Hs & _);
    [discriminate|].
  constructor; [reflexivity|]. apply Forall_app. split.
  - apply Forall_forall. intros r Hin. apply in_map_iff in Hin.
    destruct Hin as (item & <- & _). reflexivity.
  - eapply Forall_impl; [|exact Hs]. intros r (label & amount & ->). reflexivity.
Qed.

Lemma items_table_rows_have_five_cells_witness :
  exists data style,
    items_table summary_doc = Some (data, style) /\
    Forall (fun row : Row => List.length row = 5%nat) data.
Proof.
  let r := eval vm_compute in (items_table summary_doc) in
  match r with
  | Some (?data, ?style) =>
      assert (Htable : items_table summary_doc = Some (data, style))
        by (vm_compute; reflexivity);
      exists data, style; split;
      [exact Htable
      | exact (items_table_rows_have_five_cells summary_doc data style Htable)]
  end.
Defined.

(** X7: in a non-empty items table the style directives address exactly
    the summary rows: with [n] Items the table is the title row, the
    [n] item rows and then 3 summary rows under a tax rate and 2
    without one, and the directives are one SPAN and one ALIGN for each
    of the rows [n + 1], [n + 2], ... that hold them. *)
Theorem summary_directives_address_summary_rows (self : SimpleInvoice)
  (data : list Row) (style : list StyleCmd)
  (Htable : items_table self = Some (data, style)) (Hne : data <> []) :
  exists summary,
    let n := List.length (items_of (items self)) in
    data = item_data_title :: map item_row (items_of (items self)) ++ summary /\
    Forall is_summary_row summary /\
    List.length summary
    = (match _item_tax_rate self with Some _ => 3 | None => 2 end)%nat /\
    style = summary_rows_style (Z.of_nat n + 1) (List.length summary) /\
    forall i, (i < List.length summary)%nat ->
              nth_error data (n + 1 + i) = nth_error summary i.
Proof.
  destruct (items_table_shape self data style Htable Hne)
    as (summary & Hdata & Hs & Hlen & Hstyle).
  exists summary. unfold items. cbn zeta.
  split; [exact Hdata|]. split; [exact Hs|]. split; [exact Hlen|].
  split; [exact Hstyle|].
  intros i Hi. rewrite Hdata.
  replace (List.length (items_of (_items self)) + 1 + i)%nat
    with (S (List.length (map item_row (items_of (_items self))) + i))
    by (rewrite length_map; lia).
  cbn [nth_error]. rewrite nth_error_app2 by lia. f_equal. lia.
Qed.

Lemma summary_directives_address_summary_rows_witness :
  exists data style summary,
    items_table summary_doc = Some (data, style) /\
    data = item_data_title :: map item_row (items_of (items summary_doc))
           ++ summary /\
    List.length summary = 3%nat /\
    style = summary_rows_style 3 3.
Proof.
  let r := eval vm_compute in (items_table summary_doc) in
  match r with
  | Some (?data, ?style) =>
      assert (Htable : items_table summary_doc = Some (data, style))
        by (vm_compute; reflexivity);
      destruct (summary_directives_address_summary_rows summary_doc data style
                  Htable ltac:(discriminate))
        as (summary & Hdata & _ & Hlen & Hstyle & _);
      exists data, style, summary;
      split; [exact Htable|]; split; [exact Hdata|]; split;
      [exact Hlen | rewrite Hstyle, Hlen; reflexivity]
  end.
Defined.

(** X8: with no tax rate set, a document with at least one Item whose
    subtotal can be summed and rounded gets an items table with two
    summary rows and four directives and no tax row: the Subtotal row
    prints the rounded subtotal, and the Total row prints the same
    figure, only a subtotal that is a negative zero coming out as a
    positive zero; with no negative amount the two rows carry the same
    decimal. *)
Theorem untaxed_total_is_the_subtotal (self : SimpleInvoice)
  (item_subtotal rounditem_subtotal : Dec.Decimal)
  (Hrate : _item_tax_rate self = None)
  (Hne : items_of (items self) <> [])
  (Hsum : sum_amounts (items_of (items self)) = Some item_subtotal)
  (Hround : getroundeddecimal item_subtotal (precision self)
            = Some rounditem_subtotal) :
  option_map fst (_item_data_and_style self)
  = Some (item_data_title :: map item_row (items_of (items self)) ++
            [summary_cells "Subtotal" (Dec.format_2f rounditem_subtotal);
             summary_cells "Total"
               (Dec.format_2f
                  (if Dec.is_zero item_subtotal && Dec.dsign item_subtotal
                   then Dec.triple false 0 (Dec.dexp (precision self))
                   else rounditem_subtotal))],
          summary_row_style
            (Z.of_nat (List.length (items_of (items self))) + 1) ++
          summary_row_style
            (Z.of_nat (List.length (items_of (items self))) + 2)) /\
  (forallb (fun item => Dec.nonneg (item_amount item)) (items_of (items self))
   = true -> Dec.is_zero item_subtotal && Dec.dsign item_subtotal = false).
Proof.
  unfold items in *.
  assert (Hfixed : Dec.fixed item_subtotal).
  { destruct (sum_amounts_from_fixed _ (Dec.of_int 0) _ Hsum)
      as [[Hnil _]|Hf]; [contradiction | exact Hf]. }
  destruct (plus_zero_rounds _ _ _ Hfixed Hround) as (total & Hadd & Hrt).
  split.
  - fold (items_table self). rewrite items_table_eq, Hrate.
    destruct (items_of (_items self)) as [|item its] eqn:Hits;
      [contradiction|].
    cbv beta iota zeta. rewrite Hsum. cbn [obind]. rewrite Hround.
    cbn [obind]. rewrite Hadd. cbn [obind]. rewrite Hrt. cbn [obind].
    unfold summary_style, summary_row_style.
    replace (Z.of_nat (List.length (item :: its)) + 2)
      with (Z.of_nat (List.length (item :: its)) + 1 + 1) by lia.
    reflexivity.
  - intros Hnonneg.
    rewrite (sum_amounts_from_sign _ (Dec.of_int 0) _ eq_refl Hnonneg Hsum).
    apply andb_false_r.
Qed.

Lemma untaxed_total_is_the_subtotal_witness :
  option_map (fun r => skipn 2 (fst (fst r))) (_item_data_and_style untaxed_doc)
  = Some [[CVal (VStr "Subtotal"); CVal (VStr ""); CVal (VStr "");
           CVal (VStr ""); CVal (VStr "12.50")];
          [CVal (VStr "Total"); CVal (VStr ""); CVal (VStr "");
           CVal (VStr ""); CVal (VStr "12.50")]].
Proof.
  pose proof (proj1 (untaxed_total_is_the_subtotal untaxed_doc
                       (dec 1250 (-2)) (dec 1250 (-2))
                       eq_refl ltac:(discriminate) eq_refl eq_refl)) as Htable.
  destruct (_item_data_and_style untaxed_doc) as [[table self']|];
    [|discriminate Htable].
  cbn [option_map fst] in *. injection Htable as ->. vm_compute. reflexivity.
Defined.

(* ================================================================== *)
(** * Round-half-up as a function of the number                       *)
(* ================================================================== *)

Module DecRounding.
Import Dec DecFacts.

Lemma round_coeff_half_up c k :
  0 <= c -> 0 <= k ->
  round_coeff ROUND_HALF_UP c k = (2 * c + 10 ^ k) / (2 * 10 ^ k).
Proof.
  intros Hc Hk. unfold round_coeff, rounds_up.
  pose proof (pow10_pos k Hk) as HT.
  pose proof (Z.div_mod c (10 ^ k) ltac:(lia)) as Hdm.
  pose proof (Z.mod_pos_bound c (10 ^ k) HT) as Hr.
  destruct (Z.leb_spec (10 ^ k) (2 * (c mod 10 ^ k))) as [Hup|Hdown].
  - apply (Z.div_unique _ _ _ (2 * (c mod 10 ^ k) - 10 ^ k)); lia.
  - apply (Z.div_unique _ _ _ (2 * (c mod 10 ^ k) + 10 ^ k)); lia.
Qed.

Lemma half_up_steps_exact j U : 0 < U -> half_up_steps (j * U) U = j.
Proof.
  intros HU. unfold half_up_steps.
  assert (H : (2 * Z.abs (j * U) + U) / (2 * U) = Z.abs j).
  { symmetry. apply (Z.div_unique _ _ _ U); [lia|].
    rewrite Z.abs_mul, (Z.abs_eq U) by lia. lia. }
  rewrite H. destruct (Z.lt_trichotomy j 0) as [Hj|[->|Hj]].
  - rewrite Z.sgn_neg by nia. lia.
  - reflexivity.
  - rewrite Z.sgn_pos by nia. lia.
Qed.

Lemma half_up_steps_mono X Y U :
  0 < U -> X <= Y -> half_up_steps X U <= half_up_steps Y U.
Proof.
  intros HU Hle. unfold half_up_steps.
  assert (Hg : forall a, 0 <= (2 * Z.abs a + U) / (2 * U))
    by (intros a; apply Z.div_pos; lia).
  assert (Hm : forall a b, Z.abs a <= Z.abs b ->
                 (2 * Z.abs a + U) / (2 * U) <= (2 * Z.abs b + U) / (2 * U))
    by (intros a b Hab; apply Z.div_le_mono; lia).
  pose proof (Hg X) as HgX. pose proof (Hg Y) as HgY.
  pose proof (Hm X Y) as HXY. pose proof (Hm Y X) as HYX.
  set (gX := (2 * Z.abs X + U) / (2 * U)) in *.
  set (gY := (2 * Z.abs Y + U) / (2 * U)) in *.
  destruct (Z.sgn_spec X) as [[HX ->]|[[HX ->]|[HX ->]]];
    destruct (Z.sgn_spec Y) as [[HY ->]|[[HY ->]|[HY ->]]]; lia.
Qed.

(** The signed coefficient [_rescale] returns under ROUND_HALF_UP, from
    the number counted in any units [10^m] fine enough for it. *)
Lemma rescale_half_up_steps x e m :
  m <= dexp x -> m <= e ->
  signedZ (_rescale x e ROUND_HALF_UP)
  = half_up_steps (aligned m x) (10 ^ (e - m)).
Proof.
  intros Hx He. unfold _rescale.
  pose proof (coeffZ_nonneg x) as Hc.
  pose proof (pow10_pos (e - m) ltac:(lia)) as HU.
  pose proof (pow10_pos (dexp x - m) ltac:(lia)) as HW.
  assert (Hsg : forall c, 0 <= c ->
            signedZ (triple (dsign x) c e) = if dsign x then - c else c)
    by (intros; now apply signedZ_triple).
  destruct (is_zero x) eqn:Hz.
  - apply is_zero_true in Hz. rewrite Hsg by lia.
    unfold aligned, signedZ. rewrite Hz.
    destruct (dsign x); reflexivity.
  - apply is_zero_false in Hz.
    destruct (Z.leb_spec e (dexp x)) as [Hle|Hgt].
    + pose proof (pow10_pos (dexp x - e) ltac:(lia)) as HV.
      rewrite Hsg by nia.
      assert (Ha : aligned m x
                   = (if dsign x then - (coeffZ x * 10 ^ (dexp x - e))
                      else coeffZ x * 10 ^ (dexp x - e)) * 10 ^ (e - m)).
      { unfold aligned, signedZ.
        rewrite (pow10_split (dexp x - m) (e - m)) by lia.
        replace (dexp x - m - (e - m)) with (dexp x - e) by lia.
        destruct (dsign x); lia. }
      rewrite Ha, half_up_steps_exact by lia. reflexivity.
    + rewrite Hsg by (apply round_coeff_nonneg; lia).
      rewrite round_coeff_half_up by lia.
      pose proof (pow10_pos (e - dexp x) ltac:(lia)) as HT.
      assert (HUT : 10 ^ (e - m) = 10 ^ (e - dexp x) * 10 ^ (dexp x - m)).
      { rewrite <- Z.pow_add_r by lia. f_equal. lia. }
      unfold half_up_steps. rewrite HUT.
      assert (Habs : Z.abs (aligned m x) = coeffZ x * 10 ^ (dexp x - m)).
      { unfold aligned. rewrite Z.abs_mul, signedZ_abs, Z.abs_eq by lia.
        reflexivity. }
      rewrite Habs.
      replace (2 * (coeffZ x * 10 ^ (dexp x - m))
               + 10 ^ (e - dexp x) * 10 ^ (dexp x - m))
        with ((2 * coeffZ x + 10 ^ (e - dexp x)) * 10 ^ (dexp x - m)) by lia.
      replace (2 * (10 ^ (e - dexp x) * 10 ^ (dexp x - m)))
        with (2 * 10 ^ (e - dexp x) * 10 ^ (dexp x - m)) by lia.
      rewrite Z.div_mul_cancel_r by lia.
      unfold aligned, signedZ. destruct (dsign x).
      * rewrite Z.sgn_neg by nia. lia.
      * rewrite Z.sgn_pos by nia. lia.
Qed.

Lemma to_Q_le_aligned m x y :
  m <= dexp x -> m <= dexp y ->
  ((to_Q x <= to_Q y)%Q <-> aligned m x <= aligned m y).
Proof.
  intros Hx Hy. rewrite (to_Q_aligned m x Hx), (to_Q_aligned m y Hy).
  rewrite Qmult_le_r by apply pow10Q_pos. rewrite <- Zle_Qle. tauto.
Qed.

Lemma to_Q_same_exp r1 r2 :
  dexp r1 = dexp r2 ->
  ((to_Q r1 <= to_Q r2)%Q <-> signedZ r1 <= signedZ r2).
Proof.
  intros He. unfold to_Q. rewrite He.
  rewrite Qmult_le_r by apply pow10Q_pos. rewrite <- Zle_Qle. tauto.
Qed.

Lemma rescale_half_up_mono x y e :
  (to_Q x <= to_Q y)%Q ->
  (to_Q (_rescale x e ROUND_HALF_UP) <= to_Q (_rescale y e ROUND_HALF_UP))%Q.
Proof.
  intros Hle. set (m := Z.min (dexp x) (Z.min (dexp y) e)).
  apply to_Q_same_exp; [now rewrite !rescale_exp|].
  rewrite (rescale_half_up_steps x e m), (rescale_half_up_steps y e m)
    by (unfold m; lia).
  apply half_up_steps_mono; [apply pow10_pos; unfold m; lia|].
  apply (to_Q_le_aligned m x y); [unfold m; lia | unfold m; lia | exact Hle].
Qed.

Lemma rescale_neg x e rd :
  _rescale (dec_neg x) e rd = dec_neg (_rescale x e rd).
Proof.
  destruct x as [s c ex]. unfold _rescale, dec_neg, is_zero, coeffZ, triple.
  cbn [dsign dcoeff dexp].
  destruct (Z.of_N c =? 0); [reflexivity|].
  destruct (e <=? ex); reflexivity.
Qed.

Lemma fix_neg d : _fix (dec_neg d) = option_map dec_neg (_fix d).
Proof.
  destruct d as [s c e]. unfold _fix, dec_neg, is_zero, coeffZ, triple.
  cbn [dsign dcoeff dexp].
  repeat match goal with
         | |- context [if ?b then _ else _] => destruct b
         end; reflexivity.
Qed.

Lemma quantize_neg x p rd :
  quantize (dec_neg x) p rd = option_map dec_neg (quantize x p rd).
Proof.
  unfold quantize.
  change (is_zero (dec_neg x)) with (is_zero x).
  change (adjusted (dec_neg x)) with (adjusted x).
  rewrite rescale_neg.
  change (adjusted (dec_neg (_rescale x (dexp p) rd)))
    with (adjusted (_rescale x (dexp p) rd)).
  change (coeffZ (dec_neg (_rescale x (dexp p) rd)))
    with (coeffZ (_rescale x (dexp p) rd)).
  change (triple (dsign (dec_neg x)) 0 (dexp p))
    with (dec_neg (triple (dsign x) 0 (dexp p))).
  rewrite !fix_neg.
  repeat match goal with
         | |- context [if ?b then _ else _] => destruct b
         end; reflexivity.
Qed.

End DecRounding.

(** X9: rounding keeps the order of the numbers: of two values that
    [getroundeddecimal] rounds at the same precision, the smaller one
    never gets the larger result; so two decimals that denote the same
    number, however they are written, round to the same number. *)
Theorem getroundeddecimal_is_monotone (x y p rx ry : Dec.Decimal)
  (Hx : getroundeddecimal x p = Some rx)
  (Hy : getroundeddecimal y p = Some ry) :
  ((Dec.to_Q x <= Dec.to_Q y)%Q -> (Dec.to_Q rx <= Dec.to_Q ry)%Q) /\
  ((Dec.to_Q x == Dec.to_Q y)%Q -> (Dec.to_Q rx == Dec.to_Q ry)%Q).
Proof.
  apply DecFacts.quantize_Some in Hx. destruct Hx as [-> _].
  apply DecFacts.quantize_Some in Hy. destruct Hy as [-> _].
  split.
  - apply DecRounding.rescale_half_up_mono.
  - intros Heq. apply Qle_antisym;
      apply DecRounding.rescale_half_up_mono; rewrite Heq; apply Qle_refl.
Qed.

Lemma getroundeddecimal_is_monotone_witness :
  (Dec.to_Q (dec 1004 (-3)) <= Dec.to_Q (dec 1005 (-3)))%Q /\
  (Dec.to_Q (dec 100 (-2)) <= Dec.to_Q (dec 101 (-2)))%Q.
Proof.
  assert (H : (Dec.to_Q (dec 1004 (-3)) <= Dec.to_Q (dec 1005 (-3)))%Q)
    by (vm_compute; discriminate).
  split; [exact H|].
  exact (proj1 (getroundeddecimal_is_monotone
                  (dec 1004 (-3)) (dec 1005 (-3)) (dec 1 (-2))
                  (dec 100 (-2)) (dec 101 (-2)) eq_refl eq_refl) H).
Defined.

(** X10: rounding is symmetric about zero: the negation of a value
    rounds to the negation of what the value rounds to, so a tie goes
    away from zero on both sides, and it is refused exactly when the
    value is. *)
Theorem getroundeddecimal_of_negation (x p : Dec.Decimal) :
  getroundeddecimal (dec_neg x) p
  = option_map dec_neg (getroundeddecimal x p).
Proof. apply DecRounding.quantize_neg. Qed.

(** X11: a value that is already a whole multiple of ten to the
    precision's exponent is rounded to the same number: rounding only
    rewrites it with the exponent of the precision. *)
Theorem getroundeddecimal_keeps_multiples (x p r : Dec.Decimal)
  (Hmult : Dec.multiple_of x (Dec.triple false 1 (Dec.dexp p)))
  (Hround : getroundeddecimal x p = Some r) :
  (Dec.to_Q r == Dec.to_Q x)%Q /\ Dec.dexp r = Dec.dexp p.
Proof.
  apply DecFacts.quantize_Some in Hround. destruct Hround as [-> _].
  split; [|apply DecFacts.rescale_exp].
  destruct Hmult as [k Hk].
  set (e := Dec.dexp p) in *. set (m := Z.min (Dec.dexp x) e).
  assert (HU : 0 < 10 ^ (e - m)) by (apply DecFacts.pow10_pos; unfold m; lia).
  assert (Hunit : (Dec.to_Q (Dec.triple false 1 e)
                   == inject_Z (10 ^ (e - m)) * Dec.pow10Q m)%Q).
  { rewrite (DecFacts.to_Q_aligned m) by (cbn [Dec.triple Dec.dexp]; unfold m; lia).
    unfold Dec.aligned. cbn [Dec.triple Dec.dexp].
    rewrite DecFacts.signedZ_triple by lia. rewrite Z.mul_1_l. reflexivity. }
  assert (HP : ~ (Dec.pow10Q m == 0)%Q).
  { pose proof (DecFacts.pow10Q_pos m) as HP. intros H0. rewrite H0 in HP.
    discriminate HP. }
  assert (HX : Dec.aligned m x = k * 10 ^ (e - m)).
  { apply inject_Z_injective. apply (Qmult_inj_r _ _ (Dec.pow10Q m) HP).
    rewrite <- (DecFacts.to_Q_aligned m x) by (unfold m; lia).
    rewrite Hk, Hunit, inject_Z_mult. ring. }
  unfold Dec.to_Q at 1. rewrite DecFacts.rescale_exp.
  rewrite (DecRounding.rescale_half_up_steps x e m) by (unfold m; lia).
  rewrite HX, DecRounding.half_up_steps_exact by lia.
  rewrite Hk. unfold Dec.to_Q at 1. cbn [Dec.triple Dec.dexp].
  rewrite DecFacts.signedZ_triple by lia. ring.
Qed.

Lemma getroundeddecimal_keeps_multiples_witness :
  (Dec.to_Q (dec 150 (-2)) == Dec.to_Q (dec 15 (-1)))%Q /\
  Dec.dexp (dec 150 (-2)) = -2.
Proof.
  apply (getroundeddecimal_keeps_multiples (dec 15 (-1)) (dec 1 (-2))).
  - exists 150. vm_compute. reflexivity.
  - vm_compute. reflexivity.
Defined.

(* ================================================================== *)
(** * Running [finish]                                                *)
(* ================================================================== *)

Lemma dict_get_set_other {V} key other (v : V) d :
  other <> key -> dict_get other (dict_set key v d) = dict_get other d.
Proof.
  intros Hne. induction d as [|[k u] d IH]; cbn [dict_set dict_get].
  - destruct (String.eqb_spec key other) as [->|_]; [contradiction|reflexivity].
  - destruct (String.eqb_spec k key) as [->|Hk]; cbn [dict_get].
    + destruct (String.eqb_spec key other) as [->|_];
        [contradiction|reflexivity].
    + rewrite IH. reflexivity.
Qed.

Lemma kwargs_with_paid_stamp self :
  _build_kwargs (with_paid_stamp self)
  = if is_paid self
    then dict_set "onFirstPage" (PaidStamp (3 * inch) (-2 * inch))
                  (_build_kwargs self)
    else _build_kwargs self.
Proof. unfold with_paid_stamp. destruct (is_paid self); reflexivity. Qed.

Lemma is_paid_aligned story self :
  is_paid (set_story story (with_aligned_logo self)) = is_paid self.
Proof. unfold with_aligned_logo. destruct (_logo self); reflexivity. Qed.

Lemma kwargs_aligned story self :
  _build_kwargs (set_story story (with_aligned_logo self)) = _build_kwargs self.
Proof. unfold with_aligned_logo. destruct (_logo self); reflexivity. Qed.

(** X13: [finish] changes the story, the alignment of the logo and the
    build argument 'onFirstPage', and nothing else: the precision, the
    three entities, the paid flag, the item and transaction lists, the
    tax rate, the bottom tip, the file of the logo and every other
    build argument are as before. *)
Theorem finish_keeps_the_document_data (self self' : SimpleInvoice)
  (Hfinish : finish self = Some (tt, self')) :
  precision self' = precision self /\
  invoice_info self' = invoice_info self /\
  service_provider_info self' = service_provider_info self /\
  client_info self' = client_info self /\
  is_paid self' = is_paid self /\
  items self' = items self /\
  _item_tax_rate self' = _item_tax_rate self /\
  transactions self' = transactions self /\
  _bottom_tip self' = _bottom_tip self /\
  _bottom_tip_align self' = _bottom_tip_align self /\
  option_map filename (_logo self') = option_map filename (_logo self) /\
  forall key, key <> "onFirstPage" ->
    dict_get key (_build_kwargs self') = dict_get key (_build_kwargs self).
Proof.
  destruct (finish_keeps_inputs self self' Hfinish)
    as (Hp & Hi & Hs & Hc & Hpaid & Hit & Hr & Ht & Hb & Hba & Hl).
  unfold items, transactions. repeat (split; [assumption|]).
  split; [rewrite Hl; destruct (_logo self); reflexivity|].
  intros key Hkey.
  destruct (finish_state self self' Hfinish) as (blocks & _ & ->).
  rewrite kwargs_with_paid_stamp, is_paid_aligned, kwargs_aligned.
  destruct (is_paid self); [apply dict_get_set_other; exact Hkey | reflexivity].
Qed.

Lemma finish_keeps_the_document_data_witness :
  exists self',
    finish summary_doc = Some (tt, self') /\
    items self' = items summary_doc /\
    _item_tax_rate self' = _item_tax_rate summary_doc.
Proof.
  let r := eval vm_compute in (finish summary_doc) in
  match r with
  | Some (tt, ?self1) =>
      assert (Hfinish : finish summary_doc = Some (tt, self1))
        by (vm_compute; reflexivity);
      destruct (finish_keeps_the_document_data summary_doc self1 Hfinish)
        as (_ & _ & _ & _ & _ & Hi & Hr & _);
      exists self1; repeat split; assumption
  end.
Defined.

(* ================================================================== *)
(** * The attribute table: a missing attribute, and its size          *)
(* ================================================================== *)

Section AttributeTableBounds.
Context {T : Type} `{HasAttr T} (instance : T).

Lemma attribute_fold_None props :
  fold_left (attribute_row instance) props None = None.
Proof.
  induction props as [|[property_name verbose_name] props IH];
    [reflexivity | exact IH].
Qed.

Lemma attribute_fold_missing props p :
  In p props -> getattr instance (fst p) = None ->
  forall acc, fold_left (attribute_row instance) props acc = None.
Proof.
  intros Hin Hmiss. induction props as [|q props IH]; [contradiction|].
  intros acc. cbn [fold_left]. destruct Hin as [->|Hin].
  - destruct p as [property_name verbose_name]. cbn [fst] in Hmiss.
    unfold attribute_row. rewrite Hmiss.
    destruct acc; cbn [obind]; apply attribute_fold_None.
  - apply IH. exact Hin.
Qed.

Lemma attribute_fold_bounds props :
  forall acc rows,
    fold_left (attribute_row instance) props (Some acc) = Some rows ->
    (List.length rows <= List.length acc + List.length props)%nat /\
    (Forall (fun row : Row => List.length row = 2%nat) acc ->
     Forall (fun row : Row => List.length row = 2%nat) rows).
Proof.
  induction props as [|[property_name verbose_name] props IH];
    intros acc rows Hfold.
  - cbn in Hfold. injection Hfold as <-. split; [cbn; lia | auto].
  - cbn [fold_left] in Hfold. unfold attribute_row at 2 in Hfold.
    cbn [obind] in Hfold.
    destruct (getattr instance property_name) as [attr|]; cbn [obind] in Hfold;
      [|rewrite attribute_fold_None in Hfold; discriminate Hfold].
    destruct (value_truthy attr).
    + destruct (IH _ _ Hfold) as [Hlen Hcells]. split.
      * rewrite length_app in Hlen. cbn [List.length] in *. lia.
      * intros Hacc. apply Hcells. apply Forall_app. split; [exact Hacc|].
        constructor; [reflexivity | constructor].
    + destruct (IH _ _ Hfold) as [Hlen Hcells]. split.
      * cbn [List.length]. lia.
      * exact Hcells.
Qed.

End AttributeTableBounds.

(** X14: when one of the listed attributes is missing on the instance,
    [_attribute_to_table_data] raises (AttributeError from [getattr]),
    wherever the attribute stands in the list and whatever the other
    attributes hold. *)
Theorem missing_attribute_raises {T : Type} `{HasAttr T} (instance : T)
  (attribute_verbose_name_list : list (string * string)) (p : string * string)
  (Hin : In p attribute_verbose_name_list)
  (Hmissing : getattr instance (fst p) = None) :
  _attribute_to_table_data instance attribute_verbose_name_list = None.
Proof.
  unfold _attribute_to_table_data.
  exact (attribute_fold_missing instance _ p Hin Hmissing (Some [])).
Qed.

Lemma missing_attribute_raises_witness :
  _attribute_to_table_data three_row_provider
    [("name", "Name"); ("email", "Email"); ("city", "City")] = None.
Proof.
  apply (missing_attribute_raises three_row_provider _ ("email", "Email")).
  - right. left. reflexivity.
  - reflexivity.
Defined.

(** X15: the table [_attribute_to_table_data] returns has at most one
    row per listed attribute, and every row has two cells, the label
    and the value. *)
Theorem attribute_table_size {T : Type} `{HasAttr T} (instance : T)
  (attribute_verbose_name_list : list (string * string)) (data : list Row)
  (Hdata : _attribute_to_table_data instance attribute_verbose_name_list
           = Some data) :
  (List.length data <= List.length attribute_verbose_name_list)%nat /\
  Forall (fun row : Row => List.length row = 2%nat) data.
Proof.
  destruct (attribute_fold_bounds instance _ _ _ Hdata) as [Hlen Hcells].
  split; [exact Hlen | apply Hcells; constructor].
Qed.

Lemma attribute_table_size_witness :
  exists data,
    _attribute_to_table_data three_row_provider service_provider_props
    = Some data /\
    (List.length data <= 7)%nat /\
    Forall (fun row : Row => List.length row = 2%nat) data.
Proof.
  let r := eval vm_compute in
    (_attribute_to_table_data three_row_provider service_provider_props) in
  match r with
  | Some ?data =>
      assert (Hdata : _attribute_to_table_data three_row_provider
                        service_provider_props = Some data)
        by (vm_compute; reflexivity);
      exists data; split;
      [exact Hdata
      | exact (attribute_table_size three_row_provider service_provider_props
                 data Hdata)]
  end.
Defined.

(* ================================================================== *)
(** * The merged party table                                          *)
(* ================================================================== *)

Lemma list_mul_one {A} (l : list A) : list_mul l 1 = l.
Proof. unfold list_mul. cbn. apply app_nil_r. Qed.

Lemma list_mul_length {A} (l : list A) n :
  List.length (list_mul l n) = (n * List.length l)%nat.
Proof.
  unfold list_mul. induction n as [|n IH]; [reflexivity|].
  cbn [repeat List.concat]. rewrite length_app, IH. lia.
Qed.

(** The padded and zipped rows when the client side has at most one row
    more than the provider side. *)
Lemma merge_rows_grid s c :
  Forall (fun row : Row => List.length row = 2%nat) s ->
  Forall (fun row : Row => List.length row = 2%nat) c ->
  (List.length c <= S (List.length s))%nat ->
  List.length (zip_party_rows (fst (pad_party_rows s c)) (snd (pad_party_rows s c)))
  = Nat.max (List.length s) (List.length c) /\
  Forall (fun row : Row => List.length row = 5%nat)
         (zip_party_rows (fst (pad_party_rows s c)) (snd (pad_party_rows s c))).
Proof.
  intros Hs Hc Hlen. unfold pad_party_rows.
  destruct (Z.ltb_spec 0 (Z.abs (Z.of_nat (List.length c)
                                 - Z.of_nat (List.length s))));
    [destruct (Nat.ltb_spec (List.length c) (List.length s))|]; cbn [fst snd].
  - split.
    + rewrite zip_party_rows_length, length_app, list_mul_singleton_length. lia.
    + apply zip_party_rows_five_cells; [exact Hs|].
      apply Forall_app. split; [exact Hc|].
      apply list_mul_singleton_Forall. reflexivity.
  - replace (Z.to_nat (Z.abs (Z.of_nat (List.length c)
                              - Z.of_nat (List.length s)))) with 1%nat by lia.
    rewrite list_mul_one. split.
    + rewrite zip_party_rows_length, length_app. cbn [List.length]. lia.
    + apply zip_party_rows_five_cells; [|exact Hc].
      apply Forall_app. split; [exact Hs|].
      constructor; [reflexivity | constructor].
  - split.
    + rewrite zip_party_rows_length. lia.
    + apply zip_party_rows_five_cells; assumption.
Qed.

Lemma zip_party_rows_app s1 s2 c1 c2 :
  List.length s1 = List.length c1 ->
  zip_party_rows (s1 ++ s2) (c1 ++ c2)
  = zip_party_rows s1 c1 ++ zip_party_rows s2 c2.
Proof.
  revert c1. induction s1 as [|srow s1 IH]; intros [|crow c1] Hlen;
    try discriminate Hlen; [reflexivity|].
  injection Hlen as Hlen. unfold zip_party_rows in *.
  cbn [app combine map]. now rewrite IH.
Qed.

Lemma build_merged_table self s c :
  is_ServiceProviderInfo (service_provider_info self) = true ->
  is_ClientInfo (client_info self) = true ->
  _service_provider_data self = Some s -> _client_info_data self = Some c ->
  _build_service_provider_and_client_info self
  = Some (tt, set_story
                (_story self ++
                 [Table (merge_header ::
                         zip_party_rows (fst (pad_party_rows s c))
                                        (snd (pad_party_rows s c)))
                        merge_style]) self).
Proof.
  intros Hsp Hcl Hs Hc. unfold _build_service_provider_and_client_info.
  destruct (service_provider_info self) eqn:Es; try discriminate Hsp.
  destruct (client_info self) eqn:Ec; try discriminate Hcl.
  unfold bind, call, lift, story_append. rewrite Hc, Hs.
  destruct (pad_party_rows s c). reflexivity.
Qed.

Lemma list_mul_singleton_repeat {A} (x : A) n : list_mul [x] n = repeat x n.
Proof.
  unfold list_mul. induction n as [|n IH]; [reflexivity|].
  cbn [repeat List.concat app]. now rewrite IH.
Qed.

Lemma list_mul_pair_repeat {A} (x : A) n :
  list_mul [x; x] n = repeat x (2 * n).
Proof.
  unfold list_mul. induction n as [|n IH]; [reflexivity|].
  cbn [repeat List.concat app]. rewrite IH.
  replace (2 * S n)%nat with (S (S (2 * n))) by lia. reflexivity.
Qed.

Lemma nth_padded (rows : list Row) j i :
  nth i (rows ++ repeat blank_pair j) blank_pair = nth i rows blank_pair.
Proof.
  destruct (Nat.lt_ge_cases i (List.length rows)) as [Hlt|Hge].
  - now apply app_nth1.
  - rewrite app_nth2 by exact Hge. rewrite nth_repeat.
    symmetry. now apply nth_overflow.
Qed.

(** Two tables of the same length zip row by row. *)
Lemma zip_party_rows_nth s :
  forall c, List.length s = List.length c ->
    zip_party_rows s c
    = map (fun i => nth i s blank_pair ++ [CVal (VStr "")] ++
                    nth i c blank_pair)
          (seq 0 (List.length s)).
Proof.
  induction s as [|srow s IH]; intros [|crow c] Hlen; try discriminate Hlen;
    [reflexivity|].
  injection Hlen as Hlen. unfold zip_party_rows in *.
  cbn [combine map fst snd List.length seq nth]. f_equal.
  rewrite (IH c Hlen), <- seq_shift, map_map. reflexivity.
Qed.

Lemma zip_padded_rows s c j1 j2 :
  (List.length s + j1 = List.length c + j2)%nat ->
  zip_party_rows (s ++ repeat blank_pair j1) (c ++ repeat blank_pair j2)
  = map (fun i => nth i s blank_pair ++ [CVal (VStr "")] ++ nth i c blank_pair)
        (seq 0 (List.length s + j1)).
Proof.
  intros Hlen. rewrite zip_party_rows_nth
    by (rewrite !length_app, !repeat_length; exact Hlen).
  rewrite length_app, repeat_length. apply map_ext. intros i.
  now rewrite !nth_padded.
Qed.

(** With the client side at most one row longer, padding and zipping
    give the merge row by row. *)
Lemma merge_rows_are_merged s c :
  (List.length c <= S (List.length s))%nat ->
  zip_party_rows (fst (pad_party_rows s c)) (snd (pad_party_rows s c))
  = merged_rows s c.
Proof.
  intros Hlen. unfold pad_party_rows, merged_rows.
  destruct (Z.ltb_spec 0 (Z.abs (Z.of_nat (List.length c)
                                 - Z.of_nat (List.length s))));
    [destruct (Nat.ltb_spec (List.length c) (List.length s))|]; cbn [fst snd].
  - rewrite list_mul_singleton_repeat.
    pose proof (zip_padded_rows s c 0
                  (Z.to_nat (Z.abs (Z.of_nat (List.length c)
                                    - Z.of_nat (List.length s))))
                  ltac:(lia)) as Hz.
    cbn [repeat] in Hz. rewrite app_nil_r in Hz.
    change (repeat [CStr ""; CStr ""]) with (repeat blank_pair).
    rewrite Hz. f_equal. f_equal. lia.
  - replace (Z.to_nat (Z.abs (Z.of_nat (List.length c)
                              - Z.of_nat (List.length s)))) with 1%nat by lia.
    rewrite list_mul_one.
    pose proof (zip_padded_rows s c 1 0 ltac:(lia)) as Hz.
    cbn [repeat] in Hz. rewrite app_nil_r in Hz.
    change [[CStr ""; CStr ""]] with [blank_pair].
    rewrite Hz. f_equal. f_equal. lia.
  - pose proof (zip_padded_rows s c 0 0 ltac:(lia)) as Hz.
    cbn [repeat] in Hz. rewrite !app_nil_r in Hz.
    rewrite Hz. f_equal. f_equal. lia.
Qed.

Lemma attribute_rows_two_cells self :
  (forall s, _service_provider_data self = Some s ->
             Forall (fun row : Row => List.length row = 2%nat) s) /\
  (forall c, _client_info_data self = Some c ->
             Forall (fun row : Row => List.length row = 2%nat) c).
Proof.
  split; intros rows Hrows.
  - unfold _service_provider_data in Hrows.
    destruct (service_provider_info self);
      try (injection Hrows as <-; constructor).
    exact (proj2 (attribute_fold_bounds _ _ _ _ Hrows) (Forall_nil _)).
  - unfold _client_info_data in Hrows.
    destruct (client_info self); try (injection Hrows as <-; constructor).
    exact (proj2 (attribute_fold_bounds _ _ _ _ Hrows) (Forall_nil _)).
Qed.

(** X16: with both parties present and the client table at most one row
    longer than the provider table, the party step appends to the story
    one Table: the header row, then as many rows as the longer side
    has, row [i] holding the provider's row [i], a blank cell and the
    client's row [i], with two blank cells for a side that has no row
    [i]; every row has five cells, and the style is the five directives
    of the header. *)
Theorem merged_table_is_a_grid (self : SimpleInvoice)
  (service_provider_data client_info_data : list Row)
  (Hprovider : is_ServiceProviderInfo (service_provider_info self) = true)
  (Hclient : is_ClientInfo (client_info self) = true)
  (Hs : _service_provider_data self = Some service_provider_data)
  (Hc : _client_info_data self = Some client_info_data)
  (Hlen : (List.length client_info_data
           <= S (List.length service_provider_data))%nat) :
  option_map (fun r => _story (snd r))
             (_build_service_provider_and_client_info self)
  = Some (_story self ++
          [Table (merge_header ::
                  merged_rows service_provider_data client_info_data)
                 merge_style]) /\
  List.length (merged_rows service_provider_data client_info_data)
  = Nat.max (List.length service_provider_data)
            (List.length client_info_data) /\
  Forall (fun row : Row => List.length row = 5%nat)
         (merged_rows service_provider_data client_info_data).
Proof.
  destruct (attribute_rows_two_cells self) as [Hs2 Hc2].
  specialize (Hs2 _ Hs). specialize (Hc2 _ Hc).
  rewrite <- (merge_rows_are_merged _ _ Hlen). split.
  - rewrite (build_merged_table self _ _ Hprovider Hclient Hs Hc). reflexivity.
  - exact (merge_rows_grid _ _ Hs2 Hc2 Hlen).
Qed.

Lemma merged_table_is_a_grid_witness :
  option_map (fun r => _story (snd r))
    (_build_service_provider_and_client_info
       (set_client_info
          (ObjClientInfo (mkClientInfo (VStr "Bob") VNone VNone VNone VNone
                                       VNone VNone VNone))
          merge_doc))
  = Some [Table
            [[CPara "Service Provider" Heading1; CVal (VStr "");
              CVal (VStr ""); CPara "Client" Heading1; CVal (VStr "")];
             [CVal (VStr "Name:"); CVal (VStr "Acme"); CVal (VStr "");
              CVal (VStr "Name:"); CVal (VStr "Bob")];
             [CVal (VStr "Street:"); CVal (VStr "1 Main St"); CVal (VStr "");
              CVal (VStr ""); CVal (VStr "")]]
            [SPAN (0, 0) (1, 0); SPAN (3, 0) (4, 0);
             LINEBELOW (0, 0) (1, 0) 1 "gray";
             LINEBELOW (3, 0) (4, 0) 1 "gray";
             LEFTPADDING (0, 0) (-1, -1) 0]].
Proof.
  exact (proj1 (merged_table_is_a_grid
                  (set_client_info
                     (ObjClientInfo
                        (mkClientInfo (VStr "Bob") VNone VNone VNone VNone
                                      VNone VNone VNone))
                     merge_doc)
                  [[CStr "Name:"; CStr "Acme"];
                   [CStr "Street:"; CStr "1 Main St"]]
                  [[CStr "Name:"; CStr "Bob"]]
                  eq_refl eq_refl eq_refl eq_refl ltac:(cbn; lia))).
Defined.

(** X17: with both parties present and the provider table shorter than
    the client table ([m < n] rows), the provider side gains one
    padding row only, of [2(n-m)] blank cells.  The party step appends
    one Table whose rows after the header are the plain merge of the
    first [m] rows of both sides and then one last row: the [2(n-m)]
    blank cells, a blank cell and the client's row [m], in all
    [2(n-m)+3] cells; the client rows after that one are left out. *)
Theorem short_provider_gets_one_padding_row (self : SimpleInvoice)
  (service_provider_data client_info_data : list Row)
  (Hprovider : is_ServiceProviderInfo (service_provider_info self) = true)
  (Hclient : is_ClientInfo (client_info self) = true)
  (Hs : _service_provider_data self = Some service_provider_data)
  (Hc : _client_info_data self = Some client_info_data)
  (Hlen : (List.length service_provider_data
           < List.length client_info_data)%nat) :
  let m := List.length service_provider_data in
  let n := List.length client_info_data in
  let last_row := repeat (CVal (VStr "")) (2 * (n - m)) ++ [CVal (VStr "")] ++
                  nth m client_info_data blank_pair in
  option_map (fun r => _story (snd r))
             (_build_service_provider_and_client_info self)
  = Some (_story self ++
          [Table (merge_header ::
                  merged_rows service_provider_data
                              (firstn m client_info_data) ++ [last_row])
                 merge_style]) /\
  List.length (merged_rows service_provider_data (firstn m client_info_data))
  = m /\
  List.length last_row = (2 * (n - m) + 3)%nat.
Proof.
  destruct (attribute_rows_two_cells self) as [_ Hc2].
  specialize (Hc2 _ Hc).
  set (m := List.length service_provider_data).
  set (n := List.length client_info_data). cbv zeta.
  pose proof (build_merged_table self _ _ Hprovider Hclient Hs Hc) as Hbuild.
  unfold pad_party_rows in Hbuild.
  destruct (Z.ltb_spec 0 (Z.abs (Z.of_nat (List.length client_info_data)
                                 - Z.of_nat (List.length service_provider_data))));
    [|lia].
  destruct (Nat.ltb_spec (List.length client_info_data)
                         (List.length service_provider_data)); [lia|].
  cbn [fst snd] in Hbuild.
  replace (Z.to_nat (Z.abs (Z.of_nat (List.length client_info_data)
                            - Z.of_nat (List.length service_provider_data))))
    with (n - m)%nat in Hbuild by (unfold n, m; lia).
  rewrite list_mul_pair_repeat in Hbuild.
  destruct (nth_error client_info_data m) as [crow|] eqn:Hcrow;
    [|apply nth_error_None in Hcrow; unfold n, m in *; lia].
  destruct (nth_error_split _ _ Hcrow) as (c1 & c2 & Hsplit & Hc1).
  assert (Hnth : nth m client_info_data blank_pair = crow)
    by (apply nth_error_nth; exact Hcrow).
  assert (Hfirst : firstn m client_info_data = c1).
  { rewrite Hsplit, <- Hc1, firstn_app, firstn_all, Nat.sub_diag.
    cbn [firstn]. apply app_nil_r. }
  assert (Hzip : zip_party_rows
                   (service_provider_data ++
                    [repeat (CStr "") (2 * (n - m))]) client_info_data
                 = merged_rows service_provider_data c1 ++
                   [repeat (CVal (VStr "")) (2 * (n - m)) ++
                    [CVal (VStr "")] ++ crow]).
  { rewrite Hsplit at 1.
    rewrite (zip_party_rows_app service_provider_data _ c1 (crow :: c2))
      by (rewrite Hc1; reflexivity).
    rewrite (zip_party_rows_nth service_provider_data c1)
      by (rewrite Hc1; reflexivity).
    unfold merged_rows. rewrite Hc1. fold m. rewrite Nat.max_id.
    reflexivity. }
  rewrite Hnth, Hfirst. split; [|split].
  - rewrite Hbuild. cbn [option_map snd set_story _story]. rewrite Hzip.
    reflexivity.
  - unfold merged_rows. rewrite length_map, length_seq, Hc1. fold m.
    apply Nat.max_id.
  - rewrite !length_app, repeat_length. cbn [List.length].
    assert (Hcr : List.length crow = 2%nat).
    { apply nth_error_In in Hcrow.
      exact (proj1 (Forall_forall _ _) Hc2 crow Hcrow). }
    rewrite Hcr. lia.
Qed.

Lemma short_provider_gets_one_padding_row_witness :
  option_map (fun r => _story (snd r))
             (_build_service_provider_and_client_info merge_doc)
  = Some [Table
            [[CPara "Service Provider" Heading1; CVal (VStr "");
              CVal (VStr ""); CPara "Client" Heading1; CVal (VStr "")];
             [CVal (VStr "Name:"); CVal (VStr "Acme"); CVal (VStr "");
              CVal (VStr "Name:"); CVal (VStr "Bob")];
             [CVal (VStr "Street:"); CVal (VStr "1 Main St"); CVal (VStr "");
              CVal (VStr "Street:"); CVal (VStr "2 Side St")];
             [CVal (VStr ""); CVal (VStr ""); CVal (VStr ""); CVal (VStr "");
              CVal (VStr ""); CVal (VStr ""); CVal (VStr "");
              CVal (VStr "City:"); CVal (VStr "Town")]]
            [SPAN (0, 0) (1, 0); SPAN (3, 0) (4, 0);
             LINEBELOW (0, 0) (1, 0) 1 "gray";
             LINEBELOW (3, 0) (4, 0) 1 "gray";
             LEFTPADDING (0, 0) (-1, -1) 0]].
Proof.
  exact (proj1 (short_provider_gets_one_padding_row merge_doc
                  [[CStr "Name:"; CStr "Acme"];
                   [CStr "Street:"; CStr "1 Main St"]]
                  [[CStr "Name:"; CStr "Bob"];
                   [CStr "Street:"; CStr "2 Side St"];
                   [CStr "City:"; CStr "Town"]; [CStr "State:"; CStr "NY"];
                   [CStr "Country:"; CStr "US"]]
                  eq_refl eq_refl eq_refl eq_refl ltac:(cbn; lia))).
Defined.

(* ================================================================== *)
(** * The bottom tip, the logo and a subtotal too wide to round       *)
(* ================================================================== *)

(** X18: the bottom tip that [set_bottom_tip] stores is what [finish]
    hands over last: with a non-empty text the story is the story of
    the same document without a tip, followed by a Spacer and the
    paragraph of that text with the alignment handed to
    [set_bottom_tip]; with the empty text the story is the one without
    a tip. *)
Theorem bottom_tip_is_handed_over_last (self : SimpleInvoice)
  (text : string) (align : Z) (Htext : text <> "") :
  option_map (fun r => _story (snd r))
             (finish (set_bottom_tip (Some text) align self))
  = option_map (fun r => _story (snd r) ++
                         [Spacer 5 5; Paragraph text (BottomTip (Some align))])
               (finish (set_bottom_tip None align self)) /\
  option_map (fun r => _story (snd r))
             (finish (set_bottom_tip (Some "") align self))
  = option_map (fun r => _story (snd r))
               (finish (set_bottom_tip None align self)).
Proof.
  rewrite !finish_eq. unfold items_blocks.
  rewrite (items_table_frame (set_bottom_tip (Some text) align self) self
             eq_refl eq_refl eq_refl),
    (items_table_frame (set_bottom_tip (Some "") align self) self
       eq_refl eq_refl eq_refl),
    (items_table_frame (set_bottom_tip None align self) self
       eq_refl eq_refl eq_refl).
  destruct (items_table self) as [table|]; [|split; reflexivity].
  cbn [option_map snd]. rewrite !story_with_paid_stamp.
  cbn [set_story _story]. unfold sections, bottom_tip_blocks.
  cbn [set_bottom_tip _bottom_tip _bottom_tip_align].
  rewrite (proj2 (String.eqb_neq text "") Htext).
  split; [|reflexivity].
  rewrite app_nil_r, <- !app_assoc. reflexivity.
Qed.

Lemma bottom_tip_is_handed_over_last_witness :
  option_map (fun r => _story (snd r))
             (finish (set_bottom_tip (Some "Thank you") TA_RIGHT
                                     empty_parties_doc))
  = Some [Table
            [[CPara "Service Provider" Heading1; CVal (VStr "");
              CVal (VStr ""); CPara "Client" Heading1; CVal (VStr "")]]
            [SPAN (0, 0) (1, 0); SPAN (3, 0) (4, 0);
             LINEBELOW (0, 0) (1, 0) 1 "gray";
             LINEBELOW (3, 0) (4, 0) 1 "gray";
             LEFTPADDING (0, 0) (-1, -1) 0];
          Spacer 5 5; Paragraph "Thank you" (BottomTip (Some 2))].
Proof.
  rewrite (proj1 (bottom_tip_is_handed_over_last empty_parties_doc
                    "Thank you" TA_RIGHT ltac:(discriminate))).
  vm_compute. reflexivity.
Defined.

(** X19: [_build_logo] sets the alignment of the stored image to LEFT
    and TOP, whatever it was, and appends that very image: the block
    at the end of the story and the stored logo are the same image,
    with the file it had. *)
Theorem build_logo_appends_the_stored_image (self self' : SimpleInvoice)
  (img : Image)
  (Hlogo : _logo self = Some img)
  (Hbuild : _build_logo self = Some (tt, self')) :
  exists img',
    _logo self' = Some img' /\
    _story self' = _story self ++ [ImageBlock img'] /\
    filename img' = filename img /\
    hAlign img' = "LEFT" /\ vAlign img' = "TOP".
Proof.
  rewrite build_logo_eq in Hbuild. injection Hbuild as <-.
  unfold with_aligned_logo, logo_blocks. rewrite Hlogo.
  exists (aligned_logo img). repeat split.
Qed.

Lemma build_logo_appends_the_stored_image_witness :
  exists self' img',
    _build_logo (set_logo (Some (mkImage "logo.png" "CENTER" "BOTTOM"))
                          client_only_doc)
    = Some (tt, self') /\
    _logo self' = Some img' /\
    _story self' = [ImageBlock img'] /\
    hAlign img' = "LEFT" /\ vAlign img' = "TOP".
Proof.
  let r := eval vm_compute in
    (_build_logo (set_logo (Some (mkImage "logo.png" "CENTER" "BOTTOM"))
                           client_only_doc)) in
  match r with
  | Some (tt, ?self1) =>
      assert (Hbuild : _build_logo
                         (set_logo (Some (mkImage "logo.png" "CENTER" "BOTTOM"))
                                   client_only_doc)
                       = Some (tt, self1))
        by (vm_compute; reflexivity);
      destruct (build_logo_appends_the_stored_image
                  (set_logo (Some (mkImage "logo.png" "CENTER" "BOTTOM"))
                            client_only_doc)
                  self1 (mkImage "logo.png" "CENTER" "BOTTOM") eq_refl Hbuild)
        as (img' & Hl & Hs & _ & Hh & Hv);
      exists self1, img'; repeat split; assumption
  end.
Defined.

(** X20: when the document has at least one Item and its subtotal is a
    non-zero value whose leading digit stands more than 28 places above
    the last place of the precision, rounding it is refused
    (InvalidOperation), so building the items table raises and
    [finish] raises with it. *)
Theorem finish_raises_on_a_subtotal_too_wide (self : SimpleInvoice)
  (item_subtotal : Dec.Decimal)
  (Hne : items_of (items self) <> [])
  (Hsum : sum_amounts (items_of (items self)) = Some item_subtotal)
  (Hnonzero : Dec.is_zero item_subtotal = false)
  (Hwide : Dec.prec
           < Dec.adjusted item_subtotal - Dec.dexp (precision self) + 1) :
  getroundeddecimal item_subtotal (precision self) = None /\
  _item_data_and_style self = None /\
  finish self = None.
Proof.
  unfold items in *.
  assert (Hround : getroundeddecimal item_subtotal (precision self) = None).
  { unfold getroundeddecimal, Dec.quantize. rewrite Hnonzero.
    destruct (negb _); [reflexivity|].
    destruct (Dec.Emax <? Dec.adjusted item_subtotal); [reflexivity|].
    apply Z.ltb_lt in Hwide. rewrite Hwide. reflexivity. }
  assert (Htable : items_table self = None).
  { rewrite items_table_eq.
    destruct (items_of (_items self)) as [|item its]; [contradiction|].
    cbv beta iota zeta. rewrite Hsum. cbn [obind]. rewrite Hround.
    reflexivity. }
  split; [exact Hround|]. split.
  - rewrite item_data_and_style_eq, Htable. reflexivity.
  - rewrite finish_eq. unfold items_blocks. rewrite Htable. reflexivity.
Qed.

Lemma finish_raises_on_a_subtotal_too_wide_witness :
  finish (add_item (sample_item (dec 1 30)) (init default_precision)) = None.
Proof.
  apply (finish_raises_on_a_subtotal_too_wide
           (add_item (sample_item (dec 1 30)) (init default_precision))
           (dec (10 ^ 27) 3)).
  - discriminate.
  - vm_compute. reflexivity.
  - reflexivity.
  - vm_compute. reflexivity.
Defined.

(* ================================================================== *)
(** * The total against the sum of the rounded parts                  *)
(* ================================================================== *)

Module DecParts.
Import Dec DecFacts.

Lemma half_up_steps_near X U :
  0 < U -> 2 * Z.abs (half_up_steps X U * U - X) <= U.
Proof.
  intros HU. unfold half_up_steps.
  pose proof (Z.div_mod (2 * Z.abs X + U) (2 * U) ltac:(lia)) as Hdm.
  pose proof (Z.mod_pos_bound (2 * Z.abs X + U) (2 * U) ltac:(lia)) as Hr.
  set (q := (2 * Z.abs X + U) / (2 * U)) in *.
  set (r := (2 * Z.abs X + U) mod (2 * U)) in *.
  destruct (Z.sgn_spec X) as [[HX ->]|[[HX ->]|[HX ->]]]; nia.
Qed.

Lemma aligned_of_sum m a b t :
  m <= dexp a -> m <= dexp b -> m <= dexp t ->
  (to_Q t == to_Q a + to_Q b)%Q ->
  aligned m t = aligned m a + aligned m b.
Proof.
  intros Ha Hb Ht Hsum.
  assert (HP : ~ (pow10Q m == 0)%Q).
  { pose proof (pow10Q_pos m) as HP. intros H0. rewrite H0 in HP.
    discriminate HP. }
  apply inject_Z_injective. apply (Qmult_inj_r _ _ (pow10Q m) HP).
  rewrite <- (to_Q_aligned m t Ht), Hsum.
  rewrite (to_Q_aligned m a Ha), (to_Q_aligned m b Hb), inject_Z_plus. ring.
Qed.

(** Rounding a sum and adding the rounded terms differ by one step at
    most. *)
Lemma rescale_sum_near a b t e :
  (to_Q t == to_Q a + to_Q b)%Q ->
  Z.abs (signedZ (_rescale t e ROUND_HALF_UP)
         - (signedZ (_rescale a e ROUND_HALF_UP)
            + signedZ (_rescale b e ROUND_HALF_UP))) <= 1.
Proof.
  intros Hsum.
  set (m := Z.min (Z.min (dexp a) (dexp b)) (Z.min (dexp t) e)).
  rewrite (DecRounding.rescale_half_up_steps t e m),
    (DecRounding.rescale_half_up_steps a e m),
    (DecRounding.rescale_half_up_steps b e m) by (unfold m; lia).
  pose proof (pow10_pos (e - m) ltac:(unfold m; lia)) as HU.
  rewrite (aligned_of_sum m a b t) by (try exact Hsum; unfold m; lia).
  pose proof (half_up_steps_near (aligned m a + aligned m b) _ HU) as Ht.
  pose proof (half_up_steps_near (aligned m a) _ HU) as Ha.
  pose proof (half_up_steps_near (aligned m b) _ HU) as Hb.
  set (U := 10 ^ (e - m)) in *.
  set (kt := half_up_steps (aligned m a + aligned m b) U) in *.
  set (ka := half_up_steps (aligned m a) U) in *.
  set (kb := half_up_steps (aligned m b) U) in *.
  nia.
Qed.

End DecParts.

(** X21: when the sum of two decimals loses no digit to the context,
    rounding the sum and adding the two rounded decimals differ by one
    unit of the precision at most: the Total of the items table, the
    rounding of subtotal plus tax, is never more than one unit away
    from the rounded subtotal plus the rounded tax. *)
Theorem rounded_sum_within_one_unit_of_rounded_parts
  (item_subtotal tax_total total precision : Dec.Decimal)
  (rounditem_subtotal roundtax_total roundtotal : Dec.Decimal)
  (Hadd : Dec.add item_subtotal tax_total = Some total)
  (Hexact : (Dec.to_Q total == Dec.to_Q item_subtotal + Dec.to_Q tax_total)%Q)
  (Hsub : getroundeddecimal item_subtotal precision = Some rounditem_subtotal)
  (Htax : getroundeddecimal tax_total precision = Some roundtax_total)
  (Htotal : getroundeddecimal total precision = Some roundtotal) :
  (Qabs (Dec.to_Q roundtotal
         - (Dec.to_Q rounditem_subtotal + Dec.to_Q roundtax_total))
   <= Dec.pow10Q (Dec.dexp precision))%Q.
Proof.
  apply DecFacts.quantize_Some in Hsub. destruct Hsub as [-> _].
  apply DecFacts.quantize_Some in Htax. destruct Htax as [-> _].
  apply DecFacts.quantize_Some in Htotal. destruct Htotal as [-> _].
  pose proof (DecParts.rescale_sum_near item_subtotal tax_total total
                (Dec.dexp precision) Hexact) as Hnear.
  unfold Dec.to_Q. rewrite !DecFacts.rescale_exp.
  set (kt := Dec.signedZ (Dec._rescale total _ _)) in *.
  set (ks := Dec.signedZ (Dec._rescale item_subtotal _ _)) in *.
  set (kx := Dec.signedZ (Dec._rescale tax_total _ _)) in *.
  set (P := Dec.pow10Q (Dec.dexp precision)).
  assert (HP : (0 < P)%Q) by apply DecFacts.pow10Q_pos.
  assert (Heq : (inject_Z kt * P - (inject_Z ks * P + inject_Z kx * P)
                 == inject_Z (kt - (ks + kx)) * P)%Q).
  { unfold Z.sub. rewrite !inject_Z_plus, inject_Z_opp, inject_Z_plus. ring. }
  rewrite Heq, Qabs_Qmult, DecFacts.Qabs_inject_Z.
  rewrite (Qabs_pos P) by (apply Qlt_le_weak; exact HP).
  rewrite <- (Qmult_1_l P) at 2.
  apply Qmult_le_compat_r; [|apply Qlt_le_weak; exact HP].
  change 1%Q with (inject_Z 1). rewrite <- Zle_Qle. exact Hnear.
Qed.

Lemma rounded_sum_within_one_unit_of_rounded_parts_witness :
  (Qabs (Dec.to_Q (dec 2001 (-2))
         - (Dec.to_Q (dec 1001 (-2)) + Dec.to_Q (dec 1001 (-2))))
   <= Dec.pow10Q (-2))%Q.
Proof.
  apply (rounded_sum_within_one_unit_of_rounded_parts
           (dec 10005 (-3)) (dec 10005 (-3)) (dec 20010 (-3)) (dec 1 (-2))).
  - vm_compute. reflexivity.
  - vm_compute. reflexivity.
  - vm_compute. reflexivity.
  - vm_compute. reflexivity.
  - vm_compute. reflexivity.
Defined.

(* ================================================================== *)
(** * Printing a rounded figure to two places                         *)
(* ================================================================== *)

Module DecPrint.
Import Dec DecFacts.

Lemma length_append (a b : string) :
  String.length (a ++ b) = (String.length a + String.length b)%nat.
Proof. induction a as [|ch a IH]; cbn; [reflexivity | now rewrite IH]. Qed.

Lemma append_assoc (a b c : string) : (a ++ (b ++ c) = (a ++ b) ++ c)%string.
Proof. induction a as [|ch a IH]; cbn; [reflexivity | now rewrite IH]. Qed.

Lemma append_cancel (a1 a2 t1 t2 : string) :
  String.length a1 = String.length a2 ->
  (a1 ++ t1 = a2 ++ t2)%string -> a1 = a2 /\ t1 = t2.
Proof.
  revert a2. induction a1 as [|ch a1 IH]; intros [|ch2 a2] Hlen Heq;
    try discriminate Hlen.
  - split; [reflexivity | exact Heq].
  - cbn in Heq. injection Heq as -> Heq. injection Hlen as Hlen.
    destruct (IH a2 Hlen Heq) as [-> ->]. split; reflexivity.
Qed.

Lemma string_of_uint_inj d d' :
  NilEmpty.string_of_uint d = NilEmpty.string_of_uint d' -> d = d'.
Proof.
  intros H. apply (f_equal NilEmpty.uint_of_string) in H.
  rewrite !NilEmpty.usu in H. now injection H.
Qed.

Lemma digits_of_inj a b :
  0 <= a -> 0 <= b -> digits_of a = digits_of b -> a = b.
Proof.
  intros Ha Hb H. unfold digits_of in H.
  apply string_of_uint_inj, DecimalN.Unsigned.to_uint_inj in H. lia.
Qed.

Lemma digits_of_no_sign a s : digits_of a <> String "-" s.
Proof.
  unfold digits_of. destruct (N.to_uint (Z.to_N a)); discriminate.
Qed.

Lemma digits_of_digit d : 0 <= d < 10 -> String.length (digits_of d) = 1%nat.
Proof.
  intros H.
  assert (Hd : d = 0 \/ d = 1 \/ d = 2 \/ d = 3 \/ d = 4 \/ d = 5 \/ d = 6 \/
               d = 7 \/ d = 8 \/ d = 9) by lia.
  repeat (destruct Hd as [->|Hd]; [reflexivity|]). subst. reflexivity.
Qed.

(** At the exponent -2 the format rescales nothing. *)
Lemma format_2f_cents r :
  dexp r = -2 ->
  format_2f r
  = ((if dsign r then "-" else "") ++
     digits_of (coeffZ r / 100) ++ "." ++
     digits_of (coeffZ r mod 100 / 10) ++ digits_of (coeffZ r mod 10))%string.
Proof.
  intros He. unfold format_2f, _rescale. rewrite He.
  destruct (is_zero r) eqn:Hz.
  - apply is_zero_true in Hz. rewrite Hz. reflexivity.
  - cbn [Z.leb Z.compare Pos.compare Pos.compare_cont CompOpp].
    change (-2 - -2) with 0. rewrite Z.pow_0_r, Z.mul_1_r.
    rewrite coeffZ_triple by apply coeffZ_nonneg. reflexivity.
Qed.

Lemma format_2f_cents_inj r1 r2 :
  dexp r1 = -2 -> dexp r2 = -2 -> format_2f r1 = format_2f r2 -> r1 = r2.
Proof.
  intros He1 He2 H. rewrite (format_2f_cents r1 He1), (format_2f_cents r2 He2) in H.
  pose proof (coeffZ_nonneg r1) as Hc1. pose proof (coeffZ_nonneg r2) as Hc2.
  set (c1 := coeffZ r1) in *. set (c2 := coeffZ r2) in *.
  assert (Hq1 : 0 <= c1 / 100) by (apply Z.div_pos; lia).
  assert (Hq2 : 0 <= c2 / 100) by (apply Z.div_pos; lia).
  assert (Ht1 : 0 <= c1 mod 100 / 10 < 10)
    by (pose proof (Z.mod_pos_bound c1 100 ltac:(lia)); split;
        [apply Z.div_pos; lia | apply Z.div_lt_upper_bound; lia]).
  assert (Ht2 : 0 <= c2 mod 100 / 10 < 10)
    by (pose proof (Z.mod_pos_bound c2 100 ltac:(lia)); split;
        [apply Z.div_pos; lia | apply Z.div_lt_upper_bound; lia]).
  assert (Hu1 : 0 <= c1 mod 10 < 10) by (apply Z.mod_pos_bound; lia).
  assert (Hu2 : 0 <= c2 mod 10 < 10) by (apply Z.mod_pos_bound; lia).
  rewrite !append_assoc in H.
  assert (Hlen := f_equal String.length H).
  rewrite !length_append in Hlen.
  rewrite (digits_of_digit _ Ht1), (digits_of_digit _ Ht2),
    (digits_of_digit _ Hu1), (digits_of_digit _ Hu2) in Hlen.
  cbn [String.length] in Hlen.
  apply append_cancel in H;
    [|rewrite !length_append, (digits_of_digit _ Ht1), (digits_of_digit _ Ht2);
      cbn [String.length]; lia].
  destruct H as [H Hu]. apply digits_of_inj in Hu; [|lia|lia].
  apply append_cancel in H;
    [|rewrite !length_append; cbn [String.length]; lia].
  destruct H as [H Ht]. apply digits_of_inj in Ht; [|lia|lia].
  apply append_cancel in H; [|rewrite !length_append; lia].
  destruct H as [H _].
  assert (Hsq : dsign r1 = dsign r2 /\ c1 / 100 = c2 / 100).
  { destruct (dsign r1), (dsign r2); cbn in H.
    - injection H as H. apply digits_of_inj in H; [|lia|lia]. auto.
    - symmetry in H. apply digits_of_no_sign in H. contradiction.
    - apply digits_of_no_sign in H. contradiction.
    - apply digits_of_inj in H; [|lia|lia]. auto. }
  destruct Hsq as [Hs Hq].
  assert (Hc : c1 = c2).
  { rewrite <- (Z.mod_mod_divide c1 100 10), <- (Z.mod_mod_divide c2 100 10)
      in Hu by (exists 10; reflexivity).
    pose proof (Z.div_mod c1 100 ltac:(lia)) as D1.
    pose proof (Z.div_mod c2 100 ltac:(lia)) as D2.
    pose proof (Z.div_mod (c1 mod 100) 10 ltac:(lia)) as M1.
    pose proof (Z.div_mod (c2 mod 100) 10 ltac:(lia)) as M2.
    rewrite D1, D2, M1, M2, Hq, Ht, Hu. reflexivity. }
  destruct r1 as [s1 n1 e1], r2 as [s2 n2 e2].
  unfold c1, c2, coeffZ in Hc. cbn [dsign dcoeff dexp] in *.
  subst. f_equal. lia.
Qed.

End DecPrint.

(** X22: at the default precision ['0.01'] the two-place format loses
    nothing of a rounded figure: two results of [getroundeddecimal]
    that print the same text are the same decimal, sign of a zero
    included, so the printed Subtotal, tax and Total determine the
    rounded decimals. *)
Theorem printed_cents_determine_the_rounded_decimal (x y r1 r2 : Dec.Decimal)
  (Hx : getroundeddecimal x default_precision = Some r1)
  (Hy : getroundeddecimal y default_precision = Some r2)
  (Hsame : Dec.format_2f r1 = Dec.format_2f r2) :
  r1 = r2.
Proof.
  apply DecPrint.format_2f_cents_inj; [| |exact Hsame].
  - apply DecFacts.quantize_Some in Hx. destruct Hx as [-> _].
    apply DecFacts.rescale_exp.
  - apply DecFacts.quantize_Some in Hy. destruct Hy as [-> _].
    apply DecFacts.rescale_exp.
Qed.

Lemma printed_cents_determine_the_rounded_decimal_witness :
  dec 3001 (-2) = dec 3001 (-2).
Proof.
  apply (printed_cents_determine_the_rounded_decimal
           (dec 30005 (-3)) (dec 300050 (-4))).
  - vm_compute. reflexivity.
  - vm_compute. reflexivity.
  - vm_compute. reflexivity.
Defined.

(* ================================================================== *)
(** * The Subtotal row against the exact sum                          *)
(* ================================================================== *)

(** X23: when the amounts add up without rounding (they are whole
    numbers of a unit [10^m] and their magnitudes stay below [10^28]
    units), the row right after the item rows of the items table is
    the Subtotal row: the label 'Subtotal', three blank cells and,
    printed to two places, the multiple of ten to the precision's
    exponent that is nearest to the exact sum of the amounts, a tie
    going away from zero. *)
Theorem subtotal_row_rounds_the_exact_sum (self : SimpleInvoice) (m : Z)
  (data : list Row) (style : list StyleCmd)
  (Hfit : amounts_fit m (items_of (items self)) = true)
  (Htable : items_table self = Some (data, style)) (Hne : data <> []) :
  exists rounditem_subtotal,
    let e := Dec.dexp (precision self) in
    let exact := exact_sum (items_of (items self)) in
    nth_error data (S (List.length (items_of (items self))))
    = Some [CVal (VStr "Subtotal"); CVal (VStr ""); CVal (VStr "");
            CVal (VStr ""); CVal (VStr (Dec.format_2f rounditem_subtotal))] /\
    Dec.dexp rounditem_subtotal = e /\
    (Qabs (Dec.to_Q rounditem_subtotal - exact) <= (1 # 2) * Dec.pow10Q e)%Q /\
    (Qabs (Dec.to_Q rounditem_subtotal - exact) == (1 # 2) * Dec.pow10Q e ->
     Qabs exact < Qabs (Dec.to_Q rounditem_subtotal))%Q.
Proof.
  unfold items in *.
  destruct (sum_amounts_exact m _ Hfit) as (sub & Hsub & Hq).
  revert Htable. rewrite items_table_eq.
  destruct (items_of (_items self)) as [|item its] eqn:Hits;
    cbv beta iota zeta;
    [intros H; injection H as <- _; contradiction|].
  rewrite Hsub. cbn [obind].
  destruct (getroundeddecimal sub (precision self)) as [rs|] eqn:Hrs;
    cbn [obind]; [|intros Hn; discriminate Hn].
  intros Htable. exists rs.
  assert (Hrow : nth_error data (S (List.length (item :: its)))
                 = Some (summary_row "Subtotal" rs)).
  { replace (List.length (item :: its))
      with (List.length (map item_row (item :: its)) + 0)%nat
      by (rewrite length_map; lia).
    revert Htable. destruct (_item_tax_rate self) as [rate|].
    - destruct (raw_tax rate sub) as [tax|]; cbn [obind];
        [|intros Hn; discriminate Hn].
      destruct (getroundeddecimal tax (precision self)) as [rt|]; cbn [obind];
        [|intros Hn; discriminate Hn].
      destruct (total_from_raw_sum (precision self) rate sub) as [rtot|];
        cbn [obind]; [|intros Hn; discriminate Hn].
      intros H.
      assert (Hd : data = item_data_title :: map item_row (item :: its) ++
                     [summary_row "Subtotal" rs;
                      summary_row ("Vat/Tax (" ++ rate_str rate ++ "%)")%string rt;
                      summary_row "Total" rtot]) by congruence.
      rewrite Hd. cbn [nth_error]. rewrite nth_error_app2 by lia.
      replace (_ - _)%nat with 0%nat by lia. reflexivity.
    - destruct (Dec.add sub (Dec.of_int 0)) as [total|]; cbn [obind];
        [|intros Hn; discriminate Hn].
      destruct (getroundeddecimal total (precision self)) as [rtot|];
        cbn [obind]; [|intros Hn; discriminate Hn].
      intros H.
      assert (Hd : data = item_data_title :: map item_row (item :: its) ++
                     [summary_row "Subtotal" rs; summary_row "Total" rtot])
        by congruence.
      rewrite Hd. cbn [nth_error]. rewrite nth_error_app2 by lia.
      replace (_ - _)%nat with 0%nat by lia. reflexivity. }
  destruct (getroundeddecimal_Some_nearest _ _ _ Hrs) as (He & Hnear & Htie).
  cbv zeta. split; [exact Hrow|]. split; [exact He|].
  rewrite <- Hq. split; [exact Hnear | exact Htie].
Qed.

Lemma subtotal_row_rounds_the_exact_sum_witness :
  exists data style rounditem_subtotal,
    items_table summary_doc = Some (data, style) /\
    nth_error data 3
    = Some [CVal (VStr "Subtotal"); CVal (VStr ""); CVal (VStr "");
            CVal (VStr ""); CVal (VStr (Dec.format_2f rounditem_subtotal))] /\
    Dec.dexp rounditem_subtotal = -2 /\
    Dec.format_2f rounditem_subtotal = "30.01".
Proof.
  let r := eval vm_compute in (items_table summary_doc) in
  match r with
  | Some (?data, ?style) =>
      assert (Htable : items_table summary_doc = Some (data, style))
        by (vm_compute; reflexivity);
      assert (Hthird : nth_error data 3
                       = Some [CVal (VStr "Subtotal"); CVal (VStr "");
                               CVal (VStr ""); CVal (VStr "");
                               CVal (VStr "30.01")])
        by (vm_compute; reflexivity);
      destruct (subtotal_row_rounds_the_exact_sum summary_doc (-3) data style
                  ltac:(vm_compute; reflexivity) Htable ltac:(discriminate))
        as (rs & Hrow & He & _);
      exists data, style, rs;
      split; [exact Htable|]; split; [exact Hrow|]; split; [exact He|];
      pose proof (eq_trans (eq_sym Hrow) Hthird) as Hsame;
      now injection Hsame
  end.
Defined.

(* ================================================================== *)
(** * The story and the build arguments that [finish] hands over      *)
(* ================================================================== *)

Lemma items_blocks_of_table self :
  items_blocks self
  = match items_table self with
    | Some ([], _) => Some []
    | Some (item_data, style) =>
        Some [Paragraph "Detail" Heading1;
              TableWithHeader item_data "LEFT" (Some style)]
    | None => None
    end.
Proof.
  unfold items_blocks, items_table_blocks.
  destruct (items_table self) as [[[|row item_data] style]|]; reflexivity.
Qed.

(** C8, as amended: for every document, [finish] hands to the rendering
    engine the story it found followed by the blocks of the logo, of
    the invoice info, of the party step, of the items, of the
    transactions and of the bottom tip, in this order, and it raises
    only when the items summary cannot be computed.  A step whose data
    is absent contributes nothing: no logo; an invoice info that is not
    set or has no populated field; neither party set; no Item in the
    list; no Transaction in the list; no tip or an empty one.  The one
    exception is the party step with both parties set, which always
    contributes the merged table, header row included, even when no
    field is populated.  A step whose data is present contributes
    exactly its blocks: the image; a heading and a table; the heading
    'Detail' and the items table; the heading 'Transaction' and the
    transactions table; a Spacer and the tip.  The paid stamp appends
    nothing to the story: with the paid flag set [finish] sets the
    build argument 'onFirstPage' to the stamp, and with the flag off it
    leaves the build arguments as it found them, so that a stamp set by
    an earlier pass is still handed over. *)
Theorem finish_appends_sections_in_order (self : SimpleInvoice) :
  option_map (fun r => (_story (snd r), _build_kwargs (snd r))) (finish self)
  = option_map
      (fun items =>
         (_story self ++
          logo_blocks self ++ invoice_info_blocks self ++ party_blocks self ++
          items ++ transactions_blocks self ++ bottom_tip_blocks self,
          kwargs_after_finish self))
      (items_blocks self) /\
  logo_blocks self
  = match _logo self with
    | Some img => [ImageBlock (mkImage (filename img) "LEFT" "TOP")]
    | None => []
    end /\
  invoice_info_blocks self
  = match invoice_info_rows self with
    | [] => []
    | rows => [Paragraph "Invoice" RightHeading1; SimpleTable rows "RIGHT"]
    end /\
  (is_InvoiceInfo (invoice_info self) = false -> invoice_info_rows self = []) /\
  (is_ServiceProviderInfo (service_provider_info self) = false ->
   is_ClientInfo (client_info self) = false -> party_blocks self = []) /\
  (is_ServiceProviderInfo (service_provider_info self) = true ->
   is_ClientInfo (client_info self) = true ->
   exists rows, party_blocks self = [Table (merge_header :: rows) merge_style]) /\
  items_blocks self
  = match items_table self with
    | Some ([], _) => Some []
    | Some (item_data, style) =>
        Some [Paragraph "Detail" Heading1;
              TableWithHeader item_data "LEFT" (Some style)]
    | None => None
    end /\
  (items_of (items self) = [] -> items_blocks self = Some []) /\
  transactions_blocks self
  = match transactions_of (transactions self) with
    | [] => []
    | ts => [Paragraph "Transaction" Heading1;
             TableWithHeader (transaction_title :: map transaction_row ts)
                             "LEFT" None]
    end /\
  bottom_tip_blocks self
  = match _bottom_tip self with
    | Some text =>
        if String.eqb text "" then []
        else [Spacer 5 5; Paragraph text (BottomTip (_bottom_tip_align self))]
    | None => []
    end /\
  (is_paid self = true ->
   dict_get "onFirstPage" (kwargs_after_finish self)
   = Some (PaidStamp 216 (-144))) /\
  (is_paid self = false -> kwargs_after_finish self = _build_kwargs self).
Proof.
  split.
  { rewrite finish_eq.
    destruct (items_blocks self) as [blocks|]; [|reflexivity].
    cbn [option_map snd].
    rewrite story_with_paid_stamp, kwargs_with_paid_stamp, is_paid_aligned,
      kwargs_aligned.
    reflexivity. }
  split; [reflexivity|].
  split.
  { unfold invoice_info_blocks, headed_table.
    destruct (invoice_info_rows self); reflexivity. }
  split.
  { intros H. unfold invoice_info_rows.
    destruct (invoice_info self); try discriminate H; reflexivity. }
  split.
  { intros Hs Hc. unfold party_blocks, separate_party_blocks,
      service_provider_rows, client_rows. rewrite Hs. cbn [andb].
    destruct (service_provider_info self); try discriminate Hs;
      destruct (client_info self); try discriminate Hc; reflexivity. }
  split.
  { intros Hs Hc. unfold party_blocks, merged_table. rewrite Hs, Hc.
    cbn [andb]. eexists. reflexivity. }
  split; [apply items_blocks_of_table|].
  split.
  { intros Hnone. rewrite items_blocks_of_table, items_table_eq.
    unfold items in Hnone. rewrite Hnone. reflexivity. }
  split.
  { unfold transactions_blocks, _transactions_data, transactions.
    rewrite transaction_rows_eq.
    destruct (transactions_of (_transactions self)); reflexivity. }
  split; [reflexivity|].
  unfold kwargs_after_finish. split; intros Hpaid; rewrite Hpaid.
  - apply dict_get_set.
  - reflexivity.
Qed.

Lemma finish_appends_sections_in_order_witness :
  option_map (fun r => (_story (snd r), _build_kwargs (snd r)))
             (finish full_doc)
  = Some ([ImageBlock (mkImage "logo.png" "LEFT" "TOP");
           Paragraph "Invoice" RightHeading1;
           SimpleTable
             [[CVal (VStr "Invoice id:"); CVal (VInt 42)];
              [CVal (VStr "Invoice date:"); CVal (VStr "2024-03-05 09:07")];
              [CVal (VStr "Invoice due date:"); CVal (VStr "2024-04-04")]]
             "RIGHT";
           Table
             [[CPara "Service Provider" Heading1; CVal (VStr "");
               CVal (VStr ""); CPara "Client" Heading1; CVal (VStr "")];
              [CVal (VStr "Name:"); CVal (VStr "Acme"); CVal (VStr "");
               CVal (VStr "Name:"); CVal (VStr "Bob")];
              [CVal (VStr "Street:"); CVal (VStr "1 Main St");
               CVal (VStr ""); CVal (VStr ""); CVal (VStr "")]]
             [SPAN (0, 0) (1, 0); SPAN (3, 0) (4, 0);
              LINEBELOW (0, 0) (1, 0) 1 "gray";
              LINEBELOW (3, 0) (4, 0) 1 "gray";
              LEFTPADDING (0, 0) (-1, -1) 0];
           Paragraph "Detail" Heading1;
           TableWithHeader
             [[CVal (VStr "Name"); CVal (VStr "Description");
               CVal (VStr "Units"); CVal (VStr "Unit Price");
               CVal (VStr "Amount")];
              [CVal (VStr "Item"); CPara "Description" TableParagraph;
               CVal (VInt 1); CFloat2f (dec 1000 (-2)); CVal (VStr "10.00")];
              [CVal (VStr "Item"); CPara "Description" TableParagraph;
               CVal (VInt 1); CFloat2f (dec 20005 (-3)); CVal (VStr "20.00")];
              [CVal (VStr "Subtotal"); CVal (VStr ""); CVal (VStr "");
               CVal (VStr ""); CVal (VStr "30.01")];
              [CVal (VStr "Vat/Tax (10%)"); CVal (VStr ""); CVal (VStr "");
               CVal (VStr ""); CVal (VStr "3.00")];
              [CVal (VStr "Total"); CVal (VStr ""); CVal (VStr "");
               CVal (VStr ""); CVal (VStr "33.01")]]
             "LEFT"
             (Some [SPAN (0, 3) (3, 3); ALIGN (0, 3) (-2, -1) "RIGHT";
                    SPAN (0, 4) (3, 4); ALIGN (0, 4) (-2, -1) "RIGHT";
                    SPAN (0, 5) (3, 5); ALIGN (0, 5) (-2, -1) "RIGHT"]);
           Paragraph "Transaction" Heading1;
           TableWithHeader
             [[CVal (VStr "Transaction id"); CVal (VStr "Gateway");
               CVal (VStr "Transaction date"); CVal (VStr "Amount")];
              [CVal (VStr "T1"); CPara "Bank" TableParagraph;
               CVal (VStr "2024-03-05 09:07"); CVal (VStr "33.01")]]
             "LEFT" None;
           Spacer 5 5; Paragraph "Thank you" (BottomTip (Some 1))],
          [("onFirstPage", PaidStamp 216 (-144))]).
Proof.
  rewrite (proj1 (finish_appends_sections_in_order full_doc)).
  vm_compute. reflexivity.
Defined.

(** C8 as stated fails on two counts.  With both parties set and no
    field populated, the party step still appends a table, the header
    row alone.  And the stamp is not tied to the paid flag: after a
    pass with the flag set, a pass with the flag off still hands over
    'onFirstPage'. *)
Lemma absent_data_still_reaches_build :
  client_rows empty_parties_doc = [] /\
  service_provider_rows empty_parties_doc = [] /\
  option_map (fun r => _story (snd r)) (finish empty_parties_doc)
  = Some [Table
            [[CPara "Service Provider" Heading1; CVal (VStr "");
              CVal (VStr ""); CPara "Client" Heading1; CVal (VStr "")]]
            [SPAN (0, 0) (1, 0); SPAN (3, 0) (4, 0);
             LINEBELOW (0, 0) (1, 0) 1 "gray";
             LINEBELOW (3, 0) (4, 0) 1 "gray";
             LEFTPADDING (0, 0) (-1, -1) 0]] /\
  option_map
    (fun r => option_map
                (fun r' => (is_paid (set_is_paid false (snd r)),
                            dict_get "onFirstPage" (_build_kwargs (snd r'))))
                (finish (set_is_paid false (snd r))))
    (finish (set_is_paid true (init default_precision)))
  = Some (Some (false, Some (PaidStamp 216 (-144)))).
Proof. repeat split; vm_compute; reflexivity. Qed.
